(** * printmas: the Niimbot printer protocol of [src/main/printer.cc]

    A shallow embedding of [PRNM::NiimbotPrinter] (frame codec, receive
    reassembly, response handling and the print sequence), followed by the
    properties established about it.

    Conventions of the embedding.
    - A [uint8_t] or [uint16_t] value is a [Z]; a narrowing cast is written
      out with [u8].  XOR of two bytes is again a byte, so [^] needs no cast.
    - A [size_t] is a [nat].  Every [size_t] of the source is the length of
      (or an index into) an array of at most 512 bytes, so no [size_t]
      computation of the source wraps.
    - A C array is a [list Z] that keeps its length: [buf[i] = v] is
      [<[i:=v]> buf] and a read [buf[i]] is [buf.[i]].  Arrays are passed
      together with the lengths the source passes.
    - [ESP_LOGx] output and [vTaskDelay] pauses do not influence any modelled
      state and are left out. *)

From Stdlib Require Import ZArith Lia.
From stdpp Require Import list.

(* ================================================================== *)
(** * Part I: definitions *)
(* ================================================================== *)

(** ** Bytes, arrays and loops *)

(** [static_cast<uint8_t>(z)] *)
Definition u8 (z : Z) : Z := (z mod 256)%Z.

(** A value that fits a [uint8_t]. *)
Definition is_byte (z : Z) : Prop := (0 ≤ z < 256)%Z.

(** The read [buf[i]].  Reading outside the array is undefined in C++; the
    embedding yields 0 there and no theorem relies on it. *)
Definition rd (buf : list Z) (i : nat) : Z := default 0%Z (buf !! i).

Notation "buf .[ i ]" := (rd buf i) (at level 1, left associativity, format "buf .[ i ]").

(** [for (size_t i = 0; i < n; i++) s = body(i, s);] *)
Definition for_range {S : Type} (n : nat) (body : nat → S → S) (s : S) : S :=
  fold_left (λ s i, body i s) (seq 0 n) s.

(** [memcpy(dst + d, src + s, n)], and [memmove] when the regions overlap
    with [d ≤ s]: the [n] source bytes are read first, then stored. *)
Definition memcpy (dst : list Z) (d : nat) (src : list Z) (s n : nat) : list Z :=
  list_inserts d (take n (drop s src)) dst.

(** ** Packet markers (anonymous namespace of printer.cc) *)

Definition kPacketStart1 : Z := 0x55%Z.
Definition kPacketStart2 : Z := 0x55%Z.
Definition kPacketEnd1 : Z := 0xAA%Z.
Definition kPacketEnd2 : Z := 0xAA%Z.

(** ** BuildPacket *)

(** [NiimbotPrinter::BuildPacket(buf, buf_size, type, data, data_len)]:
    the array [buf] after the call and the returned length (0 when the
    buffer is too small, with [buf] untouched). *)
Definition BuildPacket (buf : list Z) (buf_size : nat) (type : Z)
    (data : list Z) (data_len : nat) : list Z * nat :=
  if buf_size <? data_len + 7 then (buf, 0)
  else
    let buf := <[0 := kPacketStart1]> buf in
    let buf := <[1 := kPacketStart2]> buf in
    let buf := <[2 := type]> buf in
    let buf := <[3 := u8 (Z.of_nat data_len)]> buf in
    let checksum := Z.lxor type (u8 (Z.of_nat data_len)) in
    let '(buf, checksum) :=
      for_range data_len
        (λ i '(buf, checksum), (<[4 + i := data.[i]]> buf, Z.lxor checksum data.[i]))
        (buf, checksum) in
    let buf := <[4 + data_len := checksum]> buf in
    let buf := <[5 + data_len := kPacketEnd1]> buf in
    let buf := <[6 + data_len := kPacketEnd2]> buf in
    (buf, data_len + 7).

(** ** ParsePacket *)

(** The [return] statement through which [ParsePacket] leaves, in source
    order: [len < 7]; wrong start markers; "Incomplete packet"; "Invalid
    packet end markers"; "Packet checksum mismatch"; and [return true]. *)
Inductive parse_exit : Type :=
  | ExitTooShort
  | ExitBadStart
  | ExitIncomplete
  | ExitBadEnd
  | ExitChecksumMismatch
  | ExitOk.

Global Instance parse_exit_eq_dec : EqDecision parse_exit.
Proof. solve_decision. Defined.

(** The [bool] that the C++ caller receives. *)
Definition returned (e : parse_exit) : bool :=
  match e with ExitOk => true | _ => false end.

(** What a call leaves behind: the exit taken and the three out-parameters
    [*type], [data] and [*data_len]. *)
Record parsed : Type := Parsed {
  p_exit : parse_exit;
  p_type : Z;
  p_data : list Z;
  p_data_len : nat;
}.

(** [NiimbotPrinter::ParsePacket(buf, len, type, data, data_len)]; the last
    three arguments are the contents of the out-parameters before the call. *)
Definition ParsePacket (buf : list Z) (len : nat) (type : Z) (data : list Z)
    (data_len : nat) : parsed :=
  if len <? 7 then Parsed ExitTooShort type data data_len
  else if negb (buf.[0] =? kPacketStart1)%Z || negb (buf.[1] =? kPacketStart2)%Z
  then Parsed ExitBadStart type data data_len
  else
    let type := buf.[2] in
    let pkt_data_len := Z.to_nat buf.[3] in
    if len <? pkt_data_len + 7 then Parsed ExitIncomplete type data data_len
    else if negb (buf.[5 + pkt_data_len] =? kPacketEnd1)%Z
            || negb (buf.[6 + pkt_data_len] =? kPacketEnd2)%Z
    then Parsed ExitBadEnd type data data_len
    else
      let checksum := Z.lxor type (u8 (Z.of_nat pkt_data_len)) in
      let '(data, checksum) :=
        for_range pkt_data_len
          (λ i '(data, checksum), (<[i := buf.[4 + i]]> data, Z.lxor checksum buf.[4 + i]))
          (data, checksum) in
      if negb (checksum =? buf.[4 + pkt_data_len])%Z
      then Parsed ExitChecksumMismatch type data data_len
      else Parsed ExitOk type data pkt_data_len.

(** ** The printer object *)

(** Printer status from heartbeat ([struct Status]). *)
Record Status : Type := MkStatus {
  closing_state : Z;
  power_level : Z;
  paper_state : Z;
  rfid_read_state : Z;
}.

(** The data members of [class NiimbotPrinter].  Of the two [std::function]
    members only whether they hold a target matters here; the binary
    semaphore is [None] for a null handle and otherwise records whether a
    signal is pending. *)
Record NiimbotPrinter : Type := MkPrinter {
  send_callback_ : bool;
  ready_callback_ : bool;
  write_semaphore_ : option bool;
  packet_buf_ : list Z;
  packet_buf_len_ : nat;
  status_ : Status;
  ready_ : bool;
}.

Definition with_semaphore (p : NiimbotPrinter) (s : option bool) : NiimbotPrinter :=
  MkPrinter (send_callback_ p) (ready_callback_ p) s
            (packet_buf_ p) (packet_buf_len_ p) (status_ p) (ready_ p).

Definition with_packet_buf (p : NiimbotPrinter) (buf : list Z) (len : nat) : NiimbotPrinter :=
  MkPrinter (send_callback_ p) (ready_callback_ p) (write_semaphore_ p)
            buf len (status_ p) (ready_ p).

Definition with_status (p : NiimbotPrinter) (s : Status) : NiimbotPrinter :=
  MkPrinter (send_callback_ p) (ready_callback_ p) (write_semaphore_ p)
            (packet_buf_ p) (packet_buf_len_ p) s (ready_ p).

Definition with_ready (p : NiimbotPrinter) (r : bool) : NiimbotPrinter :=
  MkPrinter (send_callback_ p) (ready_callback_ p) (write_semaphore_ p)
            (packet_buf_ p) (packet_buf_len_ p) (status_ p) r.

(** [sizeof(packet_buf_)] *)
Definition sizeof_packet_buf : nat := 512.

(** A freshly constructed printer: the in-class initialisers, with the
    semaphore created empty and no callback installed yet. *)
Definition new_printer : NiimbotPrinter :=
  MkPrinter false false (Some false) (replicate sizeof_packet_buf 0%Z) 0
            (MkStatus 0 0 0 0) false.

Definition SetSendCallback (p : NiimbotPrinter) : NiimbotPrinter :=
  MkPrinter true (ready_callback_ p) (write_semaphore_ p)
            (packet_buf_ p) (packet_buf_len_ p) (status_ p) (ready_ p).

Definition SetReadyCallback (p : NiimbotPrinter) : NiimbotPrinter :=
  MkPrinter (send_callback_ p) true (write_semaphore_ p)
            (packet_buf_ p) (packet_buf_len_ p) (status_ p) (ready_ p).

(** [NiimbotPrinter::Reset] *)
Definition Reset (p : NiimbotPrinter) : NiimbotPrinter :=
  let p := with_ready p false in
  let p := with_packet_buf p (packet_buf_ p) 0 in
  with_status p (MkStatus 0 0 0 0).

(** [NiimbotPrinter::OnWriteComplete]: [xSemaphoreGive] on a binary semaphore. *)
Definition OnWriteComplete (p : NiimbotPrinter) : NiimbotPrinter :=
  match write_semaphore_ p with
  | Some _ => with_semaphore p (Some true)
  | None => p
  end.

(** [NiimbotPrinter::IsReady] *)
Definition IsReady (p : NiimbotPrinter) : bool := ready_ p.

(** ** Observable calls *)

(** What the printer object does to its surroundings: entering
    [HandleResponse(type, data, data_len)] (recorded with the [data_len] bytes
    it is given), invoking [ready_callback_()], and invoking
    [send_callback_(pkt, pkt_len, wait_for_response)]. *)
Inductive event : Type :=
  | EvResponse (type : Z) (data : list Z)
  | EvReady
  | EvSend (pkt : list Z) (wait_for_response : bool).

Global Instance event_eq_dec : EqDecision event.
Proof. solve_decision. Defined.

(** ** HandleResponse *)

(** [NiimbotPrinter::HandleResponse(type, data, data_len)].  The branches
    after the heartbeat one (info, print status, acknowledgements, unknown
    type) only log and fall under the final [else]. *)
Definition HandleResponse (p : NiimbotPrinter) (type : Z) (data : list Z)
    (data_len : nat) : NiimbotPrinter * list event :=
  let entered := [EvResponse type (take data_len data)] in
  if (type =? 0xDB)%Z then (p, entered)
  else if (type =? 0xDD)%Z && (9 <=? data_len) then
    let s := status_ p in
    let s :=
      match data_len with
      | 20 => MkStatus (closing_state s) (power_level s) data.[18] data.[19]
      | 13 => MkStatus data.[9] data.[10] data.[11] data.[12]
      | 19 => MkStatus data.[15] data.[16] data.[17] data.[18]
      | 10 => MkStatus data.[8] data.[9] (paper_state s) (rfid_read_state s)
      | 9 => MkStatus data.[8] (power_level s) (paper_state s) (rfid_read_state s)
      | _ => s
      end in
    let p := with_status p s in
    if negb (ready_ p)
    then (with_ready p true,
          entered ++ (if ready_callback_ p then [EvReady] else []))
    else (p, entered)
  else (p, entered).

(** ** ProcessReceivedData *)

(** How a call ends in the embedding: it returns; or it reaches a store
    outside [packet_buf_], where C++ leaves the behaviour undefined; or the
    loop budget [fuel] given to the embedding was too small. *)
Inductive outcome (A : Type) : Type :=
  | Returns (a : A)
  | Undefined
  | OutOfFuel.
Arguments Returns {A} a.
Arguments Undefined {A}.
Arguments OutOfFuel {A}.

(** The inner loop "Find start markers":
    [while (start_idx < packet_buf_len_ - 1) { if (...) break; start_idx++; }]
    with [remaining = packet_buf_len_ - 1 - start_idx]. *)
Fixpoint find_start (buf : list Z) (remaining start_idx : nat) : nat :=
  match remaining with
  | 0 => start_idx
  | S remaining =>
      if (buf.[start_idx] =? kPacketStart1)%Z && (buf.[start_idx + 1] =? kPacketStart2)%Z
      then start_idx
      else find_start buf remaining (start_idx + 1)
  end.

(** How one execution of the body of [while (packet_buf_len_ >= 7)] ends. *)
Inductive flow : Type := Continue | Break.

(** [memmove(packet_buf_, packet_buf_ + k, packet_buf_len_ - k);
     packet_buf_len_ -= k;] *)
Definition drop_front (p : NiimbotPrinter) (k : nat) : NiimbotPrinter :=
  with_packet_buf p
    (memcpy (packet_buf_ p) 0 (packet_buf_ p) k (packet_buf_len_ p - k))
    (packet_buf_len_ p - k).

(** The body of [while (packet_buf_len_ >= 7)].  The locals [type],
    [pkt_data[256]] and [pkt_data_len] are uninitialised in the source; they
    are given zeros here, and [ParsePacket_ok_out] shows that nothing read
    after a successful parse depends on that choice. *)
Definition parse_pass (p : NiimbotPrinter) : NiimbotPrinter * list event * flow :=
  let start_idx := find_start (packet_buf_ p) (packet_buf_len_ p - 1) 0 in
  let p := if 0 <? start_idx then drop_front p start_idx else p in
  if packet_buf_len_ p <? 7 then (p, [], Break)
  else
    let r := ParsePacket (packet_buf_ p) (packet_buf_len_ p) 0 (replicate 256 0%Z) 0 in
    if returned (p_exit r) then
      let '(p, evs) := HandleResponse p (p_type r) (p_data r) (p_data_len r) in
      let pkt_total_len := p_data_len r + 7 in
      (drop_front p pkt_total_len, evs, Continue)
    else if 4 <=? packet_buf_len_ p then
      let expected_len := Z.to_nat (packet_buf_ p).[3] + 7 in
      if packet_buf_len_ p <? expected_len then (p, [], Break)
      else (drop_front p 1, [], Continue)
    else (p, [], Break).

(** [while (packet_buf_len_ >= 7) { ... }], at most [fuel] executions of
    the body. *)
Fixpoint parse_loop (fuel : nat) (p : NiimbotPrinter)
    : outcome (NiimbotPrinter * list event) :=
  if packet_buf_len_ p <? 7 then Returns (p, [])
  else
    match fuel with
    | 0 => OutOfFuel
    | S fuel =>
        let '(p, evs, fl) := parse_pass p in
        match fl with
        | Break => Returns (p, evs)
        | Continue =>
            match parse_loop fuel p with
            | Returns (p', evs') => Returns (p', evs ++ evs')
            | o => o
            end
        end
    end.

(** [NiimbotPrinter::ProcessReceivedData(data, len)].  After the overflow
    check the source copies unconditionally; when the [len] bytes do not fit
    the array even from offset 0 that [memcpy] stores past the end of
    [packet_buf_], which is where the embedding stops with [Undefined]. *)
Definition ProcessReceivedData (fuel : nat) (p : NiimbotPrinter) (data : list Z)
    (len : nat) : outcome (NiimbotPrinter * list event) :=
  let p :=
    if sizeof_packet_buf <? packet_buf_len_ p + len
    then with_packet_buf p (packet_buf_ p) 0
    else p in
  if length (packet_buf_ p) <? packet_buf_len_ p + len then Undefined
  else
    let p := with_packet_buf p
               (memcpy (packet_buf_ p) (packet_buf_len_ p) data 0 len)
               (packet_buf_len_ p + len) in
    parse_loop fuel p.

(** ** Commands *)

(** The [esp_err_t] values that the printer object returns. *)
Inductive esp_err_t : Type :=
  | ESP_OK
  | ESP_ERR_INVALID_STATE
  | ESP_ERR_INVALID_SIZE
  | ESP_ERR_TIMEOUT.

Global Instance esp_err_t_eq_dec : EqDecision esp_err_t.
Proof. solve_decision. Defined.

(** [enum class RequestCode : uint8_t] *)
Inductive RequestCode : Type :=
  | GET_INFO | GET_RFID | HEARTBEAT | SET_LABEL_TYPE | SET_LABEL_DENSITY
  | START_PRINT | END_PRINT | START_PAGE_PRINT | END_PAGE_PRINT
  | ALLOW_PRINT_CLEAR | SET_DIMENSION | SET_QUANTITY | GET_PRINT_STATUS
  | PRINT_BITMAP_ROW_INDEXED | PRINT_EMPTY_ROW | PRINT_BITMAP_ROW.

(** [static_cast<uint8_t>(code)] *)
Definition code_value (code : RequestCode) : Z :=
  match code with
  | GET_INFO => 0x40 | GET_RFID => 0x1A | HEARTBEAT => 0xDC
  | SET_LABEL_TYPE => 0x23 | SET_LABEL_DENSITY => 0x21
  | START_PRINT => 0x01 | END_PRINT => 0xF3
  | START_PAGE_PRINT => 0x03 | END_PAGE_PRINT => 0xE3
  | ALLOW_PRINT_CLEAR => 0x20 | SET_DIMENSION => 0x13 | SET_QUANTITY => 0x15
  | GET_PRINT_STATUS => 0xA3 | PRINT_BITMAP_ROW_INDEXED => 0x83
  | PRINT_EMPTY_ROW => 0x84 | PRINT_BITMAP_ROW => 0x85
  end%Z.

(** [Signs::RleImage]; the two pointers are the arrays they point to. *)
Record RleImage : Type := MkRleImage {
  img_w : Z;
  img_h : Z;
  row_offs : list Z;
  img_data : list Z;
}.

Definition kPaperWidthDots : Z := 384.
Definition kPaperHeightDots : Z := 240.

(** The state a command runs in: the printer object, the calls made to the
    send callback so far, and how many times a command has so far waited on
    the write semaphore. *)
Record World : Type := MkWorld {
  w_printer : NiimbotPrinter;
  w_sent : list event;
  w_waits : nat;
}.

(** A command: a state transformer that yields a value. *)
Definition M (A : Type) : Type := World → A * World.

Definition ret {A : Type} (a : A) : M A := λ w, (a, w).

(** [ESP_RETURN_ON_ERROR(m, ...); k]: leave with the error of [m], or go on
    with [k] when [m] gave [ESP_OK]. *)
Definition on_ok (m : M esp_err_t) (k : M esp_err_t) : M esp_err_t :=
  λ w, let '(e, w') := m w in
       match e with
       | ESP_OK => k w'
       | _ => (e, w')
       end.

Notation "m >>! k" := (on_ok m k) (at level 90, right associativity).

Section Commands.

(** The transport: whether the write-complete signal awaited by the
    [k]-th wait ([OnWriteComplete], given from the BLE task) arrives
    within [kWriteTimeout]. *)
Variable write_completes : nat → bool.

(** [Signs::decode_rle_row_1bpp(img, y, row_data, row_bytes)], declared in
    signs.h and defined outside the sources at hand: [row_data] after the
    call. *)
Variable decode_rle_row_1bpp : RleImage → Z → list Z → nat → list Z.

(** [NiimbotPrinter::SendPacket(code, data, data_len, wait_for_response)].
    [pkt[256]] is uninitialised in the source and zero-filled here; the
    callback only sees the [pkt_len] bytes that [BuildPacket] stored. *)
Definition SendPacket (code : RequestCode) (data : list Z) (data_len : nat)
    (wait_for_response : bool) : M esp_err_t := λ w,
  let p := w_printer w in
  if negb (send_callback_ p) then (ESP_ERR_INVALID_STATE, w)
  else
    let type := code_value code in
    let '(pkt, pkt_len) := BuildPacket (replicate 256 0%Z) 256 type data data_len in
    if pkt_len =? 0 then (ESP_ERR_INVALID_SIZE, w)
    else
      let waits := wait_for_response && bool_decide (is_Some (write_semaphore_ p)) in
      (* xSemaphoreTake(write_semaphore_, 0): clear any pending signal *)
      let p := if waits then with_semaphore p (Some false) else p in
      let sent := w_sent w ++ [EvSend (take pkt_len pkt) wait_for_response] in
      if waits then
        (* xSemaphoreTake(write_semaphore_, kWriteTimeout) *)
        if write_completes (w_waits w)
        then (ESP_OK, MkWorld p sent (S (w_waits w)))
        else (ESP_ERR_TIMEOUT, MkWorld p sent (S (w_waits w)))
      else (ESP_OK, MkWorld p sent (w_waits w)).

Definition SendHeartbeat : M esp_err_t :=
  SendPacket HEARTBEAT [0x01%Z] 1 true.

Definition SetLabelDensity (density : Z) : M esp_err_t :=
  SendPacket SET_LABEL_DENSITY [density] 1 true.

Definition SetLabelType (type : Z) : M esp_err_t :=
  SendPacket SET_LABEL_TYPE [type] 1 true.

Definition StartPrint (total_pages page_color : Z) : M esp_err_t :=
  SendPacket START_PRINT
    [u8 (Z.shiftr total_pages 8); u8 (Z.land total_pages 0xFF);
     0; 0; 0; 0; page_color]%Z 7 true.

Definition StartPagePrint : M esp_err_t :=
  SendPacket START_PAGE_PRINT [0x01%Z] 1 true.

Definition SetPageSize (rows cols copies : Z) : M esp_err_t :=
  SendPacket SET_DIMENSION
    [u8 (Z.shiftr rows 8); u8 (Z.land rows 0xFF);
     u8 (Z.shiftr cols 8); u8 (Z.land cols 0xFF);
     u8 (Z.shiftr copies 8); u8 (Z.land copies 0xFF)] 6 true.

(** [pkt_data[256]] is uninitialised in the source and zero-filled here;
    the [6 + row_len] bytes handed on are all stored first. *)
Definition SendBitmapRow (row_num : Z) (row_data : list Z) (row_len : nat)
    : M esp_err_t :=
  let pkt_data := replicate 256 0%Z in
  let pkt_data := <[0 := u8 (Z.shiftr row_num 8)]> pkt_data in
  let pkt_data := <[1 := u8 (Z.land row_num 0xFF)]> pkt_data in
  let pkt_data := <[2 := 0%Z]> pkt_data in
  let pkt_data := <[3 := 0%Z]> pkt_data in
  let pkt_data := <[4 := 0%Z]> pkt_data in
  let pkt_data := <[5 := 1%Z]> pkt_data in
  let pkt_data := memcpy pkt_data 6 row_data 0 row_len in
  SendPacket PRINT_BITMAP_ROW pkt_data (6 + row_len) true.

Definition EndPagePrint : M esp_err_t :=
  SendPacket END_PAGE_PRINT [0x01%Z] 1 true.

Definition EndPrint : M esp_err_t :=
  SendPacket END_PRINT [0x01%Z] 1 true.

Definition GetPrintStatus : M esp_err_t :=
  SendPacket GET_PRINT_STATUS [0x01%Z] 1 true.

(** "Step 6: Send image data":
    [for (uint16_t y = ...; y < print_height; y++) { decode; send; }]
    with [remaining = print_height - y]; a failed send leaves [Print]. *)
Fixpoint send_rows (image : RleImage) (kRowBytes remaining : nat) (y : Z)
    (row_data : list Z) : M esp_err_t :=
  match remaining with
  | 0 => ret ESP_OK
  | S remaining =>
      let row_data := decode_rle_row_1bpp image y row_data kRowBytes in
      SendBitmapRow y row_data kRowBytes
      >>! send_rows image kRowBytes remaining ((y + 1) mod 65536)%Z row_data
  end.

(** The body of [NiimbotPrinter::Print(image)].  The local array
    [uint8_t row_data[kRowBytes]] is declared without an initialiser:
    [row_data] stands for whatever its [kRowBytes] bytes hold when [Print]
    is entered. *)
Definition Print_from (row_data : list Z) (image : RleImage) : M esp_err_t := λ w,
  if negb (ready_ (w_printer w)) then (ESP_ERR_INVALID_STATE, w)
  else
    let kRowBytes := Z.to_nat (kPaperWidthDots / 8) in
    let print_height :=
      if (img_h image <? kPaperHeightDots)%Z then img_h image else kPaperHeightDots in
    (SetLabelDensity 3
     >>! SetLabelType 1
     >>! StartPrint 1 0
     >>! StartPagePrint
     >>! SetPageSize print_height kPaperWidthDots 1
     >>! send_rows image kRowBytes (Z.to_nat print_height) 0 row_data
     >>! EndPagePrint
     >>! EndPrint
     >>! ret ESP_OK) w.

(** [NiimbotPrinter::Print(image)] entered with a zero-filled [row_data];
    what the array holds matters only where the decoder leaves bytes of it
    unwritten. *)
Definition Print (image : RleImage) : M esp_err_t :=
  Print_from (replicate (Z.to_nat (kPaperWidthDots / 8)) 0%Z) image.

End Commands.

(** ** Reference notions used to state the properties *)

(** The checksum as the protocol describes it: the XOR of the type byte,
    the length byte and every payload byte. *)
Definition xor_fold (type len : Z) (payload : list Z) : Z :=
  fold_left Z.lxor payload (Z.lxor type len).

(** The wire layout as the protocol describes it:
    [[0x55][0x55][type][len][payload][checksum][0xAA][0xAA]]. *)
Definition wire_frame (type : Z) (payload : list Z) : list Z :=
  [0x55; 0x55; type; Z.of_nat (length payload)]%Z
  ++ payload
  ++ [xor_fold type (Z.of_nat (length payload)) payload; 0xAA; 0xAA]%Z.

(** The receive accumulator holds exactly the bytes [bs]: they are the first
    [packet_buf_len_] bytes of the 512-byte array [packet_buf_]. *)
Definition accumulated (p : NiimbotPrinter) (bs : list Z) : Prop :=
  length (packet_buf_ p) = sizeof_packet_buf
  ∧ packet_buf_len_ p = length bs
  ∧ take (length bs) (packet_buf_ p) = bs.

(** Two printer objects that differ at most in the receive accumulator. *)
Definition same_device (p q : NiimbotPrinter) : Prop :=
  send_callback_ p = send_callback_ q
  ∧ ready_callback_ p = ready_callback_ q
  ∧ write_semaphore_ p = write_semaphore_ q
  ∧ status_ p = status_ q
  ∧ ready_ p = ready_ q.

(** Whether two adjacent start-marker bytes occur somewhere in [l]. *)
Fixpoint has_start_pair (l : list Z) : bool :=
  match l with
  | x :: (y :: _) as l' =>
      ((x =? kPacketStart1)%Z && (y =? kPacketStart2)%Z) || has_start_pair l'
  | _ => false
  end.

(** ** Sequences of calls on the receive side *)

(** One call made on the printer object from the receive side: a frame
    handed to [HandleResponse], or [Reset]. *)
Inductive input : Type :=
  | Frame (type : Z) (data : list Z) (data_len : nat)
  | ResetCall.

Definition step (p : NiimbotPrinter) (i : input) : NiimbotPrinter * list event :=
  match i with
  | Frame type data data_len => HandleResponse p type data data_len
  | ResetCall => (Reset p, [])
  end.

(** The calls [ins] made one after the other. *)
Fixpoint run (p : NiimbotPrinter) (ins : list input) : NiimbotPrinter * list event :=
  match ins with
  | [] => (p, [])
  | i :: ins =>
      let '(q, evs) := step p i in
      let '(r, evs') := run q ins in
      (r, evs ++ evs')
  end.

(** A heartbeat response (type 0xDD) whose payload has at least 9 bytes. *)
Definition is_heartbeat9 (i : input) : bool :=
  match i with
  | Frame type _ data_len => (type =? 0xDD)%Z && (9 <=? data_len)
  | ResetCall => false
  end.

Definition is_reset (i : input) : bool :=
  match i with ResetCall => true | Frame _ _ _ => false end.

(** How often [ready_callback_] was invoked. *)
Definition ready_fired (evs : list event) : nat :=
  length (filter (λ e, e = EvReady) evs).

(** The frames passed to [HandleResponse], in order. *)
Definition handled (evs : list event) : list (Z * list Z) :=
  omap (λ e, match e with EvResponse t d => Some (t, d) | _ => None end) evs.

(** A frame whose checksum byte has been replaced by [c]. *)
Definition corrupt_frame (type : Z) (payload : list Z) (c : Z) : list Z :=
  [0x55; 0x55; type; Z.of_nat (length payload)]%Z ++ payload ++ [c; 0xAA; 0xAA]%Z.

(** ** The print job as a list of commands *)

(** A 16-bit value as two bytes, high byte first. *)
Definition be16 (x : Z) : list Z := [u8 (Z.shiftr x 8); u8 (Z.land x 0xFF)].

(** The send-callback call that transmits command [code] with [payload]
    and asks for the write acknowledgement. *)
Definition command (code : RequestCode) (payload : list Z) : event :=
  EvSend (wire_frame (code_value code) payload) true.

Section PrintPlan.

Variable write_completes : nat → bool.
Variable decode_rle_row_1bpp : RleImage → Z → list Z → nat → list Z.

(** What the row buffer of [Print] holds when [Print] is entered. *)
Variable row0 : list Z.

(** The 48-byte row buffer of [Print] after rows [0 .. y] were decoded
    into it one after the other. *)
Fixpoint row_data_after (image : RleImage) (y : nat) : list Z :=
  match y with
  | 0 => decode_rle_row_1bpp image 0%Z row0 48
  | S y' => decode_rle_row_1bpp image (Z.of_nat y) (row_data_after image y') 48
  end.

(** The row buffer as [Print] holds it before row [y] is decoded. *)
Definition row_data_before (image : RleImage) (y : nat) : list Z :=
  match y with
  | 0 => row0
  | S y' => row_data_after image y'
  end.

Definition bitmap_row_command (image : RleImage) (y : nat) : event :=
  command PRINT_BITMAP_ROW
    (be16 (Z.of_nat y) ++ [0; 0; 0; 1]%Z ++ row_data_after image y).

(** The commands of a complete print job: density, label type, start
    print, start page, page dimensions, one bitmap row per row index
    below the capped row count, end page, end print.  The row commands
    carry what the decoder made of the row buffer, which started as
    [row0]. *)
Definition print_plan (image : RleImage) : list event :=
  let rows := Z.min (img_h image) kPaperHeightDots in
  [command SET_LABEL_DENSITY [3%Z];
   command SET_LABEL_TYPE [1%Z];
   command START_PRINT [0; 1; 0; 0; 0; 0; 0]%Z;
   command START_PAGE_PRINT [1%Z];
   command SET_DIMENSION (be16 rows ++ be16 kPaperWidthDots ++ be16 1)]
  ++ map (bitmap_row_command image) (seq 0 (Z.to_nat rows))
  ++ [command END_PAGE_PRINT [1%Z]; command END_PRINT [1%Z]].

(** Whether a command issued in world [w] runs into the write timeout. *)
Definition times_out (w : World) : bool :=
  bool_decide (is_Some (write_semaphore_ (w_printer w)))
  && negb (write_completes (w_waits w)).

(** The world after the send callback was called with [ev] and the
    acknowledgement was awaited. *)
Definition sent_world (w : World) (ev : event) : World :=
  if bool_decide (is_Some (write_semaphore_ (w_printer w)))
  then MkWorld (with_semaphore (w_printer w) (Some false)) (w_sent w ++ [ev])
               (S (w_waits w))
  else MkWorld (w_printer w) (w_sent w ++ [ev]) (w_waits w).

(** Transmitting one command. *)
Definition transmit (ev : event) : M esp_err_t :=
  λ w, (if times_out w then ESP_ERR_TIMEOUT else ESP_OK, sent_world w ev).

(** Transmitting a list of commands, stopping at the first failure. *)
Fixpoint run_plan (plan : list event) : M esp_err_t :=
  match plan with
  | [] => ret ESP_OK
  | ev :: plan => transmit ev >>! run_plan plan
  end.

End PrintPlan.

(** ** Streams of frames and sequences of deliveries *)

(** The bytes of the frames [fs] (pairs of type and payload) one after the
    other. *)
Definition stream (fs : list (Z * list Z)) : list Z :=
  concat (map (λ f, wire_frame f.1 f.2) fs).

(** The [HandleResponse] calls that correspond to the frames [fs]. *)
Definition as_inputs (fs : list (Z * list Z)) : list input :=
  map (λ f, Frame f.1 f.2 (length f.2)) fs.

(** [part] is the beginning of a frame that is not there in full yet. *)
Definition partial_frame (part : list Z) : Prop :=
  ∃ t pl k, length pl ≤ 255 ∧ k < length pl + 7 ∧ part = take k (wire_frame t pl).

(** One [ProcessReceivedData] call per chunk, in order. *)
Fixpoint deliver (fuel : nat) (p : NiimbotPrinter) (chunks : list (list Z))
    : outcome (NiimbotPrinter * list event) :=
  match chunks with
  | [] => Returns (p, [])
  | c :: chunks =>
      match ProcessReceivedData fuel p c (length c) with
      | Returns (q, evs) =>
          match deliver fuel q chunks with
          | Returns (r, evs') => Returns (r, evs ++ evs')
          | o => o
          end
      | o => o
      end
  end.

(** The receive array consists of 512 bytes. *)
Definition byte_array (p : NiimbotPrinter) : Prop :=
  length (packet_buf_ p) = sizeof_packet_buf ∧ Forall is_byte (packet_buf_ p).

(** ** Further commands *)

(** [enum class InfoKey : uint8_t] *)
Inductive InfoKey : Type :=
  | DENSITY | PRINTSPEED | LABELTYPE | LANGUAGETYPE | AUTOSHUTDOWNTIME
  | DEVICETYPE | SOFTVERSION | BATTERY | DEVICESERIAL | HARDVERSION.

(** [static_cast<uint8_t>(key)] *)
Definition key_value (key : InfoKey) : Z :=
  match key with
  | DENSITY => 1 | PRINTSPEED => 2 | LABELTYPE => 3 | LANGUAGETYPE => 6
  | AUTOSHUTDOWNTIME => 7 | DEVICETYPE => 8 | SOFTVERSION => 9 | BATTERY => 10
  | DEVICESERIAL => 11 | HARDVERSION => 12
  end%Z.

Section InfoCommands.

Variable write_completes : nat → bool.

Definition GetDeviceInfo (key : InfoKey) : M esp_err_t :=
  SendPacket write_completes GET_INFO [key_value key] 1 true.

Definition SendEmptyRow (row_num count : Z) : M esp_err_t :=
  SendPacket write_completes PRINT_EMPTY_ROW
    [u8 (Z.shiftr row_num 8); u8 (Z.land row_num 0xFF); count] 3 true.

End InfoCommands.

(** [q] is [p] with, at most, another state of the write semaphore. *)
Definition up_to_semaphore (p q : NiimbotPrinter) : Prop :=
  q = with_semaphore p (write_semaphore_ q).

(** The calls of the send callback are all made with
    [wait_for_response = true]. *)
Definition awaited (ev : event) : Prop :=
  match ev with EvSend _ true => True | _ => False end.

(** A command that, run with a send callback installed, does nothing but
    send: it fails neither for a missing callback nor for a packet size,
    changes at most the write semaphore of the printer object, and adds
    awaited calls of the send callback. *)
Definition send_only (m : M esp_err_t) : Prop :=
  ∀ w, send_callback_ (w_printer w) = true →
    (m w).1 ≠ ESP_ERR_INVALID_STATE ∧ (m w).1 ≠ ESP_ERR_INVALID_SIZE
    ∧ up_to_semaphore (w_printer w) (w_printer (m w).2)
    ∧ ∃ evs, w_sent (m w).2 = w_sent w ++ evs ∧ Forall awaited evs.

(** [scanned bs fs rest]: going through the bytes [bs] from the left,
    dropping some of them and taking the wire frames of [fs] out in order,
    leaves [rest]. *)
Inductive scanned : list Z → list (Z * list Z) → list Z → Prop :=
  | scanned_stop (bs : list Z) : scanned bs [] bs
  | scanned_drop (g bs : list Z) (fs : list (Z * list Z)) (rest : list Z) :
      scanned bs fs rest → scanned (g ++ bs) fs rest
  | scanned_frame (t : Z) (pl bs : list Z) (fs : list (Z * list Z)) (rest : list Z) :
      length pl ≤ 255 → scanned bs fs rest →
      scanned (wire_frame t pl ++ bs) ((t, pl) :: fs) rest.

(** ** The application (main.cc) *)

(** [enum class LedAnimation : uint8_t] of leds.h; its first enumerator,
    [None], is called [AnimNone] here. *)
Inductive LedAnimation : Type :=
  | AnimNone | Chase | Twinkle | Wave | BlinkAll | NumAnimations.

(** [static_cast<uint8_t>(anim)] *)
Definition animation_value (anim : LedAnimation) : Z :=
  match anim with
  | AnimNone => 0 | Chase => 1 | Twinkle => 2 | Wave => 3 | BlinkAll => 4
  | NumAnimations => 5
  end%Z.

Definition kNumRandomAnimations : Z := 3.

(** The calls that [app_main] makes on [Leds::Instance()]: the two
    overloads of [StartAnimation], and [Stop]. *)
Inductive leds_call : Type :=
  | LedsStartAnimation (anim : LedAnimation)
  | LedsStartAnimationId (animId : Z)
  | LedsStop.

(** The state of the application: [g_printer] in its world, and the calls
    made on the LEDs so far. *)
Record App : Type := MkApp {
  app_world : World;
  app_leds : list leds_call;
}.

(** [showError()] *)
Definition showError (a : App) : App :=
  MkApp (app_world a) (app_leds a ++ [LedsStartAnimation BlinkAll; LedsStop]).

(** [app_main] when it enters its loop: [g_printer] has been constructed
    and given its send callback; no ready callback is ever installed. *)
Definition app_start : App :=
  MkApp (MkWorld (SetSendCallback new_printer) [] 0) [].

(** What drives the application: the three callbacks that [app_main]
    registers with the BLE client -- data received, write complete,
    connected -- and a pass through the body of its [while (true)], where
    [touched] is what [Touch::Wait] returned, [random] the value of
    [esp_random()] and [sign] the image that [Signs::Next()] points to. *)
Inductive app_event : Type :=
  | DataReceived (data : list Z) (len : nat)
  | WriteCompleted
  | BleConnected
  | LoopPass (touched : bool) (random : Z) (sign : RleImage).

Section Application.

Variable write_completes : nat → bool.
Variable decode_rle_row_1bpp : RleImage → Z → list Z → nat → list Z.

(** The body of [while (true)] in [app_main]. *)
Definition loop_pass (touched : bool) (random : Z) (sign : RleImage) (a : App) : App :=
  let w := app_world a in
  if negb touched then
    if IsReady (w_printer w)
    then MkApp (GetPrintStatus write_completes w).2 (app_leds a)
    else a
  else if negb (IsReady (w_printer w)) then showError a
  else
    let animId := u8 (1 + random mod kNumRandomAnimations) in
    let leds := app_leds a ++ [LedsStartAnimationId animId] in
    let '(err, w) := Print write_completes decode_rle_row_1bpp sign w in
    if bool_decide (err ≠ ESP_OK) then showError (MkApp w leds)
    else MkApp w (leds ++ [LedsStop]).

(** One event, each taken as a whole.  The loop of [ProcessReceivedData]
    gets a budget of 506 passes, which is as good as any larger one. *)
Definition app_step (a : App) (e : app_event) : outcome App :=
  let w := app_world a in
  match e with
  | DataReceived data len =>
      match ProcessReceivedData 506 (w_printer w) data len with
      | Returns (p, _) => Returns (MkApp (MkWorld p (w_sent w) (w_waits w)) (app_leds a))
      | Undefined => Undefined
      | OutOfFuel => OutOfFuel
      end
  | WriteCompleted =>
      Returns (MkApp (MkWorld (OnWriteComplete (w_printer w)) (w_sent w) (w_waits w))
                     (app_leds a))
  | BleConnected => Returns (MkApp (SendHeartbeat write_completes w).2 (app_leds a))
  | LoopPass touched random sign => Returns (loop_pass touched random sign a)
  end.

Fixpoint app_run (a : App) (es : list app_event) : outcome App :=
  match es with
  | [] => Returns a
  | e :: es =>
      match app_step a e with
      | Returns a' => app_run a' es
      | o => o
      end
  end.

End Application.

(** A delivery that fits the receive array. *)
Definition fits_array (e : app_event) : Prop :=
  match e with
  | DataReceived _ len => len ≤ sizeof_packet_buf
  | _ => True
  end.

(** What [app_main] starts on the LEDs: by id one of the three regular
    animations, by name the error animation. *)
Definition regular_animation (c : leds_call) : Prop :=
  match c with
  | LedsStartAnimationId animId =>
      animId = animation_value Chase ∨ animId = animation_value Twinkle
      ∨ animId = animation_value Wave
  | LedsStartAnimation anim => anim = BlinkAll
  | LedsStop => True
  end.

(** ** The touch sensor (touch.cc) *)

Definition kPollingTimeout : Z := 10.

(** [int] and [size_t] are the 32-bit types of the target: the value of an
    [int] converted to [size_t], and of a [size_t] converted to [int]. *)
Definition to_size_t (x : Z) : Z := (x mod 2 ^ 32)%Z.
Definition to_int (x : Z) : Z := ((x + 2 ^ 31) mod 2 ^ 32 - 2 ^ 31)%Z.

(** What a call of [Touch::Wait] has done so far: the number of calls of
    [gpio_get_level(kTouchGpio)] and the number of polling delays
    [vTaskDelay(pdMS_TO_TICKS(kPollingTimeout))]. *)
Record touch_state : Type := MkTouch {
  t_reads : nat;
  t_polls : nat;
}.

(** How a polling loop of [Touch::Wait] ends: with [return false], or by
    its condition, with what is left of [max]. *)
Inductive poll_exit : Type :=
  | TimedOut
  | LoopLeft (max : Z).

Section TouchWait.

(** The level that the [k]-th call of [gpio_get_level(kTouchGpio)]
    returns. *)
Variable gpio_get_level : nat → Z.

(** [while ((gpio_get_level(kTouchGpio) == 0) == while_low) {
       vTaskDelay(pdMS_TO_TICKS(kPollingTimeout));
       if (--max <= 0) return false; }],
    at most [fuel] evaluations of the condition. *)
Fixpoint poll_loop (while_low : bool) (fuel : nat) (max : Z) (s : touch_state)
    : outcome (poll_exit * touch_state) :=
  match fuel with
  | 0 => OutOfFuel
  | S fuel =>
      let level := gpio_get_level (t_reads s) in
      let s := MkTouch (S (t_reads s)) (t_polls s) in
      if Bool.eqb (level =? 0)%Z while_low then
        let s := MkTouch (t_reads s) (S (t_polls s)) in
        let max := (max - 1)%Z in
        if (max <=? 0)%Z then Returns (TimedOut, s)
        else poll_loop while_low fuel max s
      else Returns (LoopLeft max, s)
  end.

(** [Touch::Wait(timeout_ms)], with at most [calls] nested calls of itself.
    The loops get as many evaluations of their condition as [max] allows. *)
Fixpoint Wait (calls : nat) (initialized_ : bool) (timeout_ms : Z) (s : touch_state)
    : outcome (bool * touch_state) :=
  if negb initialized_ then Returns (false, s)
  else
    match calls with
    | 0 => OutOfFuel
    | S calls =>
        let max := to_int (to_size_t timeout_ms / kPollingTimeout) in
        match poll_loop true (S (Z.to_nat max)) max s with
        | Returns (TimedOut, s) => Returns (false, s)
        | Returns (LoopLeft max, s) =>
            match poll_loop false (S (Z.to_nat max)) max s with
            | Returns (TimedOut, s) => Returns (false, s)
            | Returns (LoopLeft _, s) =>
                let level := gpio_get_level (t_reads s) in
                let s := MkTouch (S (t_reads s)) (t_polls s) in
                if negb (level =? 0)%Z then Wait calls initialized_ timeout_ms s
                else Returns (true, s)
            | Undefined => Undefined
            | OutOfFuel => OutOfFuel
            end
        | Undefined => Undefined
        | OutOfFuel => OutOfFuel
        end
    end.

End TouchWait.

(** The number of polling delays that [Touch::Wait(timeout_ms)] allows
    itself: [timeout_ms / 10], and one at least. *)
Definition poll_budget (timeout_ms : Z) : nat := Z.to_nat (Z.max 1 (timeout_ms / 10)).

(** A line that bounces each time: released, touched, and released again
    when the debounce delay is over. *)
Definition bouncing (k : nat) : Z := if k mod 3 =? 1 then 0%Z else 1%Z.

(** ** The BLE client (ble.cc) *)

(** Values of the ESP-IDF headers that the code refers to by name. *)
Definition ESP_GATT_IF_NONE : Z := 0xff.
Definition ESP_UUID_LEN_16 : Z := 2.
Definition ESP_UUID_LEN_128 : Z := 16.
Definition ESP_BD_ADDR_LEN : nat := 6.
Definition ESP_GATT_UUID_CHAR_CLIENT_CONFIG : Z := 0x2902.
Definition ESP_GATT_CHAR_PROP_BIT_NOTIFY : Z := 0x10.

Definition kProfileNum : Z := 1.
Definition kProfileAppId : Z := 0.
Definition kInvalidHandle : Z := 0.

Definition kServiceUuid : list Z :=
  [0xf2; 0xc3; 0xf0; 0xae; 0xa9; 0xfa; 0x15; 0x8c;
   0x9d; 0x49; 0xae; 0x73; 0x71; 0x0a; 0x81; 0xe7]%Z.

Definition kCharacteristicUuid : list Z :=
  [0x9f; 0x9f; 0x00; 0xc1; 0x58; 0xbd; 0x32; 0xb6;
   0x9e; 0x4c; 0x21; 0x9c; 0xc9; 0xd6; 0xf8; 0xbe]%Z.

(** [memcmp(a, b, n) == 0] *)
Definition memcmp_eq (a b : list Z) (n : nat) : bool :=
  bool_decide (take n a = take n b).

(** [esp_bt_uuid_t]: the length and the bytes of the union; [uuid16] is
    the 16-bit member, which the little-endian target reads from the first
    two bytes. *)
Record esp_bt_uuid_t : Type := MkUuid {
  uuid_len : Z;
  uuid128 : list Z;
}.

Definition uuid16 (u : esp_bt_uuid_t) : Z := ((uuid128 u).[0] + 256 * (uuid128 u).[1])%Z.

(** The members of [esp_gattc_char_elem_t] and [esp_gattc_descr_elem_t]
    that the code reads. *)
Record esp_gattc_char_elem_t : Type := MkCharElem {
  elem_char_handle : Z;
  elem_properties : Z;
  elem_uuid : esp_bt_uuid_t;
}.

Record esp_gattc_descr_elem_t : Type := MkDescrElem {
  descr_handle : Z;
  descr_uuid : esp_bt_uuid_t;
}.

(** [struct GattcProfile]; of [callback] only whether it is set. *)
Record GattcProfile : Type := MkGattcProfile {
  callback : bool;
  gattc_if : Z;
  app_id : Z;
  conn_id : Z;
  service_start_handle : Z;
  service_end_handle : Z;
  char_handle : Z;
  remote_bda : list Z;
}.

(** The data members of [class BLEClient]; [profiles_] has the one
    element [profiles_[kProfileAppId]]. *)
Record BLEClient : Type := MkBLEClient {
  data_received_callback_ : bool;
  write_complete_callback_ : bool;
  connected_callback_ : bool;
  profiles_ : GattcProfile;
  target_bda_ : list Z;
  service_uuid_ : esp_bt_uuid_t;
  connected_ : bool;
  has_service_ : bool;
  gattc_if_ : Z;
}.

Definition with_profile (c : BLEClient) (pf : GattcProfile) : BLEClient :=
  MkBLEClient (data_received_callback_ c) (write_complete_callback_ c)
    (connected_callback_ c) pf (target_bda_ c) (service_uuid_ c)
    (connected_ c) (has_service_ c) (gattc_if_ c).

Definition with_connected (c : BLEClient) (b : bool) : BLEClient :=
  MkBLEClient (data_received_callback_ c) (write_complete_callback_ c)
    (connected_callback_ c) (profiles_ c) (target_bda_ c) (service_uuid_ c)
    b (has_service_ c) (gattc_if_ c).

Definition with_has_service (c : BLEClient) (b : bool) : BLEClient :=
  MkBLEClient (data_received_callback_ c) (write_complete_callback_ c)
    (connected_callback_ c) (profiles_ c) (target_bda_ c) (service_uuid_ c)
    (connected_ c) b (gattc_if_ c).

Definition with_gattc_if (c : BLEClient) (g : Z) : BLEClient :=
  MkBLEClient (data_received_callback_ c) (write_complete_callback_ c)
    (connected_callback_ c) (profiles_ c) (target_bda_ c) (service_uuid_ c)
    (connected_ c) (has_service_ c) g.

(** A [BLEClient] as its in-class initialisers leave it. *)
Definition new_client : BLEClient :=
  MkBLEClient false false false
    (MkGattcProfile false 0 0 0 0 0 0 (replicate ESP_BD_ADDR_LEN 0%Z))
    (replicate ESP_BD_ADDR_LEN 0%Z) (MkUuid 0 (replicate 16 0%Z))
    false false ESP_GATT_IF_NONE.

Definition SetDataReceivedCallback (c : BLEClient) : BLEClient :=
  MkBLEClient true (write_complete_callback_ c) (connected_callback_ c) (profiles_ c)
    (target_bda_ c) (service_uuid_ c) (connected_ c) (has_service_ c) (gattc_if_ c).

Definition SetWriteCompleteCallback (c : BLEClient) : BLEClient :=
  MkBLEClient (data_received_callback_ c) true (connected_callback_ c) (profiles_ c)
    (target_bda_ c) (service_uuid_ c) (connected_ c) (has_service_ c) (gattc_if_ c).

Definition SetConnectedCallback (c : BLEClient) : BLEClient :=
  MkBLEClient (data_received_callback_ c) (write_complete_callback_ c) true (profiles_ c)
    (target_bda_ c) (service_uuid_ c) (connected_ c) (has_service_ c) (gattc_if_ c).

(** The members after [BLEClient::Initialize] has returned [ESP_OK]:
    [bda] is the address parsed from [CONFIG_PRNM_PRINTER_BDA]. *)
Definition Initialize (c : BLEClient) (bda : list Z) : BLEClient :=
  MkBLEClient (data_received_callback_ c) (write_complete_callback_ c)
    (connected_callback_ c)
    (MkGattcProfile true ESP_GATT_IF_NONE kProfileAppId 0 0 0 0
       (replicate ESP_BD_ADDR_LEN 0%Z))
    bda (MkUuid ESP_UUID_LEN_128 kServiceUuid)
    (connected_ c) (has_service_ c) (gattc_if_ c).

(** [esp_gatt_db_attr_type_t], as far as it is used. *)
Inductive esp_gatt_db_attr_type_t : Type :=
  | ESP_GATT_DB_CHARACTERISTIC
  | ESP_GATT_DB_DESCRIPTOR.

(** What the client does to its surroundings: the calls into the ESP-IDF
    stack, with the arguments that depend on the client or on the event,
    and the calls of its three callbacks. *)
Inductive ble_call : Type :=
  | esp_ble_gap_set_scan_params
  | esp_ble_gap_start_scanning (duration : Z)
  | esp_ble_gap_stop_scanning
  | esp_ble_oob_req_reply (bd_addr tk : list Z)
  | esp_ble_gap_security_rsp (bd_addr : list Z) (accept : bool)
  | esp_ble_confirm_reply (bd_addr : list Z) (accept : bool)
  | esp_ble_gattc_enh_open (gattc_if : Z) (remote_bda : list Z) (remote_addr_type : Z)
  | esp_ble_gap_config_local_privacy (privacy_enable : bool)
  | esp_ble_gattc_send_mtu_req (gattc_if conn_id : Z)
  | esp_ble_gattc_search_service (gattc_if conn_id : Z) (filter_uuid : esp_bt_uuid_t)
  | esp_ble_gattc_get_attr_count (gattc_if conn_id : Z) (type : esp_gatt_db_attr_type_t)
      (start_handle end_handle char_handle : Z)
  | esp_ble_gattc_get_all_char (gattc_if conn_id start_handle end_handle : Z)
  | esp_ble_gattc_register_for_notify (gattc_if : Z) (server_bda : list Z) (handle : Z)
  | esp_ble_gattc_get_all_descr (gattc_if conn_id char_handle : Z)
  | esp_ble_gattc_write_char_descr (gattc_if conn_id handle : Z) (value : list Z)
  | esp_ble_gattc_write_char (gattc_if conn_id handle : Z) (value_len : nat)
      (value : list Z) (with_response : bool)
  | data_received_callback (data : list Z) (len : nat)
  | write_complete_callback
  | connected_callback.

(** [BLEClient::SendData(data, len, wait_for_response)] *)
Definition SendData (c : BLEClient) (data : list Z) (len : nat) (wait_for_response : bool)
    : list ble_call :=
  let profile := profiles_ c in
  if (char_handle profile =? kInvalidHandle)%Z then []
  else [esp_ble_gattc_write_char (gattc_if_ c) (conn_id profile) (char_handle profile)
          len data wait_for_response].

(** The GAP events with the members of [esp_ble_gap_cb_param_t] that the
    code reads: [success] for [status == ESP_BT_STATUS_SUCCESS], [inq_res]
    for [search_evt == ESP_GAP_SEARCH_INQ_RES_EVT]. *)
Inductive gap_event : Type :=
  | ESP_GAP_BLE_SET_LOCAL_PRIVACY_COMPLETE_EVT (success : bool)
  | ESP_GAP_BLE_SCAN_PARAM_SET_COMPLETE_EVT
  | ESP_GAP_BLE_SCAN_START_COMPLETE_EVT (success : bool)
  | ESP_GAP_BLE_PASSKEY_REQ_EVT
  | ESP_GAP_BLE_OOB_REQ_EVT (bd_addr : list Z)
  | ESP_GAP_BLE_LOCAL_IR_EVT
  | ESP_GAP_BLE_LOCAL_ER_EVT
  | ESP_GAP_BLE_SEC_REQ_EVT (bd_addr : list Z)
  | ESP_GAP_BLE_NC_REQ_EVT (bd_addr : list Z)
  | ESP_GAP_BLE_PASSKEY_NOTIF_EVT
  | ESP_GAP_BLE_KEY_EVT
  | ESP_GAP_BLE_AUTH_CMPL_EVT
  | ESP_GAP_BLE_SCAN_RESULT_EVT (inq_res : bool) (bda : list Z) (ble_addr_type : Z)
  | ESP_GAP_BLE_SCAN_STOP_COMPLETE_EVT (success : bool)
  | gap_event_other.

(** [BLEClient::HandleGapEvent(event, param)], which [GapCallback] calls on
    the instance. *)
Definition HandleGapEvent (c : BLEClient) (event : gap_event) : BLEClient * list ble_call :=
  match event with
  | ESP_GAP_BLE_SET_LOCAL_PRIVACY_COMPLETE_EVT success =>
      if negb success then (c, []) else (c, [esp_ble_gap_set_scan_params])
  | ESP_GAP_BLE_SCAN_PARAM_SET_COMPLETE_EVT => (c, [esp_ble_gap_start_scanning 30])
  | ESP_GAP_BLE_OOB_REQ_EVT bd_addr =>
      (c, [esp_ble_oob_req_reply bd_addr (1%Z :: replicate 15 0%Z)])
  | ESP_GAP_BLE_SEC_REQ_EVT bd_addr => (c, [esp_ble_gap_security_rsp bd_addr true])
  | ESP_GAP_BLE_NC_REQ_EVT bd_addr => (c, [esp_ble_confirm_reply bd_addr true])
  | ESP_GAP_BLE_SCAN_RESULT_EVT inq_res bda ble_addr_type =>
      if inq_res then
        if connected_ c then (c, [])
        else if negb (memcmp_eq bda (target_bda_ c) ESP_BD_ADDR_LEN) then (c, [])
        else
          (with_connected c true,
           [esp_ble_gap_stop_scanning;
            esp_ble_gattc_enh_open (gattc_if (profiles_ c)) (take ESP_BD_ADDR_LEN bda)
              ble_addr_type])
      else (c, [])
  | ESP_GAP_BLE_SCAN_START_COMPLETE_EVT _
  | ESP_GAP_BLE_PASSKEY_REQ_EVT
  | ESP_GAP_BLE_LOCAL_IR_EVT
  | ESP_GAP_BLE_LOCAL_ER_EVT
  | ESP_GAP_BLE_PASSKEY_NOTIF_EVT
  | ESP_GAP_BLE_KEY_EVT
  | ESP_GAP_BLE_AUTH_CMPL_EVT
  | ESP_GAP_BLE_SCAN_STOP_COMPLETE_EVT _
  | gap_event_other => (c, [])
  end.

(** The GATT client events with the members of [esp_ble_gattc_cb_param_t]
    that the code reads ([ok] for [status == ESP_GATT_OK]).  The two events
    on which the handler queries the attribute database carry what the
    queries give: [count], set by [esp_ble_gattc_get_attr_count]; whether
    [malloc] gave memory; and the elements that [esp_ble_gattc_get_all_char]
    or [esp_ble_gattc_get_all_descr] stored, as many as the [count] that
    call leaves. *)
Inductive gattc_event : Type :=
  | ESP_GATTC_REG_EVT (ok : bool) (reg_app_id : Z)
  | ESP_GATTC_CONNECT_EVT
  | ESP_GATTC_OPEN_EVT (ok : bool) (open_conn_id : Z) (open_remote_bda : list Z)
  | ESP_GATTC_CFG_MTU_EVT (mtu_conn_id : Z)
  | ESP_GATTC_SEARCH_RES_EVT (srvc_uuid : esp_bt_uuid_t) (start_handle end_handle : Z)
  | ESP_GATTC_SEARCH_CMPL_EVT (ok : bool) (count : Z) (malloc_ok : bool)
      (chars : list esp_gattc_char_elem_t)
  | ESP_GATTC_REG_FOR_NOTIFY_EVT (ok : bool) (handle : Z) (count : Z) (malloc_ok : bool)
      (descs : list esp_gattc_descr_elem_t)
  | ESP_GATTC_NOTIFY_EVT (value : list Z) (value_len : nat)
  | ESP_GATTC_WRITE_DESCR_EVT (ok : bool)
  | ESP_GATTC_WRITE_CHAR_EVT (ok : bool)
  | ESP_GATTC_SRVC_CHG_EVT
  | ESP_GATTC_DISCONNECT_EVT
  | gattc_event_other.

(** The tests of the two search loops. *)
Definition is_niimbot_characteristic (e : esp_gattc_char_elem_t) : bool :=
  (uuid_len (elem_uuid e) =? ESP_UUID_LEN_128)%Z
  && memcmp_eq (uuid128 (elem_uuid e)) kCharacteristicUuid 16.

Definition is_client_config (d : esp_gattc_descr_elem_t) : bool :=
  (uuid_len (descr_uuid d) =? ESP_UUID_LEN_16)%Z
  && (uuid16 (descr_uuid d) =? ESP_GATT_UUID_CHAR_CLIENT_CONFIG)%Z.

Definition with_conn (pf : GattcProfile) (id : Z) (bda : list Z) : GattcProfile :=
  MkGattcProfile (callback pf) (gattc_if pf) (app_id pf) id
    (service_start_handle pf) (service_end_handle pf) (char_handle pf) bda.

Definition with_service_handles (pf : GattcProfile) (first last : Z) : GattcProfile :=
  MkGattcProfile (callback pf) (gattc_if pf) (app_id pf) (conn_id pf)
    first last (char_handle pf) (remote_bda pf).

Definition with_char_handle (pf : GattcProfile) (h : Z) : GattcProfile :=
  MkGattcProfile (callback pf) (gattc_if pf) (app_id pf) (conn_id pf)
    (service_start_handle pf) (service_end_handle pf) h (remote_bda pf).

Definition with_profile_if (pf : GattcProfile) (g : Z) : GattcProfile :=
  MkGattcProfile (callback pf) g (app_id pf) (conn_id pf)
    (service_start_handle pf) (service_end_handle pf) (char_handle pf) (remote_bda pf).

(** [BLEClient::HandleGattcEvent(event, gattc_if, param)], which
    [GattcProfileHandler] calls on the instance; the parameter [gattc_if]
    is called [event_if] here. *)
Definition HandleGattcEvent (c : BLEClient) (event : gattc_event) (event_if : Z)
    : BLEClient * list ble_call :=
  let profile := profiles_ c in
  match event with
  | ESP_GATTC_REG_EVT _ _ => (c, [esp_ble_gap_config_local_privacy true])
  | ESP_GATTC_CONNECT_EVT => (c, [])
  | ESP_GATTC_OPEN_EVT ok open_conn_id open_remote_bda =>
      if negb ok then (with_connected c false, [esp_ble_gap_start_scanning 0])
      else
        (with_profile c
           (with_conn profile open_conn_id (take ESP_BD_ADDR_LEN open_remote_bda)),
         [esp_ble_gattc_send_mtu_req event_if open_conn_id])
  | ESP_GATTC_CFG_MTU_EVT mtu_conn_id =>
      (c, [esp_ble_gattc_search_service event_if mtu_conn_id (service_uuid_ c)])
  | ESP_GATTC_SEARCH_RES_EVT srvc_uuid start_handle end_handle =>
      if (uuid_len srvc_uuid =? ESP_UUID_LEN_128)%Z
         && memcmp_eq (uuid128 srvc_uuid) kServiceUuid 16
      then
        (with_profile (with_has_service c true)
           (with_service_handles profile start_handle end_handle), [])
      else (c, [])
  | ESP_GATTC_SEARCH_CMPL_EVT ok count malloc_ok chars =>
      if negb ok then (c, [])
      else if negb (has_service_ c) then (c, [])
      else
        let get_count :=
          esp_ble_gattc_get_attr_count event_if (conn_id profile)
            ESP_GATT_DB_CHARACTERISTIC
            (service_start_handle profile) (service_end_handle profile) kInvalidHandle in
        if (count =? 0)%Z then (c, [get_count])
        else if negb malloc_ok then (c, [get_count])
        else
          let get_all :=
            esp_ble_gattc_get_all_char event_if (conn_id profile)
              (service_start_handle profile) (service_end_handle profile) in
          match find is_niimbot_characteristic chars with
          | Some e =>
              (with_profile c (with_char_handle profile (elem_char_handle e)),
               [get_count; get_all]
               ++ (if negb (Z.land (elem_properties e) ESP_GATT_CHAR_PROP_BIT_NOTIFY =? 0)%Z
                   then [esp_ble_gattc_register_for_notify event_if (remote_bda profile)
                           (elem_char_handle e)]
                   else []))
          | None => (c, [get_count; get_all])
          end
  | ESP_GATTC_REG_FOR_NOTIFY_EVT ok handle count malloc_ok descs =>
      if negb ok then (c, [])
      else
        let get_count :=
          esp_ble_gattc_get_attr_count event_if (conn_id profile) ESP_GATT_DB_DESCRIPTOR
            (service_start_handle profile) (service_end_handle profile) handle in
        if (0 <? count)%Z then
          if malloc_ok then
            let get_all := esp_ble_gattc_get_all_descr event_if (conn_id profile) handle in
            match find is_client_config descs with
            | Some d =>
                (c, [get_count; get_all;
                     esp_ble_gattc_write_char_descr event_if (conn_id profile)
                       (descr_handle d) [0x01; 0x00]%Z])
            | None => (c, [get_count; get_all])
            end
          else (c, [get_count])
        else (c, [get_count])
  | ESP_GATTC_NOTIFY_EVT value value_len =>
      (c, if data_received_callback_ c then [data_received_callback value value_len] else [])
  | ESP_GATTC_WRITE_DESCR_EVT ok =>
      if negb ok then (c, [])
      else (with_gattc_if c event_if,
            if connected_callback_ c then [connected_callback] else [])
  | ESP_GATTC_WRITE_CHAR_EVT _ =>
      (c, if write_complete_callback_ c then [write_complete_callback] else [])
  | ESP_GATTC_SRVC_CHG_EVT => (c, [])
  | ESP_GATTC_DISCONNECT_EVT =>
      let c := with_connected c false in
      let c := with_has_service c false in
      let c := with_gattc_if c ESP_GATT_IF_NONE in
      let c := with_profile c
                 (with_char_handle (with_service_handles (profiles_ c) 0 0) 0) in
      (c, [esp_ble_gap_start_scanning 0])
  | gattc_event_other => (c, [])
  end.

(** [BLEClient::GattcCallback(event, gattc_if, param)].  A registration
    with an [app_id] outside [profiles_] stores past the array: the
    embedding stops there with [Undefined]. *)
Definition GattcCallback (c : BLEClient) (event : gattc_event) (event_if : Z)
    : outcome (BLEClient * list ble_call) :=
  let dispatch (c : BLEClient) :=
    if (event_if =? ESP_GATT_IF_NONE)%Z || (event_if =? gattc_if (profiles_ c))%Z
    then
      if callback (profiles_ c) then Returns (HandleGattcEvent c event event_if)
      else Returns (c, [])
    else Returns (c, []) in
  match event with
  | ESP_GATTC_REG_EVT ok reg_app_id =>
      if negb ok then Returns (c, [])
      else if (0 <=? reg_app_id)%Z && (reg_app_id <? kProfileNum)%Z
      then dispatch (with_profile c (with_profile_if (profiles_ c) event_if))
      else Undefined
  | _ => dispatch c
  end.

(** The two callbacks registered with the stack. *)
Inductive ble_event : Type :=
  | GapEvent (event : gap_event)
  | GattcEvent (event : gattc_event) (event_if : Z).

Definition ble_step (c : BLEClient) (e : ble_event) : outcome (BLEClient * list ble_call) :=
  match e with
  | GapEvent event => Returns (HandleGapEvent c event)
  | GattcEvent event event_if => GattcCallback c event event_if
  end.

(** The events [es] one after the other, with all the calls made. *)
Fixpoint ble_run (c : BLEClient) (es : list ble_event)
    : outcome (BLEClient * list ble_call) :=
  match es with
  | [] => Returns (c, [])
  | e :: es =>
      match ble_step c e with
      | Returns (c1, calls) =>
          match ble_run c1 es with
          | Returns (c2, calls') => Returns (c2, calls ++ calls')
          | o => o
          end
      | o => o
      end
  end.

(** The client as [app_main] leaves it before its loop: the three
    callbacks set, then [Initialize] with the printer's address. *)
Definition ble_start (bda : list Z) : BLEClient :=
  Initialize
    (SetConnectedCallback (SetWriteCompleteCallback (SetDataReceivedCallback new_client)))
    bda.

(** A registration event names a profile that exists. *)
Definition registers_in_range (e : ble_event) : Prop :=
  match e with
  | GattcEvent (ESP_GATTC_REG_EVT true reg_app_id) _ => (0 ≤ reg_app_id < kProfileNum)%Z
  | _ => True
  end.

(** Counting calls of [esp_ble_gattc_enh_open], and the events that undo
    a connection attempt: a failed open and a disconnect. *)
Definition is_open (call : ble_call) : bool :=
  match call with esp_ble_gattc_enh_open _ _ _ => true | _ => false end.

Definition ends_connection (e : ble_event) : bool :=
  match e with
  | GattcEvent (ESP_GATTC_OPEN_EVT false _ _) _ => true
  | GattcEvent ESP_GATTC_DISCONNECT_EVT _ => true
  | _ => false
  end.

Definition is_search_complete (e : ble_event) : bool :=
  match e with
  | GattcEvent (ESP_GATTC_SEARCH_CMPL_EVT _ _ _ _) _ => true
  | _ => false
  end.

Definition is_write_char (call : ble_call) : bool :=
  match call with esp_ble_gattc_write_char _ _ _ _ _ _ => true | _ => false end.

Definition opens (calls : list ble_call) : nat := length (List.filter is_open calls).

Definition ended (es : list ble_event) : nat := length (List.filter ends_connection es).

(** The client at its start, or right after it has handled a disconnect. *)
Definition disconnected (c0 : BLEClient) : Prop :=
  (∃ bda, c0 = ble_start bda)
  ∨ ∃ c event_if, c0 = (HandleGattcEvent c ESP_GATTC_DISCONNECT_EVT event_if).1.

(** The address that a connection is opened to. *)
Definition opens_to (bda : list Z) (call : ble_call) : Prop :=
  match call with
  | esp_ble_gattc_enh_open _ remote _ => remote = take ESP_BD_ADDR_LEN bda
  | _ => True
  end.

(* ================================================================== *)
(** * Part II: properties *)
(* ================================================================== *)

(** ** Arrays and loops *)

Lemma for_range_S {S : Type} (n : nat) (body : nat → S → S) (s : S) :
  for_range (Datatypes.S n) body s = body n (for_range n body s).
Proof.
  unfold for_range. rewrite seq_S, fold_left_app. reflexivity.
Qed.

Lemma rd_cons_0 (x : Z) (l : list Z) : (x :: l).[0] = x.
Proof. reflexivity. Qed.

Lemma rd_cons_S (x : Z) (l : list Z) (i : nat) : (x :: l).[S i] = l.[i].
Proof. reflexivity. Qed.

Lemma rd_app_l (l1 l2 : list Z) (i : nat) :
  i < length l1 → (l1 ++ l2).[i] = l1.[i].
Proof. intros H. unfold rd. by rewrite lookup_app_l. Qed.

Lemma rd_app_r (l1 l2 : list Z) (i : nat) :
  (l1 ++ l2).[length l1 + i] = l2.[i].
Proof.
  unfold rd. rewrite lookup_app_r by lia.
  by replace (length l1 + i - length l1) with i by lia.
Qed.

Lemma rd_app_r' (l1 l2 : list Z) (i : nat) :
  length l1 ≤ i → (l1 ++ l2).[i] = l2.[i - length l1].
Proof.
  intros H. replace i with (length l1 + (i - length l1)) at 1 by lia.
  apply rd_app_r.
Qed.

Lemma rd_take (l : list Z) (n i : nat) : i < n → (take n l).[i] = l.[i].
Proof. intros H. unfold rd. by rewrite lookup_take_lt. Qed.

Lemma rd_drop (l : list Z) (n i : nat) : (drop n l).[i] = l.[n + i].
Proof. unfold rd. by rewrite lookup_drop. Qed.

(** The bytes [l[off], ..., l[off + n - 1]] read one by one. *)
Lemma map_rd_seq (l : list Z) (off n : nat) :
  off + n ≤ length l →
  map (λ i, l.[off + i]) (seq 0 n) = take n (drop off l).
Proof.
  intros H. apply list_eq. intros i.
  destruct (decide (i < n)) as [Hi|Hi].
  - rewrite list_lookup_fmap, lookup_seq_lt by done. simpl.
    rewrite lookup_take_lt, lookup_drop by done. unfold rd.
    destruct (lookup_lt_is_Some_2 l (off + i)) as [x Hx]; [lia|].
    by rewrite Hx.
  - rewrite lookup_take_ge by lia.
    apply lookup_ge_None_2. rewrite length_map, length_seq. lia.
Qed.

(** The copy-and-checksum loop shared by [BuildPacket] and [ParsePacket]:
    it stores the bytes [g 0 .. g (n-1)] from offset [d] on and folds them
    into the checksum. *)
Lemma copy_loop (g : nat → Z) (d n : nat) (dst : list Z) (ck : Z) :
  for_range n (λ i '(buf, c), (<[d + i := g i]> buf, Z.lxor c (g i))) (dst, ck)
  = (list_inserts d (map g (seq 0 n)) dst, fold_left Z.lxor (map g (seq 0 n)) ck).
Proof.
  induction n as [|n IH]; [reflexivity|].
  rewrite for_range_S, IH, seq_S, map_app, fold_left_app. simpl.
  f_equal. rewrite list_inserts_app_l, length_map, length_seq. simpl.
  by rewrite (Nat.add_comm n d).
Qed.

Lemma memcpy_length (dst src : list Z) (d s n : nat) :
  length (memcpy dst d src s n) = length dst.
Proof. unfold memcpy. apply length_inserts. Qed.

(** Storing [k] at the front of an array leaves the rest in place. *)
Lemma list_inserts_0_prefix (k l : list Z) :
  length k ≤ length l → list_inserts 0 k l = k ++ drop (length k) l.
Proof.
  intros H. rewrite <- (take_drop (length k) l) at 1.
  apply list_inserts_0_r. rewrite length_take. lia.
Qed.

Lemma list_inserts_at (k l1 l2 : list Z) :
  length k ≤ length l2 →
  list_inserts (length l1) k (l1 ++ l2) = l1 ++ k ++ drop (length k) l2.
Proof.
  intros H. replace (length l1) with (length l1 + 0) by lia.
  rewrite list_inserts_app_r. f_equal. by apply list_inserts_0_prefix.
Qed.

(** ** The frame codec *)

Lemma u8_small (n : nat) : n ≤ 255 → u8 (Z.of_nat n) = Z.of_nat n.
Proof. intros H. unfold u8. apply Z.mod_small. lia. Qed.

Lemma u8_byte (z : Z) : is_byte z → u8 z = z.
Proof. intros H. unfold u8. apply Z.mod_small. exact H. Qed.

(** The three stores behind the payload: checksum and end markers. *)
Lemma insert_trailer (pl r : list Z) (c0 c1 c2 x y z : Z) :
  <[S (S (length pl)) := z]>
    (<[S (length pl) := y]> (<[length pl := x]> (pl ++ c0 :: c1 :: c2 :: r)))
  = pl ++ x :: y :: z :: r.
Proof. induction pl as [|a pl IH]; [reflexivity|]. simpl. by rewrite IH. Qed.

(** [BuildPacket] stores the wire frame at the front of [buf] and leaves
    the bytes behind it alone. *)
Lemma BuildPacket_layout (buf : list Z) (buf_size : nat) (type : Z)
    (data : list Z) (data_len : nat) :
  data_len + 7 ≤ buf_size → buf_size ≤ length buf →
  data_len ≤ length data → data_len ≤ 255 →
  BuildPacket buf buf_size type data data_len
  = (wire_frame type (take data_len data) ++ drop (data_len + 7) buf, data_len + 7).
Proof.
  intros Hsz Hbuf Hdata H255. unfold BuildPacket.
  destruct (Nat.ltb_spec buf_size (data_len + 7)) as [?|_]; [lia|].
  pose proof (copy_loop (λ i, data.[i]) 4 data_len) as Hloop. simpl in Hloop.
  rewrite Hloop. clear Hloop.
  pose proof (map_rd_seq data 0 data_len Hdata) as Hmap. simpl in Hmap.
  rewrite Hmap. clear Hmap. change (drop 0 data) with data.
  rewrite u8_small by done.
  set (pl := take data_len data).
  assert (Hpl : length pl = data_len) by (unfold pl; rewrite length_take; lia).
  clearbody pl. subst data_len.
  destruct buf as [|b0 [|b1 [|b2 [|b3 rest]]]]; simpl in Hbuf; try lia.
  cbn [insert list_insert].
  rewrite !list_inserts_cons, list_inserts_0_prefix by lia.
  replace (length pl + 7) with (4 + (length pl + 3)) by lia.
  cbn [drop Nat.add]. rewrite <- (drop_drop rest 3 (length pl)).
  assert (Hr : 3 ≤ length (drop (length pl) rest)) by (rewrite length_drop; lia).
  destruct (drop (length pl) rest) as [|c0 [|c1 [|c2 r]]]; simpl in Hr; try lia.
  cbn [insert list_insert]. rewrite insert_trailer.
  unfold wire_frame, xor_fold. simpl. rewrite <- !app_assoc. reflexivity.
Qed.

Lemma rd_app_len0 (pl r : list Z) (x : Z) : (pl ++ x :: r).[length pl] = x.
Proof. rewrite <- (Nat.add_0_r (length pl)). by rewrite rd_app_r. Qed.

Lemma rd_app_len1 (pl r : list Z) (x y : Z) : (pl ++ x :: y :: r).[S (length pl)] = y.
Proof. replace (S (length pl)) with (length pl + 1) by lia. by rewrite rd_app_r. Qed.

Lemma rd_app_len2 (pl r : list Z) (x y z : Z) :
  (pl ++ x :: y :: z :: r).[S (S (length pl))] = z.
Proof. replace (S (S (length pl))) with (length pl + 2) by lia. by rewrite rd_app_r. Qed.

Lemma map_rd_seq0 (l : list Z) (n : nat) :
  n ≤ length l → map (λ i, l.[i]) (seq 0 n) = take n l.
Proof. intros H. exact (map_rd_seq l 0 n H). Qed.

(** [ParsePacket] on an array that has its four header bytes, read off in
    terms of the bytes [body] behind the header. *)
Lemma ParsePacket_header (s1 s2 t l : Z) (body : list Z) (len : nat)
    (t0 : Z) (d0 : list Z) (l0 : nat) :
  ParsePacket (s1 :: s2 :: t :: l :: body) len t0 d0 l0 =
  let n := Z.to_nat l in
  let seen := map (λ i, body.[i]) (seq 0 n) in
  if len <? 7 then Parsed ExitTooShort t0 d0 l0
  else if negb (s1 =? 0x55)%Z || negb (s2 =? 0x55)%Z then Parsed ExitBadStart t0 d0 l0
  else if len <? n + 7 then Parsed ExitIncomplete t d0 l0
  else if negb (body.[S n] =? 0xAA)%Z || negb (body.[S (S n)] =? 0xAA)%Z
  then Parsed ExitBadEnd t d0 l0
  else if negb (fold_left Z.lxor seen (Z.lxor t (u8 (Z.of_nat n))) =? body.[n])%Z
  then Parsed ExitChecksumMismatch t (list_inserts 0 seen d0) l0
  else Parsed ExitOk t (list_inserts 0 seen d0) n.
Proof.
  unfold ParsePacket.
  rewrite (copy_loop (λ i, (s1 :: s2 :: t :: l :: body).[4 + i]) 0).
  reflexivity.
Qed.

(** Parsing an array that starts with a wire frame succeeds and hands back
    its type and payload, whatever follows the frame in the array. *)
Lemma ParsePacket_frame (t : Z) (pl rest : list Z) (len : nat)
    (t0 : Z) (d0 : list Z) (l0 : nat) :
  length pl ≤ 255 → length pl + 7 ≤ len → length pl ≤ length d0 →
  ParsePacket (wire_frame t pl ++ rest) len t0 d0 l0
  = Parsed ExitOk t (pl ++ drop (length pl) d0) (length pl).
Proof.
  intros H255 Hlen Hd0. unfold wire_frame. cbn [app].
  rewrite ParsePacket_header. cbv zeta. rewrite Nat2Z.id.
  destruct (Nat.ltb_spec len 7) as [?|_]; [lia|].
  destruct (Nat.ltb_spec len (length pl + 7)) as [?|_]; [lia|].
  rewrite <- !app_assoc. cbn [app].
  rewrite rd_app_len0, rd_app_len1, rd_app_len2.
  rewrite map_rd_seq0 by (rewrite length_app; lia).
  rewrite take_app_length, u8_small by done.
  unfold xor_fold. rewrite !Z.eqb_refl. simpl.
  by rewrite list_inserts_0_prefix.
Qed.

(** The same array with a wrong checksum byte leaves through the
    checksum-mismatch exit. *)
Lemma ParsePacket_bad_checksum (t c : Z) (pl rest : list Z) (len : nat)
    (t0 : Z) (d0 : list Z) (l0 : nat) :
  length pl ≤ 255 → length pl + 7 ≤ len →
  c ≠ xor_fold t (Z.of_nat (length pl)) pl →
  p_exit (ParsePacket ([0x55; 0x55; t; Z.of_nat (length pl)]%Z ++ pl
                         ++ [c; 0xAA; 0xAA]%Z ++ rest) len t0 d0 l0)
  = ExitChecksumMismatch.
Proof.
  intros H255 Hlen Hc. cbn [app].
  rewrite ParsePacket_header. cbv zeta. rewrite Nat2Z.id.
  destruct (Nat.ltb_spec len 7) as [?|_]; [lia|].
  destruct (Nat.ltb_spec len (length pl + 7)) as [?|_]; [lia|].
  rewrite rd_app_len0, rd_app_len1, rd_app_len2.
  rewrite map_rd_seq0 by (rewrite length_app; lia).
  rewrite take_app_length, u8_small by done.
  fold (xor_fold t (Z.of_nat (length pl)) pl).
  destruct (Z.eqb_spec (xor_fold t (Z.of_nat (length pl)) pl) c) as [E|_]; [by subst|].
  reflexivity.
Qed.

(** A call is incomplete when the start markers are in place and the
    declared length reaches beyond [len]. *)
Lemma ParsePacket_incomplete (t l : Z) (body : list Z) (len : nat)
    (t0 : Z) (d0 : list Z) (l0 : nat) :
  7 ≤ len → len < Z.to_nat l + 7 →
  ParsePacket (0x55 :: 0x55 :: t :: l :: body)%Z len t0 d0 l0
  = Parsed ExitIncomplete t d0 l0.
Proof.
  intros H7 Hlen. rewrite ParsePacket_header. cbv zeta.
  destruct (Nat.ltb_spec len 7) as [?|_]; [lia|].
  destruct (Nat.ltb_spec len (Z.to_nat l + 7)) as [_|?]; [|lia].
  reflexivity.
Qed.

(** A successful parse found [pkt_data_len + 7 <= len]. *)
Lemma ParsePacket_ok_len (buf : list Z) (len : nat) (t0 : Z) (d0 : list Z) (l0 : nat) :
  returned (p_exit (ParsePacket buf len t0 d0 l0)) = true →
  p_data_len (ParsePacket buf len t0 d0 l0) + 7 ≤ len.
Proof.
  unfold ParsePacket.
  destruct (Nat.ltb_spec len 7); [done|].
  destruct (negb _ || negb _); [done|].
  destruct (Nat.ltb_spec len (Z.to_nat buf.[3] + 7)); [done|].
  destruct (negb _ || negb _); [done|].
  destruct (for_range _ _ _) as [d c].
  destruct (negb _); [done|]. simpl. lia.
Qed.

(** ** HandleResponse *)

(** [HandleResponse] touches [status_] and [ready_] only. *)
Lemma HandleResponse_frame_fields (p : NiimbotPrinter) (t : Z) (d : list Z) (n : nat) :
  let q := (HandleResponse p t d n).1 in
  send_callback_ q = send_callback_ p ∧ ready_callback_ q = ready_callback_ p
  ∧ write_semaphore_ q = write_semaphore_ p
  ∧ packet_buf_ q = packet_buf_ p ∧ packet_buf_len_ q = packet_buf_len_ p.
Proof.
  unfold HandleResponse.
  destruct (t =? 219)%Z; [done|].
  destruct ((t =? 221)%Z && (9 <=? n)); [|done].
  simpl. destruct (negb (ready_ p)); done.
Qed.

(** It does not look at the receive accumulator. *)
Lemma HandleResponse_with_packet_buf (p : NiimbotPrinter) (b : list Z) (l : nat)
    (t : Z) (d : list Z) (n : nat) :
  HandleResponse (with_packet_buf p b l) t d n
  = (with_packet_buf (HandleResponse p t d n).1 b l, (HandleResponse p t d n).2).
Proof.
  unfold HandleResponse.
  destruct (t =? 219)%Z; [done|].
  destruct ((t =? 221)%Z && (9 <=? n)); [|done].
  simpl. destruct (negb (ready_ p)); done.
Qed.

(** It reads [data[0 .. data_len - 1]] only. *)
Lemma HandleResponse_take (p : NiimbotPrinter) (t : Z) (d : list Z) (n : nat) :
  HandleResponse p t d n = HandleResponse p t (take n d) n.
Proof.
  unfold HandleResponse. rewrite take_take, Nat.min_id.
  destruct (t =? 219)%Z; [done|].
  destruct ((t =? 221)%Z && (9 <=? n)); [|done].
  do 21 (destruct n as [|n]; [rewrite ?rd_take by lia; reflexivity|]).
  reflexivity.
Qed.

(** The ready flag after a frame: it is set exactly by a heartbeat response
    of at least 9 bytes, and never cleared. *)
Lemma HandleResponse_ready (p : NiimbotPrinter) (t : Z) (d : list Z) (n : nat) :
  ready_ (HandleResponse p t d n).1 = ready_ p || is_heartbeat9 (Frame t d n).
Proof.
  unfold HandleResponse, is_heartbeat9.
  destruct (Z.eqb_spec t 219) as [->|_]; [simpl; by rewrite orb_false_r|].
  destruct ((t =? 221)%Z && (9 <=? n)); [|simpl; by rewrite orb_false_r].
  simpl. destruct (ready_ p) eqn:E; simpl; by rewrite ?E.
Qed.

(** The ready callback is invoked exactly when the flag goes from false to
    true and a callback is installed. *)
Lemma HandleResponse_fired (p : NiimbotPrinter) (t : Z) (d : list Z) (n : nat) :
  ready_fired (HandleResponse p t d n).2
  = if negb (ready_ p) && is_heartbeat9 (Frame t d n) && ready_callback_ p then 1 else 0.
Proof.
  unfold HandleResponse, is_heartbeat9, ready_fired.
  destruct (Z.eqb_spec t 219) as [->|_]; [simpl; by rewrite andb_false_r|].
  destruct ((t =? 221)%Z && (9 <=? n)); [|simpl; by rewrite andb_false_r].
  simpl. destruct (ready_ p) eqn:E; simpl; [done|].
  destruct (ready_callback_ p); done.
Qed.

Lemma step_ready_callback (p : NiimbotPrinter) (i : input) :
  ready_callback_ (step p i).1 = ready_callback_ p.
Proof.
  destruct i as [t d n|]; [|done]. apply HandleResponse_frame_fields.
Qed.

Lemma run_ready_callback (p : NiimbotPrinter) (ins : list input) :
  ready_callback_ (run p ins).1 = ready_callback_ p.
Proof.
  revert p. induction ins as [|i ins IH]; intros p; [done|]. simpl.
  pose proof (step_ready_callback p i) as Hs.
  destruct (step p i) as [q e]. specialize (IH q).
  destruct (run q ins) as [r e']. simpl in *. congruence.
Qed.

Lemma ready_fired_app (e1 e2 : list event) :
  ready_fired (e1 ++ e2) = ready_fired e1 + ready_fired e2.
Proof. unfold ready_fired. by rewrite filter_app, length_app. Qed.

(** Frames only: the flag ends up set iff it was set or a qualifying
    heartbeat came, and the callback fired once iff the flag went up. *)
Lemma run_frames (p : NiimbotPrinter) (fs : list input) :
  forallb (λ i, negb (is_reset i)) fs = true →
  ready_ (run p fs).1 = ready_ p || existsb is_heartbeat9 fs
  ∧ ready_fired (run p fs).2
    = if negb (ready_ p) && existsb is_heartbeat9 fs && ready_callback_ p then 1 else 0.
Proof.
  revert p. induction fs as [|i fs IH]; intros p Hfs.
  - simpl. rewrite orb_false_r, andb_false_r. done.
  - simpl in Hfs. apply andb_true_iff in Hfs as [Hi Hfs].
    destruct i as [t d n|]; [|done].
    cbn [run step existsb].
    pose proof (HandleResponse_ready p t d n) as Hr.
    pose proof (HandleResponse_fired p t d n) as Hf.
    pose proof (HandleResponse_frame_fields p t d n) as (_ & Hcb & _).
    destruct (HandleResponse p t d n) as [q e]. cbn [fst snd] in Hr, Hf, Hcb.
    destruct (IH q Hfs) as [IHr IHf].
    destruct (run q fs) as [r e']. cbn [fst snd] in *.
    rewrite ready_fired_app, Hf, IHf, IHr, Hr, Hcb.
    destruct (ready_ p), (is_heartbeat9 (Frame t d n)), (existsb is_heartbeat9 fs),
      (ready_callback_ p); done.
Qed.

(** Without a ready callback nothing is invoked, whatever is handled. *)
Lemma run_no_callback (p : NiimbotPrinter) (ins : list input) :
  ready_callback_ p = false → ready_fired (run p ins).2 = 0.
Proof.
  revert p. induction ins as [|i ins IH]; intros p Hcb; [done|].
  cbn [run].
  pose proof (step_ready_callback p i) as Hs.
  assert (Hf : ready_fired (step p i).2 = 0).
  { destruct i as [t d n|]; [|done]. cbn [step].
    by rewrite HandleResponse_fired, Hcb, andb_false_r. }
  destruct (step p i) as [q e]. cbn [fst snd] in Hs, Hf.
  specialize (IH q). rewrite Hs in IH. specialize (IH Hcb).
  destruct (run q ins) as [r e']. cbn [fst snd] in *.
  rewrite ready_fired_app. lia.
Qed.

(** ** The receive accumulator *)

Lemma accumulated_split (p : NiimbotPrinter) (bs : list Z) :
  accumulated p bs → packet_buf_ p = bs ++ drop (length bs) (packet_buf_ p).
Proof. intros (_ & _ & H). rewrite <- H at 1. by rewrite take_drop. Qed.

Lemma accumulated_length (p : NiimbotPrinter) (bs : list Z) :
  accumulated p bs → length bs ≤ sizeof_packet_buf.
Proof.
  intros (Hb & _ & H). apply (f_equal length) in H.
  rewrite length_take in H. lia.
Qed.

Lemma accumulated_nil (p : NiimbotPrinter) :
  length (packet_buf_ p) = sizeof_packet_buf → packet_buf_len_ p = 0 →
  accumulated p [].
Proof. intros Hb Hl. by repeat split. Qed.

(** [memmove] to the front drops the first [k] accumulated bytes. *)
Lemma drop_front_accumulated (p : NiimbotPrinter) (bs : list Z) (k : nat) :
  accumulated p bs → k ≤ length bs → accumulated (drop_front p k) (drop k bs).
Proof.
  intros Hacc Hk. pose proof (accumulated_split p bs Hacc) as Hsplit.
  pose proof (accumulated_length p bs Hacc) as Hle.
  destruct Hacc as (Hb & Hl & _).
  unfold accumulated, drop_front, memcpy. simpl.
  rewrite length_inserts, length_drop, Hl. repeat split; [done|].
  assert (Hsrc : take (length bs - k) (drop k (packet_buf_ p)) = drop k bs).
  { rewrite Hsplit at 1. rewrite drop_app_le by done.
    apply take_app_length'. by rewrite length_drop. }
  rewrite Hsrc, list_inserts_0_prefix by (rewrite length_drop; lia).
  apply take_app_length'. by rewrite length_drop.
Qed.

(** The append of [ProcessReceivedData] when the bytes fit. *)
Lemma append_accumulated (p : NiimbotPrinter) (bs data : list Z) (len : nat) :
  accumulated p bs → length bs + len ≤ sizeof_packet_buf → len ≤ length data →
  accumulated
    (with_packet_buf p (memcpy (packet_buf_ p) (packet_buf_len_ p) data 0 len)
                     (packet_buf_len_ p + len))
    (bs ++ take len data).
Proof.
  intros Hacc Hfit Hdata. pose proof (accumulated_split p bs Hacc) as Hsplit.
  destruct Hacc as (Hb & Hl & _).
  unfold accumulated, memcpy. simpl.
  rewrite length_inserts, length_app, length_take, Hl.
  repeat split; [done|lia|].
  rewrite Hsplit. change (drop 0 data) with data.
  rewrite list_inserts_at.
  - rewrite app_assoc. apply take_app_length'.
    rewrite !length_app, length_take. lia.
  - rewrite length_take, length_drop. lia.
Qed.

(** *** The scan for the start markers *)

Lemma find_start_cons (x : Z) (buf : list Z) (r i : nat) :
  find_start (x :: buf) r (S i) = S (find_start buf r i).
Proof.
  revert i. induction r as [|r IH]; intros i; [done|].
  cbn [find_start]. rewrite !rd_cons_S. change (S i + 1) with (S (i + 1)).
  rewrite rd_cons_S. destruct (_ && _); [done|]. apply IH.
Qed.

Lemma find_start_at_marker (rest : list Z) (r : nat) :
  find_start (0x55 :: 0x55 :: rest)%Z r 0 = 0.
Proof. by destruct r. Qed.

(** Garbage in front of the first start-marker pair is skipped in full. *)
Lemma find_start_garbage (g rest : list Z) (r : nat) :
  has_start_pair (g ++ [0x55%Z]) = false → length g < r →
  find_start (g ++ 0x55 :: 0x55 :: rest)%Z r 0 = length g.
Proof.
  revert r. induction g as [|x g IH]; intros r Hg Hr.
  - apply find_start_at_marker.
  - destruct r as [|r]; [simpl in Hr; lia|].
    cbn [find_start app]. rewrite rd_cons_0. change (0 + 1) with 1.
    rewrite rd_cons_S.
    assert (Hhd : (g ++ 0x55 :: 0x55 :: rest)%Z.[0] = (g ++ [0x55%Z]).[0])
      by (by destruct g).
    rewrite Hhd.
    cbn [app has_start_pair] in Hg.
    destruct (g ++ [0x55%Z]) as [|y l] eqn:Egl; [by destruct g|].
    apply orb_false_iff in Hg as [Hxy Hl]. rewrite rd_cons_0.
    unfold kPacketStart1, kPacketStart2 in *. rewrite Hxy.
    change 1 with (S 0). rewrite find_start_cons. simpl length. f_equal.
    apply IH; [done|simpl in Hr; lia].
Qed.

Lemma has_start_pair_snoc (l : list Z) (x y : Z) :
  x ≠ 0x55%Z →
  has_start_pair ((l ++ [x]) ++ [y]) = has_start_pair (l ++ [x]).
Proof.
  intros Hx. induction l as [|a l IH].
  - simpl. destruct (Z.eqb_spec x kPacketStart1); [done|]. done.
  - cbn [app has_start_pair].
    destruct ((l ++ [x]) ++ [y]) as [|b1 l1] eqn:E1; [by destruct l|].
    destruct (l ++ [x]) as [|b2 l2] eqn:E2; [by destruct l|].
    rewrite IH. simpl in E1. by injection E1 as -> _.
Qed.

(** *** One execution of the loop body *)

Lemma wire_frame_length (t : Z) (pl : list Z) : length (wire_frame t pl) = length pl + 7.
Proof. unfold wire_frame. rewrite !length_app. simpl. lia. Qed.

(** A frame at the front of the accumulator is parsed, handled and removed. *)
Lemma parse_pass_frame (p : NiimbotPrinter) (t : Z) (pl rest : list Z) :
  accumulated p (wire_frame t pl ++ rest) → length pl ≤ 255 →
  parse_pass p
  = (drop_front (HandleResponse p t pl (length pl)).1 (length pl + 7),
     (HandleResponse p t pl (length pl)).2, Continue).
Proof.
  intros Hacc H255. pose proof (accumulated_split _ _ Hacc) as Hsplit.
  destruct Hacc as (Hb & Hl & _).
  rewrite length_app, wire_frame_length in Hl.
  remember (drop _ (packet_buf_ p)) as junk eqn:Ej. clear Ej.
  unfold parse_pass. cbv zeta. rewrite Hsplit, Hl.
  rewrite <- app_assoc.
  assert (Hfs : find_start (wire_frame t pl ++ rest ++ junk)
                  (length pl + 7 + length rest - 1) 0 = 0)
    by apply find_start_at_marker.
  rewrite Hfs. change (0 <? 0) with false. cbv iota. rewrite Hsplit, Hl.
  destruct (Nat.ltb_spec (length pl + 7 + length rest) 7) as [?|_]; [lia|].
  rewrite <- app_assoc.
  rewrite ParsePacket_frame by (rewrite ?length_replicate; lia).
  cbn [p_exit p_type p_data p_data_len returned].
  rewrite HandleResponse_take, take_app_length.
  by destruct (HandleResponse p t pl (length pl)).
Qed.

(** Start markers in place but the declared length not yet there: the
    loop stops and keeps everything. *)
Lemma parse_pass_incomplete (p : NiimbotPrinter) (t l : Z) (body : list Z) :
  accumulated p (0x55 :: 0x55 :: t :: l :: body)%Z →
  3 ≤ length body → length body < Z.to_nat l + 3 →
  parse_pass p = (p, [], Break).
Proof.
  intros Hacc H7 Hinc. pose proof (accumulated_split _ _ Hacc) as Hsplit.
  destruct Hacc as (Hb & Hl & _). simpl length in Hl.
  remember (drop _ (packet_buf_ p)) as junk eqn:Ej. clear Ej.
  unfold parse_pass. cbv zeta. rewrite Hsplit, Hl. cbn [app].
  rewrite find_start_at_marker. change (0 <? 0) with false. cbv iota.
  rewrite Hsplit, Hl. cbn [app].
  destruct (Nat.ltb_spec (S (S (S (S (length body))))) 7) as [?|_]; [lia|].
  rewrite ParsePacket_incomplete by lia.
  cbn [p_exit returned]. change (4 <=? S (S (S (S (length body))))) with true.
  cbv iota. change ((0x55 :: 0x55 :: t :: l :: body ++ junk)%Z.[3]) with l.
  destruct (Nat.ltb_spec (S (S (S (S (length body))))) (Z.to_nat l + 7)) as [_|?]; [done|lia].
Qed.

(** A packet that is there in full but does not validate costs exactly one
    leading byte. *)
Lemma parse_pass_skip (p : NiimbotPrinter) (t l : Z) (body : list Z) :
  accumulated p (0x55 :: 0x55 :: t :: l :: body)%Z →
  Z.to_nat l + 3 ≤ length body →
  returned (p_exit (ParsePacket (packet_buf_ p) (packet_buf_len_ p) 0
                      (replicate 256 0%Z) 0)) = false →
  parse_pass p = (drop_front p 1, [], Continue).
Proof.
  intros Hacc Hfull Hbad. pose proof (accumulated_split _ _ Hacc) as Hsplit.
  destruct Hacc as (Hb & Hl & _). simpl length in Hl.
  remember (drop _ (packet_buf_ p)) as junk eqn:Ej. clear Ej.
  unfold parse_pass. cbv zeta.
  assert (Hfs : find_start (packet_buf_ p) (packet_buf_len_ p - 1) 0 = 0)
    by (rewrite Hsplit; apply find_start_at_marker).
  rewrite Hfs. change (0 <? 0) with false. cbv iota. rewrite Hbad.
  assert (H3 : (packet_buf_ p).[3] = l) by (by rewrite Hsplit).
  rewrite H3, Hl.
  destruct (Nat.ltb_spec (S (S (S (S (length body))))) 7) as [?|_]; [lia|].
  change (4 <=? S (S (S (S (length body))))) with true. cbv iota.
  destruct (Nat.ltb_spec (S (S (S (S (length body))))) (Z.to_nat l + 7)) as [?|_]; [lia|done].
Qed.

(** Garbage in front of the first start-marker pair is removed before
    anything else happens. *)
Lemma parse_pass_garbage (p : NiimbotPrinter) (g rest : list Z) :
  accumulated p (g ++ 0x55 :: 0x55 :: rest)%Z →
  g ≠ [] → has_start_pair (g ++ [0x55%Z]) = false →
  parse_pass p = parse_pass (drop_front p (length g)).
Proof.
  intros Hacc Hg Hpair.
  assert (Hk : length g ≤ length (g ++ 0x55 :: 0x55 :: rest)%Z)
    by (rewrite length_app; lia).
  pose proof (drop_front_accumulated _ _ _ Hacc Hk) as Hacc'.
  rewrite drop_app_length in Hacc'.
  pose proof (accumulated_split _ _ Hacc) as Hsplit.
  pose proof (accumulated_split _ _ Hacc') as Hsplit'.
  destruct Hacc as (_ & Hl & _). rewrite length_app in Hl. simpl length in Hl.
  assert (Hfs : find_start (packet_buf_ p) (packet_buf_len_ p - 1) 0 = length g).
  { rewrite Hsplit, Hl, <- app_assoc. cbn [app].
    apply find_start_garbage; [done|lia]. }
  assert (Hfs' : find_start (packet_buf_ (drop_front p (length g)))
                   (packet_buf_len_ (drop_front p (length g)) - 1) 0 = 0).
  { rewrite Hsplit'. apply find_start_at_marker. }
  unfold parse_pass at 1 2. cbv zeta. rewrite Hfs, Hfs'.
  change (0 <? 0) with false. cbv iota.
  destruct (Nat.ltb_spec 0 (length g)) as [_|?]; [done|].
  destruct g; [done|simpl in *; lia].
Qed.

(** The accumulator never grows in the loop, and shrinks whenever the loop
    goes round again. *)
Lemma parse_pass_len (p : NiimbotPrinter) :
  packet_buf_len_ (parse_pass p).1.1 ≤ packet_buf_len_ p
  ∧ (7 ≤ packet_buf_len_ p → (parse_pass p).2 = Continue →
     packet_buf_len_ (parse_pass p).1.1 < packet_buf_len_ p).
Proof.
  unfold parse_pass. cbv zeta.
  set (p1 := if 0 <? _ then _ else p).
  assert (H1 : packet_buf_len_ p1 ≤ packet_buf_len_ p).
  { unfold p1. destruct (0 <? _); simpl; lia. }
  clearbody p1.
  destruct (Nat.ltb_spec (packet_buf_len_ p1) 7) as [?|H7]; [simpl; split; [lia|done]|].
  destruct (returned _) eqn:Hret.
  - apply ParsePacket_ok_len in Hret.
    set (r := ParsePacket _ _ _ _ _) in *.
    pose proof (HandleResponse_frame_fields p1 (p_type r) (p_data r) (p_data_len r))
      as (_ & _ & _ & _ & Hq).
    destruct (HandleResponse _ _ _ _) as [q e]. simpl in *. lia.
  - destruct (4 <=? _); [|simpl; split; [lia|done]].
    destruct (_ <? _); simpl; split; try lia; done.
Qed.

(** *** The loop and the whole call *)

(** The parse loop ends: every continuing pass shortens the accumulator,
    so [packet_buf_len_ - 6] passes are always enough. *)
Lemma parse_loop_terminates (fuel : nat) (p : NiimbotPrinter) :
  packet_buf_len_ p < fuel + 7 →
  ∃ q evs, parse_loop fuel p = Returns (q, evs)
           ∧ packet_buf_len_ q ≤ packet_buf_len_ p.
Proof.
  revert p. induction fuel as [|fuel IH]; intros p Hlen.
  - simpl. destruct (Nat.ltb_spec (packet_buf_len_ p) 7); [eauto|lia].
  - cbn [parse_loop].
    destruct (Nat.ltb_spec (packet_buf_len_ p) 7) as [?|H7]; [eauto|].
    pose proof (parse_pass_len p) as [Hle Hlt].
    destruct (parse_pass p) as [[q e] fl]. simpl in Hle, Hlt.
    destruct fl; [|eauto].
    destruct (IH q) as (r & e' & Hr & Hrl); [specialize (Hlt H7 eq_refl); lia|].
    rewrite Hr. exists r, (e ++ e'). split; [done|lia].
Qed.

(** More fuel than needed changes nothing. *)
Lemma parse_loop_fuel (fuel fuel' : nat) (p : NiimbotPrinter)
    (r : NiimbotPrinter * list event) :
  parse_loop fuel p = Returns r → fuel ≤ fuel' → parse_loop fuel' p = Returns r.
Proof.
  revert fuel' p r. induction fuel as [|fuel IH]; intros fuel' p r Hr Hle.
  - simpl in Hr. destruct fuel'; simpl;
      destruct (packet_buf_len_ p <? 7); done.
  - destruct fuel' as [|fuel']; [lia|]. cbn [parse_loop] in *.
    destruct (packet_buf_len_ p <? 7); [done|].
    destruct (parse_pass p) as [[q e] fl]. destruct fl; [|done].
    destruct (parse_loop fuel q) as [[q' e']| |] eqn:Hq; [|done|done].
    rewrite (IH fuel' q (q', e')); [done|done|lia].
Qed.

Lemma parse_pass_buf_length (p : NiimbotPrinter) :
  length (packet_buf_ (parse_pass p).1.1) = length (packet_buf_ p).
Proof.
  unfold parse_pass. cbv zeta.
  set (p1 := if 0 <? _ then _ else p).
  assert (H1 : length (packet_buf_ p1) = length (packet_buf_ p)).
  { unfold p1. destruct (0 <? _); [|done]. apply memcpy_length. }
  clearbody p1. rewrite <- H1.
  destruct (packet_buf_len_ p1 <? 7); [done|].
  destruct (returned _).
  - set (r := ParsePacket _ _ _ _ _) in *.
    pose proof (HandleResponse_frame_fields p1 (p_type r) (p_data r) (p_data_len r))
      as (_ & _ & _ & Hq & _).
    destruct (HandleResponse _ _ _ _) as [q e]. cbn [fst snd] in *.
    unfold drop_front. cbn [packet_buf_ with_packet_buf].
    rewrite memcpy_length. by rewrite Hq.
  - destruct (4 <=? _); [|done].
    destruct (_ <? _); [done|]. apply memcpy_length.
Qed.

Lemma parse_loop_buf_length (fuel : nat) (p q : NiimbotPrinter) (evs : list event) :
  parse_loop fuel p = Returns (q, evs) →
  length (packet_buf_ q) = length (packet_buf_ p).
Proof.
  revert p q evs. induction fuel as [|fuel IH]; intros p q evs Hr.
  - simpl in Hr. destruct (packet_buf_len_ p <? 7); [|done]. by injection Hr as <- _.
  - cbn [parse_loop] in Hr.
    destruct (packet_buf_len_ p <? 7); [by injection Hr as <- _|].
    pose proof (parse_pass_buf_length p) as Hb.
    destruct (parse_pass p) as [[p' e] fl]. simpl in Hb.
    destruct fl; [|injection Hr as <- _; done].
    destruct (parse_loop fuel p') as [[q' e']| |] eqn:Hq; [|done|done].
    injection Hr as <- _. rewrite <- Hb. by apply (IH p' q' e').
Qed.

(** A delivery that fits is appended and parsed. *)
Lemma ProcessReceivedData_fits (fuel : nat) (p : NiimbotPrinter) (bs data : list Z)
    (len : nat) :
  accumulated p bs → length bs + len ≤ sizeof_packet_buf → len ≤ length data →
  ∃ p', accumulated p' (bs ++ take len data)
        ∧ same_device p' p
        ∧ ProcessReceivedData fuel p data len = parse_loop fuel p'.
Proof.
  intros Hacc Hfit Hdata.
  pose proof (append_accumulated p bs data len Hacc Hfit Hdata) as Happ.
  destruct Hacc as (Hb & Hl & _).
  eexists. split; [exact Happ|]. split; [by repeat split|].
  unfold ProcessReceivedData. rewrite Hl.
  destruct (Nat.ltb_spec sizeof_packet_buf (length bs + len)) as [?|_]; [lia|].
  rewrite Hl, Hb.
  destruct (Nat.ltb_spec sizeof_packet_buf (length bs + len)) as [?|_]; [lia|].
  done.
Qed.

(** A delivery that would overflow empties the accumulator first and is
    then treated like any other. *)
Lemma ProcessReceivedData_overflow (fuel : nat) (p : NiimbotPrinter) (data : list Z)
    (len : nat) :
  sizeof_packet_buf < packet_buf_len_ p + len → len ≤ sizeof_packet_buf →
  ProcessReceivedData fuel p data len
  = ProcessReceivedData fuel (with_packet_buf p (packet_buf_ p) 0) data len.
Proof.
  intros Hover Hlen. unfold ProcessReceivedData.
  destruct (Nat.ltb_spec sizeof_packet_buf (packet_buf_len_ p + len)) as [_|?]; [|lia].
  cbn [packet_buf_len_ packet_buf_ with_packet_buf].
  destruct (Nat.ltb_spec sizeof_packet_buf (0 + len)) as [?|_]; [simpl in *; lia|].
  done.
Qed.

(** Every call with a delivery of at most 512 bytes returns. *)
Lemma ProcessReceivedData_terminates (fuel : nat) (p : NiimbotPrinter) (data : list Z)
    (len : nat) :
  length (packet_buf_ p) = sizeof_packet_buf → len ≤ sizeof_packet_buf →
  sizeof_packet_buf < fuel + 7 →
  ∃ q evs, ProcessReceivedData fuel p data len = Returns (q, evs)
           ∧ packet_buf_len_ q ≤ sizeof_packet_buf
           ∧ length (packet_buf_ q) = sizeof_packet_buf.
Proof.
  intros Hb Hlen Hfuel. unfold ProcessReceivedData.
  set (p0 := if _ <? _ then _ else p).
  assert (H0 : length (packet_buf_ p0) = sizeof_packet_buf
               ∧ packet_buf_len_ p0 + len ≤ sizeof_packet_buf).
  { unfold p0. destruct (Nat.ltb_spec sizeof_packet_buf (packet_buf_len_ p + len));
      simpl; split; try done; lia. }
  clearbody p0. destruct H0 as [Hb0 Hfit]. rewrite Hb0.
  destruct (Nat.ltb_spec sizeof_packet_buf (packet_buf_len_ p0 + len)) as [?|_]; [lia|].
  set (p1 := with_packet_buf _ _ _).
  destruct (parse_loop_terminates fuel p1) as (q & evs & Hq & Hql); [simpl; lia|].
  exists q, evs. split; [done|]. split; [simpl in Hql; lia|].
  rewrite (parse_loop_buf_length _ _ _ _ Hq). simpl. by rewrite memcpy_length.
Qed.

(** ** Commands and the print job *)

Section PrintProperties.

Variable write_completes : nat → bool.
Variable decode_rle_row_1bpp : RleImage → Z → list Z → nat → list Z.

(** The decoder writes into the caller's array, which keeps its size. *)
Hypothesis decode_length :
  ∀ img y buf n, length (decode_rle_row_1bpp img y buf n) = length buf.

(** With a send callback installed and a payload that fits, [SendPacket]
    transmits the wire frame and reports the outcome of the wait. *)
Lemma SendPacket_transmits (code : RequestCode) (data : list Z) (data_len : nat)
    (w : World) :
  send_callback_ (w_printer w) = true →
  data_len ≤ 249 → data_len ≤ length data →
  SendPacket write_completes code data data_len true w
  = transmit write_completes (command code (take data_len data)) w.
Proof.
  intros Hcb H249 Hdata. unfold SendPacket, transmit, times_out, sent_world, command.
  rewrite Hcb. cbn [negb].
  rewrite BuildPacket_layout by (rewrite ?length_replicate; lia).
  destruct (Nat.eqb_spec (data_len + 7) 0) as [?|_]; [lia|].
  rewrite take_app_length' by (rewrite wire_frame_length, length_take; lia).
  cbn [andb].
  destruct (bool_decide (is_Some (write_semaphore_ (w_printer w)))); cbn [andb negb].
  - by destruct (write_completes (w_waits w)).
  - done.
Qed.

(** A transmission leaves the callbacks and the ready flag as they are. *)
Lemma sent_world_fields (w : World) (ev : event) :
  send_callback_ (w_printer (sent_world w ev)) = send_callback_ (w_printer w)
  ∧ ready_ (w_printer (sent_world w ev)) = ready_ (w_printer w)
  ∧ w_sent (sent_world w ev) = w_sent w ++ [ev].
Proof. unfold sent_world. by destruct (bool_decide _). Qed.

Lemma on_ok_assoc (a b c : M esp_err_t) (w : World) :
  ((a >>! b) >>! c) w = (a >>! (b >>! c)) w.
Proof.
  unfold on_ok. destruct (a w) as [[] w']; [|done..].
  by destruct (b w') as [[] w''].
Qed.

Lemma on_ok_ret (a : M esp_err_t) (w : World) : (a >>! ret ESP_OK) w = a w.
Proof. unfold on_ok, ret. by destruct (a w) as [[] w']. Qed.

(** Two commands that agree on every world with a send callback agree
    inside a sequence too. *)
Lemma on_ok_transmit (m k k' : M esp_err_t) (ev : event) (w : World) :
  send_callback_ (w_printer w) = true →
  m w = transmit write_completes ev w →
  (∀ w', send_callback_ (w_printer w') = true → k w' = k' w') →
  (m >>! k) w = (transmit write_completes ev >>! k') w.
Proof.
  intros Hcb Hm Hk. unfold on_ok. rewrite Hm. unfold transmit.
  destruct (times_out _ w); [done|]. apply Hk.
  by rewrite (proj1 (sent_world_fields w ev)).
Qed.

Lemma on_ok_ext (m k k' : M esp_err_t) (w : World) :
  (∀ w', k w' = k' w') → (m >>! k) w = (m >>! k') w.
Proof. intros Hk. unfold on_ok. by destruct (m w) as [[] w']. Qed.

Lemma run_plan_app (plan1 plan2 : list event) (w : World) :
  run_plan write_completes (plan1 ++ plan2) w
  = (run_plan write_completes plan1 >>! run_plan write_completes plan2) w.
Proof.
  revert w. induction plan1 as [|ev plan1 IH]; intros w.
  - done.
  - cbn [app run_plan]. rewrite on_ok_assoc. apply on_ok_ext, IH.
Qed.

(** [SendBitmapRow] of a 48-byte row transmits the row command. *)
Lemma SendBitmapRow_transmits (y : Z) (row : list Z) (w : World) :
  send_callback_ (w_printer w) = true → length row = 48 →
  SendBitmapRow write_completes y row 48 w
  = transmit write_completes (command PRINT_BITMAP_ROW (be16 y ++ [0; 0; 0; 1]%Z ++ row)) w.
Proof.
  intros Hcb Hrow. unfold SendBitmapRow.
  change (replicate 256 0%Z) with (0 :: 0 :: 0 :: 0 :: 0 :: 0 :: replicate 250 0)%Z.
  set (zs := replicate 250 0%Z).
  assert (Hzs : length zs = 250) by apply length_replicate. clearbody zs.
  cbn [insert list_insert]. unfold memcpy.
  rewrite !list_inserts_cons. change (drop 0 row) with row.
  rewrite (take_ge row 48) by lia.
  rewrite list_inserts_0_prefix by lia.
  rewrite SendPacket_transmits; [|done|lia|simpl; rewrite length_app; lia].
  do 2 f_equal. unfold be16. cbn [app]. change (6 + 48) with (S (S (S (S (S (S 48)))))).
  cbn [take]. do 6 f_equal.
  rewrite <- Hrow. apply take_app_length.
Qed.

Section RowBuffer.

(** What the 48-byte row buffer of [Print] holds on entry. *)
Variable row0 : list Z.
Hypothesis row0_length : length row0 = 48.

Lemma row_data_after_length (image : RleImage) (y : nat) :
  length (row_data_after decode_rle_row_1bpp row0 image y) = 48.
Proof.
  induction y as [|y IH]; cbn [row_data_after]; rewrite decode_length; done.
Qed.

(** The row loop transmits the row commands in index order. *)
Lemma send_rows_plan (image : RleImage) (n y : nat) (k k' : M esp_err_t) (w : World) :
  y + n ≤ 240 →
  send_callback_ (w_printer w) = true →
  (∀ w', send_callback_ (w_printer w') = true → k w' = k' w') →
  (send_rows write_completes decode_rle_row_1bpp image 48 n (Z.of_nat y)
     (row_data_before decode_rle_row_1bpp row0 image y) >>! k) w
  = (run_plan write_completes
       (map (bitmap_row_command decode_rle_row_1bpp row0 image) (seq y n)) >>! k') w.
Proof.
  revert y w. induction n as [|n IH]; intros y w Hy Hcb Hk.
  - cbn [send_rows seq map run_plan]. unfold on_ok, ret. by apply Hk.
  - cbn [send_rows seq map run_plan]. rewrite !on_ok_assoc.
    assert (Hrow : decode_rle_row_1bpp image (Z.of_nat y)
                     (row_data_before decode_rle_row_1bpp row0 image y) 48
                   = row_data_after decode_rle_row_1bpp row0 image y) by (by destruct y).
    rewrite Hrow.
    apply on_ok_transmit; [done| |].
    + apply SendBitmapRow_transmits; [done|apply row_data_after_length].
    + intros w' Hcb'.
      replace ((Z.of_nat y + 1) mod 65536)%Z with (Z.of_nat (S y))
        by (rewrite Z.mod_small; lia).
      apply (IH (S y)); [lia|done|done].
Qed.

(** Closes the goal that a fixed-payload command is one transmission. *)
Ltac by_send := apply SendPacket_transmits; [assumption | lia | simpl; lia].

(** A ready printer with a send callback runs the print plan, whatever
    the row buffer holds on entry. *)
Lemma Print_runs_plan (image : RleImage) (w : World) :
  ready_ (w_printer w) = true → send_callback_ (w_printer w) = true →
  Print_from write_completes decode_rle_row_1bpp row0 image w
  = run_plan write_completes (print_plan decode_rle_row_1bpp row0 image) w.
Proof.
  intros Hready Hcb. unfold Print_from. rewrite Hready. cbn [negb].
  assert (Hph : (if (img_h image <? kPaperHeightDots)%Z then img_h image
                 else kPaperHeightDots) = Z.min (img_h image) kPaperHeightDots).
  { destruct (Z.ltb_spec (img_h image) kPaperHeightDots); lia. }
  rewrite Hph. cbv zeta. unfold print_plan. cbn [app run_plan].
  change (Z.to_nat (kPaperWidthDots / 8)) with 48.
  apply on_ok_transmit; [done|by_send|].
  intros w1 H1. apply on_ok_transmit; [done|by_send|].
  intros w2 H2. apply on_ok_transmit; [done|by_send|].
  intros w3 H3. apply on_ok_transmit; [done|by_send|].
  intros w4 H4. apply on_ok_transmit; [done|by_send|].
  intros w5 H5. rewrite run_plan_app.
  apply (send_rows_plan image _ 0); [unfold kPaperHeightDots; lia|done|].
  intros w6 H6. cbn [run_plan].
  apply on_ok_transmit; [done|by_send|].
  intros w7 H7. apply on_ok_transmit; [done|by_send|].
  done.
Qed.

End RowBuffer.

(** A plan whose commands all complete is transmitted in full. *)
Lemma run_plan_ok (plan : list event) (w : World) :
  (∀ k, k < length plan →
        bool_decide (is_Some (write_semaphore_ (w_printer w)))
        && negb (write_completes (w_waits w + k)) = false) →
  (run_plan write_completes plan w).1 = ESP_OK
  ∧ w_sent (run_plan write_completes plan w).2 = w_sent w ++ plan.
Proof.
  revert w. induction plan as [|ev plan IH]; intros w Hok.
  - simpl. by rewrite app_nil_r.
  - cbn [run_plan]. unfold on_ok, transmit.
    pose proof (Hok 0 ltac:(simpl; lia)) as H0. rewrite Nat.add_0_r in H0.
    unfold times_out. rewrite H0.
    destruct (IH (sent_world w ev)) as [IH1 IH2].
    + intros k Hk. specialize (Hok (S k) ltac:(simpl; lia)).
      unfold sent_world.
      destruct (bool_decide (is_Some (write_semaphore_ (w_printer w)))) eqn:Hs;
        cbn [w_printer w_waits with_semaphore write_semaphore_] in *;
        [|by rewrite Hs].
      replace (S (w_waits w) + k) with (w_waits w + S k) by lia.
      exact Hok.
    + rewrite IH1, IH2. split; [done|].
      rewrite (proj2 (proj2 (sent_world_fields w ev))), <- app_assoc. done.
Qed.

(** The first command that times out is the last one transmitted. *)
Lemma run_plan_timeout (plan : list event) (k : nat) (w : World) :
  k < length plan →
  is_Some (write_semaphore_ (w_printer w)) →
  (∀ j, j < k → write_completes (w_waits w + j) = true) →
  write_completes (w_waits w + k) = false →
  (run_plan write_completes plan w).1 = ESP_ERR_TIMEOUT
  ∧ w_sent (run_plan write_completes plan w).2 = w_sent w ++ take (S k) plan.
Proof.
  revert k w. induction plan as [|ev plan IH]; intros k w Hk Hsem Hok Hbad.
  - simpl in Hk. lia.
  - cbn [run_plan]. unfold on_ok, transmit, times_out.
    rewrite (bool_decide_eq_true_2 _ Hsem). cbn [andb].
    assert (Hw : sent_world w ev
                 = MkWorld (with_semaphore (w_printer w) (Some false))
                           (w_sent w ++ [ev]) (S (w_waits w))).
    { unfold sent_world. by rewrite (bool_decide_eq_true_2 _ Hsem). }
    destruct k as [|k].
    + rewrite Nat.add_0_r in Hbad. rewrite Hbad. cbn [negb fst snd].
      rewrite Hw. done.
    + pose proof (Hok 0 ltac:(lia)) as H0. rewrite Nat.add_0_r in H0.
      rewrite H0. cbn [negb].
      destruct (IH k (sent_world w ev)) as [IH1 IH2].
      * simpl in Hk. lia.
      * rewrite Hw. simpl. eauto.
      * intros j Hj. rewrite Hw. cbn [w_waits].
        replace (S (w_waits w) + j) with (w_waits w + S j) by lia.
        apply Hok. lia.
      * rewrite Hw. cbn [w_waits].
        by replace (S (w_waits w) + k) with (w_waits w + S k) by lia.
      * rewrite IH1, IH2. split; [done|].
        rewrite Hw. cbn [w_sent take]. by rewrite <- app_assoc.
Qed.

End PrintProperties.

(** ** Checksums *)

Lemma lxor_byte (a b : Z) : is_byte a → is_byte b → is_byte (Z.lxor a b).
Proof.
  unfold is_byte. intros [Ha Ha'] [Hb Hb'].
  assert (H0 : (0 ≤ Z.lxor a b)%Z) by (apply Z.lxor_nonneg; lia).
  split; [done|].
  destruct (Z.eq_dec (Z.lxor a b) 0%Z) as [->|Hne]; [lia|].
  change 256%Z with (2 ^ 8)%Z. apply Z.log2_lt_pow2; [lia|].
  pose proof (Z.log2_lxor a b Ha Hb) as Hlog.
  assert (Hla : (Z.log2 a < 8)%Z).
  { destruct (Z.eq_dec a 0%Z) as [->|?]; [done|]. apply Z.log2_lt_pow2; lia. }
  assert (Hlb : (Z.log2 b < 8)%Z).
  { destruct (Z.eq_dec b 0%Z) as [->|?]; [done|]. apply Z.log2_lt_pow2; lia. }
  lia.
Qed.

Lemma xor_fold_byte (t l : Z) (pl : list Z) :
  is_byte t → is_byte l → Forall is_byte pl → is_byte (xor_fold t l pl).
Proof.
  intros Ht Hl Hpl. unfold xor_fold.
  assert (H : is_byte (Z.lxor t l)) by (by apply lxor_byte).
  revert H. generalize (Z.lxor t l).
  induction Hpl as [|x pl Hx Hpl IH]; intros a Ha; [done|].
  simpl. apply IH. by apply lxor_byte.
Qed.

Lemma fold_lxor_acc (l : list Z) (a d : Z) :
  fold_left Z.lxor l (Z.lxor a d) = Z.lxor (fold_left Z.lxor l a) d.
Proof.
  revert a. induction l as [|x l IH]; intros a; [done|]. simpl.
  rewrite <- IH. f_equal.
  rewrite !Z.lxor_assoc. f_equal. apply Z.lxor_comm.
Qed.

(** XOR-ing [d] into one payload byte XORs [d] into the fold. *)
Lemma fold_lxor_insert (l : list Z) (i : nat) (a d : Z) :
  i < length l →
  fold_left Z.lxor (<[i := Z.lxor l.[i] d]> l) a = Z.lxor (fold_left Z.lxor l a) d.
Proof.
  revert i a. induction l as [|x l IH]; intros i a Hi; [simpl in Hi; lia|].
  destruct i as [|i].
  - simpl. rewrite ?rd_cons_0, <- Z.lxor_assoc. apply fold_lxor_acc.
  - cbn [insert list_insert fold_left]. rewrite rd_cons_S.
    apply IH. simpl in Hi. lia.
Qed.

Lemma lxor_changes (x d : Z) : d ≠ 0%Z → Z.lxor x d ≠ x.
Proof.
  intros Hd E. apply Hd.
  assert (H : Z.lxor x (Z.lxor x d) = Z.lxor x x) by (by rewrite E).
  rewrite <- Z.lxor_assoc, !Z.lxor_nilpotent, Z.lxor_0_l in H. done.
Qed.

(** A single bit of a byte. *)
Lemma bit_byte (bit : Z) : (0 ≤ bit < 8)%Z → is_byte (2 ^ bit) ∧ (2 ^ bit)%Z ≠ 0%Z.
Proof.
  intros Hbit. pose proof (Z.pow_pos_nonneg 2 bit).
  pose proof (Z.pow_le_mono_r 2 bit 7). unfold is_byte.
  change (2 ^ 7)%Z with 128%Z in *. lia.
Qed.

(** XOR-ing [d] into the length byte XORs [d] into the fold. *)
Lemma xor_fold_length (t l d : Z) (pl : list Z) :
  xor_fold t (Z.lxor l d) pl = Z.lxor (xor_fold t l pl) d.
Proof. unfold xor_fold. by rewrite <- Z.lxor_assoc, fold_lxor_acc. Qed.

(** A wire frame whose length byte was replaced by another value [l']:
    the checks of [ParsePacket], in source order, on the declared length
    [n = l']. *)
Lemma ParsePacket_length_replaced (t l' : Z) (pl rest : list Z)
    (t0 : Z) (d0 : list Z) (l0 : nat) :
  length pl ≤ 255 → (0 ≤ l' < 256)%Z → l' ≠ Z.of_nat (length pl) →
  let pkt := wire_frame t pl ++ rest in
  let n := Z.to_nat l' in
  let r := ParsePacket (<[3 := l']> pkt) (length pl + 7) t0 d0 l0 in
  p_exit r
  = (if decide (length pl < n) then ExitIncomplete
     else if decide (pkt.[5 + n] = 0xAA%Z ∧ pkt.[6 + n] = 0xAA%Z) then
       if decide (xor_fold t (Z.of_nat n) (take n pl) = pkt.[4 + n])
       then ExitOk else ExitChecksumMismatch
     else ExitBadEnd)
  ∧ (p_exit r = ExitOk → p_type r = t ∧ p_data_len r = n ∧ n < length pl).
Proof.
  intros H255 Hl' Hne pkt n r. unfold r, pkt, wire_frame. cbn [app insert list_insert].
  change (5 + n) with (S (S (S (S (S n))))).
  change (6 + n) with (S (S (S (S (S (S n)))))).
  change (4 + n) with (S (S (S (S n)))).
  rewrite !rd_cons_S, ParsePacket_header. cbv zeta. fold n.
  set (body := (pl ++ _) ++ rest).
  destruct (Nat.ltb_spec (length pl + 7) 7) as [?|_]; [lia|].
  rewrite !Z.eqb_refl. cbn [negb orb].
  destruct (Nat.ltb_spec (length pl + 7) (n + 7)) as [Hgt|Hle].
  { rewrite decide_True by lia. cbn [p_exit]. by split. }
  assert (Hn : n < length pl) by lia.
  rewrite decide_False by lia.
  destruct (Z.eqb_spec body.[S n] 0xAA) as [E1|E1]; cbn [negb orb];
    [|rewrite decide_False by (by intros [? _]); cbn [p_exit]; by split].
  destruct (Z.eqb_spec body.[S (S n)] 0xAA) as [E2|E2]; cbn [negb orb];
    [|rewrite decide_False by (by intros [_ ?]); cbn [p_exit]; by split].
  rewrite decide_True by done.
  rewrite map_rd_seq0 by (unfold body; rewrite !length_app; lia).
  assert (Ht : take n body = take n pl).
  { unfold body. rewrite <- app_assoc. apply take_app_le. lia. }
  rewrite !Ht, u8_small by lia. fold (xor_fold t (Z.of_nat n) (take n pl)).
  destruct (Z.eqb_spec (xor_fold t (Z.of_nat n) (take n pl)) body.[n]) as [E3|E3];
    cbn [negb].
  - rewrite decide_True by done. cbn [p_exit p_type p_data_len].
    split; [done|]. intros _. split; [done|]. split; [done|lia].
  - rewrite decide_False by done. cbn [p_exit]. by split.
Qed.

(** ** Whole deliveries *)

Lemma same_device_eq (p q : NiimbotPrinter) :
  same_device p q → p = with_packet_buf q (packet_buf_ p) (packet_buf_len_ p).
Proof.
  intros (H1 & H2 & H3 & H4 & H5). destruct p, q. simpl in *. by subst.
Qed.

Lemma same_device_drop_front (p : NiimbotPrinter) (k : nat) :
  same_device (drop_front p k) p.
Proof. by repeat split. Qed.

Lemma same_device_trans (p q r : NiimbotPrinter) :
  same_device p q → same_device q r → same_device p r.
Proof.
  intros (A1 & A2 & A3 & A4 & A5) (B1 & B2 & B3 & B4 & B5).
  repeat split; congruence.
Qed.

(** Handling a frame on two objects with different accumulators. *)
Lemma HandleResponse_same_device (p q : NiimbotPrinter) (t : Z) (d : list Z) (n : nat) :
  same_device p q →
  HandleResponse p t d n
  = (with_packet_buf (HandleResponse q t d n).1 (packet_buf_ p) (packet_buf_len_ p),
     (HandleResponse q t d n).2).
Proof.
  intros H. rewrite (same_device_eq p q H) at 1.
  apply HandleResponse_with_packet_buf.
Qed.

Lemma parse_loop_short (fuel : nat) (p : NiimbotPrinter) :
  packet_buf_len_ p < 7 → parse_loop fuel p = Returns (p, []).
Proof.
  intros H. destruct fuel; cbn [parse_loop];
    destruct (Nat.ltb_spec (packet_buf_len_ p) 7); done || lia.
Qed.

(** A frame in front of fewer than 7 further bytes: one pass handles it and
    the loop ends with those bytes left. *)
Lemma parse_loop_frame (fuel : nat) (p p0 : NiimbotPrinter) (t : Z) (pl rest : list Z) :
  accumulated p (wire_frame t pl ++ rest) → same_device p p0 →
  length pl ≤ 255 → length rest < 7 → 1 ≤ fuel →
  ∃ junk,
    parse_loop fuel p
    = Returns (with_packet_buf (HandleResponse p0 t pl (length pl)).1 junk (length rest),
               (HandleResponse p0 t pl (length pl)).2)
    ∧ take (length rest) junk = rest.
Proof.
  intros Hacc Hsame H255 Hrest Hfuel.
  destruct fuel as [|fuel]; [lia|]. cbn [parse_loop].
  pose proof Hacc as (Hb & Hl & _). rewrite length_app, wire_frame_length in Hl.
  destruct (Nat.ltb_spec (packet_buf_len_ p) 7) as [?|_]; [lia|].
  rewrite (parse_pass_frame p t pl rest Hacc H255).
  rewrite (HandleResponse_same_device p p0 t pl (length pl) Hsame).
  cbn [fst snd].
  set (q := HandleResponse p0 t pl (length pl)).
  set (p2 := drop_front _ _).
  assert (Hq : accumulated p2 rest).
  { rewrite <- (drop_app_length (wire_frame t pl) rest).
    rewrite wire_frame_length. apply drop_front_accumulated; [exact Hacc|].
    rewrite length_app, wire_frame_length. lia. }
  destruct Hq as (_ & Hl2 & Ht2).
  rewrite parse_loop_short by lia. rewrite app_nil_r.
  exists (packet_buf_ p2). split; [|exact Ht2].
  do 2 f_equal. rewrite <- Hl2. reflexivity.
Qed.

(** ** Uninitialised locals and out-of-range stores *)

(** What a successful [ParsePacket] reports -- the exit taken, the type, the
    length and the payload bytes it stored -- does not depend on what the
    out-parameters held before the call. *)
Lemma ParsePacket_ok_out (buf : list Z) (len : nat) (t0 t0' : Z) (d0 d0' : list Z)
    (l0 l0' : nat) :
  let r := ParsePacket buf len t0 d0 l0 in
  let r' := ParsePacket buf len t0' d0' l0' in
  p_exit r = p_exit r'
  ∧ (returned (p_exit r) = true →
     p_type r = p_type r' ∧ p_data_len r = p_data_len r'
     ∧ (p_data_len r ≤ length d0 → p_data_len r ≤ length d0' →
        take (p_data_len r) (p_data r) = take (p_data_len r') (p_data r'))).
Proof.
  unfold ParsePacket.
  destruct (len <? 7); [done|].
  destruct (negb _ || negb _); [done|].
  destruct (len <? Z.to_nat buf.[3] + 7); [done|].
  destruct (negb _ || negb _); [done|].
  rewrite !(copy_loop (λ i, buf.[4 + i]) 0).
  destruct (negb _); [done|]. cbn [p_exit p_type p_data p_data_len returned].
  split; [done|]. intros _. split; [done|]. split; [done|].
  intros Hd Hd'.
  set (seen := map _ _).
  assert (Hseen : length seen = Z.to_nat buf.[3])
    by (unfold seen; by rewrite length_map, length_seq).
  rewrite !list_inserts_0_prefix by lia.
  rewrite <- Hseen. by rewrite !take_app_length.
Qed.

(** A delivery of more than 512 bytes is copied past the end of
    [packet_buf_]. *)
Lemma ProcessReceivedData_oversized (fuel : nat) (p : NiimbotPrinter) (data : list Z)
    (len : nat) :
  length (packet_buf_ p) = sizeof_packet_buf → sizeof_packet_buf < len →
  ProcessReceivedData fuel p data len = Undefined.
Proof.
  intros Hb Hlen. unfold ProcessReceivedData.
  destruct (Nat.ltb_spec sizeof_packet_buf (packet_buf_len_ p + len)) as [_|?]; [|lia].
  cbn [packet_buf_ packet_buf_len_ with_packet_buf]. rewrite Hb.
  destruct (Nat.ltb_spec sizeof_packet_buf (0 + len)) as [_|?]; [done|simpl in *; lia].
Qed.

(* ================================================================== *)
(** * Part III: the properties of the specification *)
(* ================================================================== *)

(** C1.  For every type byte and every payload of 0 to 248 bytes,
    [BuildPacket] into a buffer that is large enough yields the frame
    [0x55 0x55 type len payload checksum 0xAA 0xAA] of payload length + 7
    bytes, with [len] the payload length and [checksum] the XOR of type,
    length and all payload bytes; and [ParsePacket] on these bytes, with an
    output array that is large enough, returns true with exactly that type
    and that payload. *)
Theorem build_parse_roundtrip (buf : list Z) (buf_size : nat) (type : Z)
    (data : list Z) (t0 : Z) (out : list Z) (l0 : nat) :
  is_byte type → Forall is_byte data → length data ≤ 248 →
  length data + 7 ≤ buf_size → buf_size ≤ length buf →
  length data ≤ length out →
  let '(pkt, pkt_len) := BuildPacket buf buf_size type data (length data) in
  let r := ParsePacket pkt pkt_len t0 out l0 in
  pkt_len = length data + 7
  ∧ take pkt_len pkt
    = [0x55; 0x55; type; Z.of_nat (length data)]%Z ++ data
      ++ [fold_left Z.lxor data (Z.lxor type (Z.of_nat (length data))); 0xAA; 0xAA]%Z
  ∧ Forall is_byte (take pkt_len pkt)
  ∧ returned (p_exit r) = true
  ∧ p_type r = type
  ∧ p_data_len r = length data
  ∧ take (p_data_len r) (p_data r) = data.
Proof.
  intros Htype Hdata H248 Hsize Hbuf Hout.
  rewrite BuildPacket_layout by lia. rewrite firstn_all. cbv zeta.
  rewrite ParsePacket_frame by lia.
  cbn [p_exit p_type p_data p_data_len returned].
  rewrite take_app_length' by (by rewrite wire_frame_length).
  rewrite take_app_length.
  repeat split; try done.
  assert (Hlen : is_byte (Z.of_nat (length data))) by (unfold is_byte; lia).
  unfold wire_frame. repeat (apply Forall_app; split); try done.
  - repeat apply Forall_cons_2; try apply Forall_nil_2; try done.
  - repeat apply Forall_cons_2; try apply Forall_nil_2; try done.
    by apply xor_fold_byte.
Qed.

(** C2 (as amended).  A call whose delivery of at most 512 bytes would make
    the accumulated length exceed 512 discards the bytes accumulated before
    and nothing else: the delivered bytes are then accumulated and parsed
    exactly as if they had been delivered to an empty accumulator, the call
    returns, and the accumulated length stays within the delivery's length,
    hence within the 512-byte capacity. *)
Theorem overflow_discards_old_bytes (fuel : nat) (p : NiimbotPrinter)
    (data : list Z) (len : nat) :
  length (packet_buf_ p) = sizeof_packet_buf →
  len ≤ sizeof_packet_buf → len ≤ length data →
  sizeof_packet_buf < packet_buf_len_ p + len →
  sizeof_packet_buf < fuel + 7 →
  ∃ p' q evs,
    accumulated p' (take len data) ∧ same_device p' p
    ∧ ProcessReceivedData fuel p data len = parse_loop fuel p'
    ∧ ProcessReceivedData fuel p data len
      = ProcessReceivedData fuel (with_packet_buf p (packet_buf_ p) 0) data len
    ∧ ProcessReceivedData fuel p data len = Returns (q, evs)
    ∧ packet_buf_len_ q ≤ len
    ∧ length (packet_buf_ q) = sizeof_packet_buf.
Proof.
  intros Hb Hlen Hdata Hover Hfuel.
  pose proof (ProcessReceivedData_overflow fuel p data len Hover Hlen) as Hreset.
  set (p0 := with_packet_buf p (packet_buf_ p) 0) in *.
  assert (Hacc0 : accumulated p0 []) by (by apply accumulated_nil).
  destruct (ProcessReceivedData_fits fuel p0 [] data len Hacc0)
    as (p' & Hacc' & Hsame' & Hcall); [simpl; lia|done|].
  cbn [app] in Hacc'.
  pose proof Hacc' as (Hb' & Hl' & _). rewrite length_take in Hl'.
  destruct (parse_loop_terminates fuel p') as (q & evs & Hq & Hql);
    [unfold sizeof_packet_buf in *; lia|].
  exists p', q, evs. rewrite Hreset, Hcall, Hq.
  repeat split; try done; try apply Hacc'; try apply Hsame'.
  - lia.
  - by rewrite (parse_loop_buf_length _ _ _ _ Hq).
Qed.

(** C3 (as amended).  A frame with a bad checksum followed by a valid frame
    (payloads of up to 248 bytes), delivered in one call to an empty
    accumulator.  The first pass finds the corrupt packet there in full and
    discards exactly its leading byte, and the call returns after fewer
    passes than bytes were delivered.  Provided no two adjacent 0x55 bytes
    occur in the corrupt frame after its first byte, the second pass drops
    the rest of the corrupt frame as garbage and handles the valid frame,
    and the call returns with the accumulator empty: two passes are enough. *)
Theorem resync_after_bad_checksum (fuel : nat) (p : NiimbotPrinter)
    (t c : Z) (pl : list Z) (tv : Z) (pv : list Z) :
  accumulated p [] →
  length pl ≤ 248 → length pv ≤ 248 →
  c ≠ xor_fold t (Z.of_nat (length pl)) pl →
  let data := corrupt_frame t pl c ++ wire_frame tv pv in
  ∃ p1,
    accumulated p1 data
    ∧ ProcessReceivedData fuel p data (length data) = parse_loop fuel p1
    ∧ parse_pass p1 = (drop_front p1 1, [], Continue)
    ∧ accumulated (drop_front p1 1) (tail data)
    ∧ (length data < fuel + 7 →
       ∃ q evs, ProcessReceivedData fuel p data (length data) = Returns (q, evs))
    ∧ (has_start_pair (tail (corrupt_frame t pl c)) = false → 2 ≤ fuel →
       ∃ junk,
         ProcessReceivedData fuel p data (length data)
         = Returns (with_packet_buf (HandleResponse p tv pv (length pv)).1 junk 0,
                    (HandleResponse p tv pv (length pv)).2)).
Proof.
  intros Hacc Hpl Hpv Hc data.
  assert (Hclen : length (corrupt_frame t pl c) = length pl + 7).
  { unfold corrupt_frame. rewrite !length_app. simpl. lia. }
  assert (Hdlen : length data = length pl + 7 + (length pv + 7)).
  { unfold data. by rewrite length_app, Hclen, wire_frame_length. }
  destruct (ProcessReceivedData_fits fuel p [] data (length data) Hacc)
    as (p1 & Hacc1 & Hsame1 & Hcall).
  { cbn [length Nat.add]. rewrite Hdlen. unfold sizeof_packet_buf. lia. }
  { done. }
  rewrite firstn_all in Hacc1. cbn [app] in Hacc1.
  (* first pass: the corrupt packet is complete and invalid *)
  assert (Hpass1 : parse_pass p1 = (drop_front p1 1, [], Continue)).
  { pose proof Hacc1 as Hshape. unfold data, corrupt_frame in Hshape.
    rewrite <- !app_assoc in Hshape. cbn [app] in Hshape.
    apply (parse_pass_skip p1 _ _ _ Hshape).
    - rewrite Nat2Z.id, !length_app. simpl. lia.
    - rewrite (accumulated_split _ _ Hacc1). destruct Hacc1 as (_ & -> & _).
      rewrite Hdlen. unfold data, corrupt_frame. rewrite <- !app_assoc.
      rewrite ParsePacket_bad_checksum; [done|lia|lia|done]. }
  assert (Hacc2 : accumulated (drop_front p1 1) (tail data)).
  { apply (drop_front_accumulated p1 data 1 Hacc1). lia. }
  exists p1. split; [done|]. split; [done|]. split; [done|]. split; [done|].
  split.
  { intros Hfuel. rewrite Hcall.
    destruct (parse_loop_terminates fuel p1) as (q & evs & Hq & _); [|by eauto].
    destruct Hacc1 as (_ & -> & _). done. }
  intros Hpair Hfuel.
  (* second pass: the rest of the corrupt frame is garbage *)
  set (g := tail (corrupt_frame t pl c)) in *.
  assert (Hg : tail data = g ++ wire_frame tv pv) by done.
  assert (Hglen : length g = length pl + 6).
  { unfold g, corrupt_frame. cbn [app tail length]. rewrite !length_app. simpl. lia. }
  assert (Hgpair : has_start_pair (g ++ [0x55%Z]) = false).
  { assert (Hgl : g = ([0x55; t; Z.of_nat (length pl)]%Z ++ pl ++ [c; 0xAA]%Z) ++ [0xAA%Z]).
    { unfold g, corrupt_frame. cbn [app tail]. by rewrite <- !app_assoc. }
    rewrite Hgl, has_start_pair_snoc by done. by rewrite <- Hgl. }
  assert (Hpass2 : parse_pass (drop_front p1 1)
                   = parse_pass (drop_front (drop_front p1 1) (length g))).
  { rewrite Hg in Hacc2. unfold wire_frame in Hacc2 at 1. cbn [app] in Hacc2.
    apply (parse_pass_garbage _ _ _ Hacc2); [|done].
    intros E. rewrite E in Hglen. simpl in Hglen. lia. }
  set (p3 := drop_front (drop_front p1 1) (length g)) in *.
  assert (Hacc3 : accumulated p3 (wire_frame tv pv ++ [])).
  { rewrite app_nil_r, <- (drop_app_length g (wire_frame tv pv)), <- Hg.
    apply drop_front_accumulated; [done|]. rewrite Hg, length_app. lia. }
  assert (Hsame3 : same_device p3 p).
  { eapply same_device_trans; [apply same_device_drop_front|].
    eapply same_device_trans; [apply same_device_drop_front|done]. }
  destruct (parse_loop_frame 1 p3 p tv pv [] Hacc3 Hsame3) as (junk & Hloop3 & _);
    [lia|simpl; lia|done|].
  exists junk. rewrite Hcall.
  destruct fuel as [|[|fuel]]; [lia|lia|].
  pose proof Hacc1 as (_ & Hl1 & _).
  pose proof Hacc2 as (_ & Hl2 & _). rewrite Hg, length_app, wire_frame_length in Hl2.
  cbn [parse_loop] in *.
  destruct (Nat.ltb_spec (packet_buf_len_ p1) 7) as [?|_]; [lia|].
  rewrite Hpass1.
  destruct (Nat.ltb_spec (packet_buf_len_ (drop_front p1 1)) 7) as [?|_]; [lia|].
  rewrite Hpass2.
  destruct (Nat.ltb_spec (packet_buf_len_ p3) 7) as [?|_].
  { destruct Hacc3 as (_ & Hl3 & _).
    rewrite app_nil_r, wire_frame_length in Hl3. lia. }
  destruct (parse_pass p3) as [[q e] fl]. destruct fl; [|done].
  assert (Hq : packet_buf_len_ q < 7).
  { destruct (packet_buf_len_ q <? 7) eqn:E; [by apply Nat.ltb_lt|done]. }
  rewrite (parse_loop_short fuel q Hq).
  destruct (Nat.ltb_spec (packet_buf_len_ q) 7) as [_|?]; [|lia].
  cbn [app]. rewrite app_nil_r in *. done.
Qed.
(** C4.  Across any sequence of handled frames and [Reset] calls, on every
    printer: a call takes the ready flag from false to true exactly when it
    handles a heartbeat response of at least 9 bytes while the flag is
    false; only [Reset] takes the flag back to false; and after a [Reset] a
    stretch of frames leaves the flag set exactly when it holds such a
    heartbeat.  On a printer with a ready callback installed, the callback
    is invoked once in exactly the calls that set the flag and in no other,
    and so once in a stretch of frames after a [Reset] that holds such a
    heartbeat and not at all in one that holds none.  On a printer without
    one, no callback is invoked. *)
Theorem ready_flag_lifecycle (p0 : NiimbotPrinter) (before : list input) (i : input)
    (frames : list input) :
  let p := (run p0 before).1 in
  let q := (step p i).1 in
  ((ready_ p = false ∧ ready_ q = true) ↔ (ready_ p = false ∧ is_heartbeat9 i = true))
  ∧ (ready_ p = true → ready_ q = false → i = ResetCall)
  ∧ (forallb (λ f, negb (is_reset f)) frames = true →
     ready_ (run (Reset p) frames).1 = existsb is_heartbeat9 frames)
  ∧ (ready_callback_ p0 = true →
     ready_fired (step p i).2 = (if negb (ready_ p) && ready_ q then 1 else 0)
     ∧ (forallb (λ f, negb (is_reset f)) frames = true →
        ready_fired (run (Reset p) frames).2
        = (if existsb is_heartbeat9 frames then 1 else 0)))
  ∧ (ready_callback_ p0 = false →
     ready_fired (step p i).2 = 0 ∧ ready_fired (run (Reset p) frames).2 = 0).
Proof.
  intros p q.
  assert (Hcbp : ready_callback_ p = ready_callback_ p0)
    by (unfold p; by rewrite run_ready_callback).
  split; [|split; [|split; [|split]]].
  - unfold q. destruct i as [t d n|]; cbn [step fst].
    + rewrite HandleResponse_ready.
      destruct (ready_ p), (is_heartbeat9 (Frame t d n)); simpl; intuition done.
    + simpl. intuition done.
  - unfold q. destruct i as [t d n|]; cbn [step fst]; [|done].
    rewrite HandleResponse_ready. intros ->. done.
  - intros Hframes. destruct (run_frames (Reset p) frames Hframes) as [Hr _].
    rewrite Hr. reflexivity.
  - intros Hcb. rewrite Hcb in Hcbp. split.
    + unfold q. destruct i as [t d n|]; cbn [step fst snd].
      * rewrite HandleResponse_fired, HandleResponse_ready, Hcbp.
        by destruct (ready_ p), (is_heartbeat9 (Frame t d n)).
      * simpl. by destruct (ready_ p).
    + intros Hframes. destruct (run_frames (Reset p) frames Hframes) as [_ Hf].
      rewrite Hf. cbn [Reset ready_ with_status with_packet_buf with_ready
                         ready_callback_].
      rewrite Hcbp. cbn [negb andb]. by rewrite andb_true_r.
  - intros Hcb. rewrite Hcb in Hcbp. split.
    + apply (run_no_callback p [i]) in Hcbp. cbn [run] in Hcbp.
      destruct (step p i) as [r e]. cbn [fst snd] in *.
      by rewrite app_nil_r in Hcbp.
    + apply run_no_callback. exact Hcbp.
Qed.
(** C5.  Handling a heartbeat response (type 0xDD) with a 13-byte payload
    sets closing_state, power_level, paper_state and rfid_read_state to the
    payload bytes at offsets 9, 10, 11 and 12; handling one with a 9-byte
    payload sets closing_state to the byte at offset 8 and leaves the other
    three fields as they were. *)
Theorem heartbeat_status_layout (p : NiimbotPrinter) (data : list Z) :
  status_ (HandleResponse p 0xDD data 13).1
  = MkStatus data.[9] data.[10] data.[11] data.[12]
  ∧ status_ (HandleResponse p 0xDD data 9).1
    = MkStatus data.[8] (power_level (status_ p)) (paper_state (status_ p))
               (rfid_read_state (status_ p)).
Proof.
  unfold HandleResponse. cbn [Z.eqb Pos.eqb Nat.leb andb].
  split; cbn zeta iota; cbn [ready_ with_status]; by destruct (ready_ p).
Qed.

(** C6.  On a ready printer, for every image and whatever the 48 bytes of
    the row buffer hold when [Print] is entered, [Print] issues the commands
    of [print_plan] in order: set density, set label type, start print,
    start page, set page dimensions (row count [min (image.h, 240)], 384
    columns, one copy), one bitmap-row command for each row index from 0 up
    to the capped row count, carrying the row buffer as the decoder left
    it, end page, end print.  If every step succeeds all of them are issued
    and [Print] returns [ESP_OK]; the first step that fails -- its write
    acknowledgement does not arrive in time, or no send callback is
    installed -- makes [Print] return that step's error at once, and no
    later command is issued. *)
Theorem print_sequence (write_completes : nat → bool)
    (decode_rle_row_1bpp : RleImage → Z → list Z → nat → list Z)
    (row_data : list Z) (image : RleImage) (w : World) :
  (∀ img y buf n, length (decode_rle_row_1bpp img y buf n) = length buf) →
  length row_data = 48 →
  ready_ (w_printer w) = true →
  let plan := print_plan decode_rle_row_1bpp row_data image in
  let rows := Z.to_nat (Z.min (img_h image) kPaperHeightDots) in
  let result := Print_from write_completes decode_rle_row_1bpp row_data image w in
  let fails k :=
    bool_decide (is_Some (write_semaphore_ (w_printer w)))
    && negb (write_completes (w_waits w + k)) in
  (send_callback_ (w_printer w) = false →
   result = (ESP_ERR_INVALID_STATE, w))
  ∧ (send_callback_ (w_printer w) = true →
     (∀ k, k < length plan → fails k = false) →
     result.1 = ESP_OK ∧ w_sent result.2 = w_sent w ++ plan)
  ∧ (send_callback_ (w_printer w) = true →
     ∀ k, k < length plan → (∀ j, j < k → fails j = false) → fails k = true →
          result.1 = ESP_ERR_TIMEOUT ∧ w_sent result.2 = w_sent w ++ take (S k) plan)
  ∧ length plan = 5 + rows + 2
  ∧ (∀ y, y < rows →
       ∃ row, length row = 48
         ∧ plan !! (5 + y)
           = Some (command PRINT_BITMAP_ROW (be16 (Z.of_nat y) ++ [0; 0; 0; 1]%Z ++ row))).
Proof.
  intros Hdec Hrow Hready plan rows result fails. split; [|split; [|split; [|split]]].
  - intros Hcb. unfold result, Print_from. rewrite Hready. cbn [negb].
    unfold on_ok, SetLabelDensity, SendPacket. by rewrite Hcb.
  - intros Hcb Hok. unfold result.
    rewrite (Print_runs_plan _ _ Hdec _ Hrow) by done. by apply run_plan_ok.
  - intros Hcb k Hk Hbefore Hfail. unfold result.
    rewrite (Print_runs_plan _ _ Hdec _ Hrow) by done.
    unfold fails in *. apply andb_true_iff in Hfail as [Hsem Hto].
    apply run_plan_timeout; [done|by apply bool_decide_eq_true in Hsem| |].
    + intros j Hj. specialize (Hbefore j Hj). rewrite Hsem in Hbefore.
      by destruct (write_completes (w_waits w + j)).
    + by destruct (write_completes (w_waits w + k)).
  - unfold plan, print_plan. cbv zeta.
    rewrite !length_app, length_map, length_seq. reflexivity.
  - intros y Hy. exists (row_data_after decode_rle_row_1bpp row_data image y).
    split; [by apply (row_data_after_length _ Hdec _ Hrow)|].
    unfold plan, print_plan. cbv zeta. fold rows.
    rewrite lookup_app_r by (simpl; lia).
    rewrite lookup_app_l by (rewrite length_map, length_seq; simpl; lia).
    replace (5 + y - length _) with y by (simpl; lia).
    rewrite list_lookup_fmap, lookup_seq_lt by done. reflexivity.
Qed.

(** C7 (as amended).  For every type and payload of 0 to 248 bytes:
    flipping any single bit of any payload byte of the built frame makes
    [ParsePacket] leave through the checksum-mismatch exit.  Flipping a
    single bit of the length byte changes the declared length, to [n], and
    changes the XOR fold, and the checks decide in source order: when [n]
    exceeds the payload length the parse is incomplete; otherwise the end
    markers are wrong unless the frame bytes at offsets [5 + n] and [6 + n]
    are both 0xAA, and then the checksum mismatches unless the XOR of the
    type, [n] and the first [n] payload bytes is the frame byte at offset
    [4 + n], in which case the flipped frame is accepted, with the frame's
    type and [n] payload bytes. *)
Theorem bit_flip_detected (buf : list Z) (buf_size : nat) (type : Z)
    (data : list Z) (bit : Z) (t0 : Z) (out : list Z) (l0 : nat) :
  length data ≤ 248 → length data + 7 ≤ buf_size → buf_size ≤ length buf →
  (0 ≤ bit < 8)%Z →
  let '(pkt, pkt_len) := BuildPacket buf buf_size type data (length data) in
  let n := Z.to_nat (Z.lxor pkt.[3] (2 ^ bit)) in
  let r := ParsePacket (<[3 := Z.lxor pkt.[3] (2 ^ bit)]> pkt) pkt_len t0 out l0 in
  (∀ i, i < length data →
        p_exit (ParsePacket (<[4 + i := Z.lxor pkt.[4 + i] (2 ^ bit)]> pkt)
                  pkt_len t0 out l0)
        = ExitChecksumMismatch)
  ∧ n ≠ length data
  ∧ xor_fold type (Z.lxor pkt.[3] (2 ^ bit)) data ≠ xor_fold type pkt.[3] data
  ∧ p_exit r
    = (if decide (length data < n) then ExitIncomplete
       else if decide (pkt.[5 + n] = 0xAA%Z ∧ pkt.[6 + n] = 0xAA%Z) then
         if decide (xor_fold type (Z.of_nat n) (take n data) = pkt.[4 + n])
         then ExitOk else ExitChecksumMismatch
       else ExitBadEnd)
  ∧ (p_exit r = ExitOk → p_type r = type ∧ p_data_len r = n ∧ n < length data).
Proof.
  intros H248 Hsize Hbuf Hbit.
  rewrite BuildPacket_layout by lia. rewrite firstn_all.
  set (rest := drop _ buf). cbv beta iota zeta.
  assert (H3 : (wire_frame type data ++ rest).[3] = Z.of_nat (length data))
    by reflexivity.
  rewrite !H3. clear H3.
  destruct (bit_byte bit Hbit) as [Hd Hd0].
  assert (Hl' : is_byte (Z.lxor (Z.of_nat (length data)) (2 ^ bit))).
  { apply lxor_byte; [unfold is_byte; lia|done]. }
  pose proof (lxor_changes (Z.of_nat (length data)) (2 ^ bit) Hd0) as Hne.
  split; [|split; [|split]].
  - intros i Hi. unfold wire_frame. cbn [app Nat.add].
    rewrite !rd_cons_S, <- !app_assoc, rd_app_l by done.
    match goal with
    | |- context [<[S (S (S (S i))) := ?x]> (?a :: ?b :: ?c :: ?d :: ?l)] =>
        change (<[S (S (S (S i))) := x]> (a :: b :: c :: d :: l))
          with (a :: b :: c :: d :: <[i := x]> l)
    end.
    rewrite insert_app_l by done.
    pose proof (ParsePacket_bad_checksum type (xor_fold type (Z.of_nat (length data)) data)
                  (<[i:=Z.lxor data.[i] (2 ^ bit)]> data) rest (length data + 7) t0 out l0)
      as Hparse.
    rewrite length_insert in Hparse. cbn [app] in Hparse. apply Hparse; [lia|lia|].
    unfold xor_fold. rewrite fold_lxor_insert by done.
    intros E. symmetry in E. revert E. by apply lxor_changes.
  - unfold is_byte in Hl'. lia.
  - rewrite xor_fold_length. by apply lxor_changes.
  - apply (ParsePacket_length_replaced type _ data rest t0 out l0);
      [lia|exact Hl'|exact Hne].
Qed.
(** C8.  A frame delivered in two pieces: for every frame (payload of up to
    255 bytes) and every split point strictly inside it, the call on the
    first piece, starting from an empty accumulator, returns without
    handling anything, and the call on the second piece returns having
    handled exactly that frame, with the accumulator empty again.  One
    execution of the loop body is enough for either call. *)
Theorem split_frame_delivery (fuel1 fuel2 : nat) (p : NiimbotPrinter) (t : Z)
    (pl : list Z) (k : nat) :
  accumulated p [] → length pl ≤ 255 → 0 < k < length pl + 7 →
  1 ≤ fuel1 → 1 ≤ fuel2 →
  ∃ p1 junk,
    ProcessReceivedData fuel1 p (take k (wire_frame t pl)) k = Returns (p1, [])
    ∧ ProcessReceivedData fuel2 p1 (drop k (wire_frame t pl))
        (length (wire_frame t pl) - k)
      = Returns (with_packet_buf (HandleResponse p t pl (length pl)).1 junk 0,
                 (HandleResponse p t pl (length pl)).2)
    ∧ handled (HandleResponse p t pl (length pl)).2 = [(t, pl)].
Proof.
  intros Hacc H255 Hk Hf1 Hf2.
  pose proof (wire_frame_length t pl) as Hlen.
  destruct (ProcessReceivedData_fits fuel1 p [] (take k (wire_frame t pl)) k Hacc)
    as (p1 & Hacc1 & Hsame1 & Hcall1).
  { simpl. unfold sizeof_packet_buf. lia. }
  { rewrite length_take. lia. }
  rewrite take_take, Nat.min_id in Hacc1. cbn [app] in Hacc1.
  assert (Hloop1 : parse_loop fuel1 p1 = Returns (p1, [])).
  { destruct (decide (k < 7)) as [Hk7|Hk7].
    - apply parse_loop_short. destruct Hacc1 as (_ & -> & _).
      rewrite length_take. lia.
    - destruct fuel1 as [|fuel1]; [lia|]. cbn [parse_loop].
      pose proof Hacc1 as (_ & Hl1 & _). rewrite length_take, Hlen in Hl1.
      destruct (Nat.ltb_spec (packet_buf_len_ p1) 7) as [?|_]; [lia|].
      replace k with (4 + (k - 4)) in Hacc1 by lia.
      unfold wire_frame in Hacc1. cbn [app take Nat.add] in Hacc1.
      rewrite (parse_pass_incomplete p1 _ _ _ Hacc1);
        [done| |]; rewrite length_take, length_app; simpl; rewrite ?Nat2Z.id; lia. }
  destruct (ProcessReceivedData_fits fuel2 p1 (take k (wire_frame t pl))
              (drop k (wire_frame t pl)) (length (wire_frame t pl) - k) Hacc1)
    as (p2 & Hacc2 & Hsame2 & Hcall2).
  { rewrite length_take, Hlen. unfold sizeof_packet_buf. lia. }
  { rewrite length_drop. lia. }
  rewrite (take_ge (drop k (wire_frame t pl))) in Hacc2 by (rewrite length_drop; lia).
  rewrite take_drop in Hacc2.
  rewrite <- (app_nil_r (wire_frame t pl)) in Hacc2.
  destruct (parse_loop_frame fuel2 p2 p t pl [] Hacc2) as (junk & Hloop2 & _);
    [by eapply same_device_trans|done|simpl; lia|done|].
  exists p1, junk. split; [by rewrite Hcall1|]. split; [by rewrite Hcall2|].
  unfold HandleResponse, handled. rewrite firstn_all.
  destruct (t =? 219)%Z; [done|].
  destruct ((t =? 221)%Z && (9 <=? length pl)); [|done].
  cbn zeta. destruct (negb _); [|done].
  by destruct (ready_callback_ _).
Qed.
(** C9 (as amended).  Whenever [BuildPacket] is given a buffer of at most
    262 bytes -- such as the 256-byte buffer of [SendPacket], its only
    caller -- it either refuses (returns 0 and leaves the buffer alone,
    exactly when the payload and 7 bytes of framing do not fit) or produces
    a frame whose payload has at most [buf_size - 7] bytes and whose length
    byte equals the payload length. *)
Theorem BuildPacket_length_byte (buf : list Z) (buf_size : nat) (type : Z)
    (data : list Z) (data_len : nat) :
  buf_size ≤ length buf → buf_size ≤ 262 → data_len ≤ length data →
  let '(pkt, pkt_len) := BuildPacket buf buf_size type data data_len in
  (pkt_len = 0 ∧ pkt = buf ∧ buf_size < data_len + 7)
  ∨ (pkt_len = data_len + 7 ∧ data_len + 7 ≤ buf_size
     ∧ pkt.[3] = Z.of_nat data_len
     ∧ take pkt_len pkt = wire_frame type (take data_len data)).
Proof.
  intros Hbuf H262 Hdata.
  destruct (decide (buf_size < data_len + 7)) as [Hsmall|Hfits].
  - unfold BuildPacket.
    destruct (Nat.ltb_spec buf_size (data_len + 7)) as [_|?]; [by left|lia].
  - rewrite BuildPacket_layout by lia. right.
    assert (Hl : length (take data_len data) = data_len)
      by (rewrite length_take; lia).
    repeat split; [lia| |].
    + unfold wire_frame. cbn [app]. rewrite Hl. reflexivity.
    + apply take_app_length'. by rewrite wire_frame_length, Hl.
Qed.

(** C10.  While the device-ready flag is false, [Print] returns the
    invalid-state error at once, for every image: the send callback is not
    invoked and neither the printer object nor anything else changes. *)
Theorem print_requires_ready (write_completes : nat → bool)
    (decode_rle_row_1bpp : RleImage → Z → list Z → nat → list Z)
    (image : RleImage) (w : World) :
  IsReady (w_printer w) = false →
  Print write_completes decode_rle_row_1bpp image w = (ESP_ERR_INVALID_STATE, w).
Proof.
  unfold IsReady, Print, Print_from. by intros ->.
Qed.

(** ** Concrete inputs *)

(** [build_parse_roundtrip] for type 1 and payload [7; 8] in a 16-byte
    buffer. *)
Lemma build_parse_roundtrip_witness :
  let '(pkt, pkt_len) := BuildPacket (replicate 16 0%Z) 16 1 [7; 8]%Z (length [7; 8]%Z) in
  let r := ParsePacket pkt pkt_len 0 (replicate 4 0%Z) 0 in
  pkt_len = length [7; 8]%Z + 7
  ∧ take pkt_len pkt
    = [0x55; 0x55; 1; Z.of_nat (length [7; 8]%Z)]%Z ++ [7; 8]%Z
      ++ [fold_left Z.lxor [7; 8]%Z (Z.lxor 1 (Z.of_nat (length [7; 8]%Z))); 0xAA; 0xAA]%Z
  ∧ Forall is_byte (take pkt_len pkt)
  ∧ returned (p_exit r) = true
  ∧ p_type r = 1%Z
  ∧ p_data_len r = length [7; 8]%Z
  ∧ take (p_data_len r) (p_data r) = [7; 8]%Z.
Proof.
  apply (build_parse_roundtrip (replicate 16 0%Z) 16 1 [7; 8]%Z 0 (replicate 4 0%Z) 0).
  - unfold is_byte. lia.
  - repeat apply Forall_cons_2; try apply Forall_nil_2; unfold is_byte; lia.
  - simpl. lia.
  - simpl. lia.
  - simpl. lia.
  - simpl. lia.
Defined.

(** C2, as stated, fails.  A fresh printer receives the first 8 bytes of a
    frame; a delivery of 505 bytes, holding no frame but ending in the first
    5 bytes of one, overflows the accumulator.  After that call the
    accumulator is not empty: it holds those 5 bytes, and the next delivery
    completes the frame, which is handled. *)
Lemma overflow_keeps_frame_fragment :
  match ProcessReceivedData 512 new_printer [0x55; 0x55; 1; 9; 1; 2; 3; 4]%Z 8 with
  | Returns (p0, evs0) =>
      evs0 = []
      ∧ sizeof_packet_buf < packet_buf_len_ p0 + 505
      ∧ match ProcessReceivedData 512 p0
                (replicate 500 0%Z ++ [0x55; 0x55; 2; 1; 7]%Z) 505 with
        | Returns (p1, evs1) =>
            evs1 = []
            ∧ take (packet_buf_len_ p1) (packet_buf_ p1) = [0x55; 0x55; 2; 1; 7]%Z
            ∧ match ProcessReceivedData 512 p1 [4; 0xAA; 0xAA]%Z 3 with
              | Returns (p2, evs2) => evs2 = [EvResponse 2 [7%Z]]
              | _ => False
              end
        | _ => False
        end
  | _ => False
  end.
Proof. vm_compute. repeat split. repeat constructor. Qed.

(** [overflow_discards_old_bytes] for 8 accumulated bytes and a delivery
    of 505 zero bytes. *)
Lemma overflow_discards_old_bytes_witness :
  ∃ p' q evs,
    accumulated p' (take 505 (replicate 505 0%Z))
    ∧ same_device p' (with_packet_buf new_printer (replicate 512 0%Z) 8)
    ∧ ProcessReceivedData 512 (with_packet_buf new_printer (replicate 512 0%Z) 8)
        (replicate 505 0%Z) 505 = parse_loop 512 p'
    ∧ ProcessReceivedData 512 (with_packet_buf new_printer (replicate 512 0%Z) 8)
        (replicate 505 0%Z) 505
      = ProcessReceivedData 512
          (with_packet_buf (with_packet_buf new_printer (replicate 512 0%Z) 8)
             (packet_buf_ (with_packet_buf new_printer (replicate 512 0%Z) 8)) 0)
          (replicate 505 0%Z) 505
    ∧ ProcessReceivedData 512 (with_packet_buf new_printer (replicate 512 0%Z) 8)
        (replicate 505 0%Z) 505 = Returns (q, evs)
    ∧ packet_buf_len_ q ≤ 505
    ∧ length (packet_buf_ q) = sizeof_packet_buf.
Proof.
  apply (overflow_discards_old_bytes 512
           (with_packet_buf new_printer (replicate 512 0%Z) 8) (replicate 505 0%Z) 505).
  - vm_compute. reflexivity.
  - unfold sizeof_packet_buf. lia.
  - rewrite length_replicate. lia.
  - unfold sizeof_packet_buf. simpl. lia.
  - unfold sizeof_packet_buf. lia.
Defined.

(** C3, as stated, fails.  The corrupt frame has type 0x55 and payload
    [0xFF] with checksum 0 instead of 0xAB; the valid frame has type 1 and
    no payload.  After the one-byte skip the accumulator starts with
    [0x55 0x55 0x01 0xFF]: a start marker and a declared length of 255.  The
    call returns to wait for more data, and the valid frame is not handled. *)
Lemma resync_waits_on_false_start_marker :
  xor_fold 0x55 1 [0xFF%Z] = 0xAB%Z
  ∧ match ProcessReceivedData 512 new_printer
            (corrupt_frame 0x55 [0xFF%Z] 0 ++ wire_frame 1 []) 15 with
    | Returns (q, evs) =>
        evs = []
        ∧ take (packet_buf_len_ q) (packet_buf_ q)
          = [0x55; 0x55; 1; 0xFF; 0; 0xAA; 0xAA]%Z ++ wire_frame 1 []
    | _ => False
    end.
Proof. vm_compute. repeat split. Qed.

(** [resync_after_bad_checksum] for a corrupt frame of type 1 with payload
    [5] and a valid frame of type 2 with payload [7]. *)
Lemma resync_after_bad_checksum_witness :
  let data := corrupt_frame 1 [5%Z] 0 ++ wire_frame 2 [7%Z] in
  ∃ p1,
    accumulated p1 data
    ∧ ProcessReceivedData 2 new_printer data (length data) = parse_loop 2 p1
    ∧ parse_pass p1 = (drop_front p1 1, [], Continue)
    ∧ accumulated (drop_front p1 1) (tail data)
    ∧ (length data < 2 + 7 →
       ∃ q evs, ProcessReceivedData 2 new_printer data (length data) = Returns (q, evs))
    ∧ (has_start_pair (tail (corrupt_frame 1 [5%Z] 0)) = false → 2 ≤ 2 →
       ∃ junk,
         ProcessReceivedData 2 new_printer data (length data)
         = Returns (with_packet_buf (HandleResponse new_printer 2 [7%Z] (length [7%Z])).1 junk 0,
                    (HandleResponse new_printer 2 [7%Z] (length [7%Z])).2)).
Proof.
  apply (resync_after_bad_checksum 2 new_printer 1 0 [5%Z] 2 [7%Z]).
  - repeat split.
  - simpl. lia.
  - simpl. lia.
  - vm_compute. discriminate.
Defined.

(** [ready_flag_lifecycle] after a [Reset], for a 9-byte heartbeat, on a
    printer with a ready callback: the flag goes up and the callback is
    invoked once, also when the heartbeat comes twice. *)
Lemma ready_flag_lifecycle_witness :
  let p := (run (SetReadyCallback new_printer) [ResetCall]).1 in
  let i := Frame 0xDD (replicate 9 0%Z) 9 in
  ready_callback_ (SetReadyCallback new_printer) = true
  ∧ forallb (λ f, negb (is_reset f)) [i; i] = true
  ∧ ready_ p = false ∧ ready_ (step p i).1 = true
  ∧ ready_fired (step p i).2 = 1
  ∧ ready_ (run (Reset p) [i; i]).1 = true
  ∧ ready_fired (run (Reset p) [i; i]).2 = 1.
Proof.
  intros p i.
  destruct (ready_flag_lifecycle (SetReadyCallback new_printer) [ResetCall] i [i; i])
    as (Hup & _ & Hflag & Hcb & _).
  destruct (Hcb eq_refl) as [Hone Hstretch].
  destruct (proj2 Hup (conj eq_refl eq_refl)) as [Hp Hq].
  split; [reflexivity|]. split; [reflexivity|].
  split; [exact Hp|]. split; [exact Hq|].
  split; [exact Hone|]. split; [exact (Hflag eq_refl)|exact (Hstretch eq_refl)].
Defined.

(** [print_sequence] for a two-row image, a transport that acknowledges
    every write, a row buffer that holds 0xA5 in every byte on entry and a
    decoder that writes the row index into the first byte only. *)
Lemma print_sequence_witness :
  let write_completes := λ _ : nat, true in
  let decode := λ (_ : RleImage) (y : Z) (buf : list Z) (_ : nat), <[0 := y]> buf in
  let row_data := replicate 48 0xA5%Z in
  let image := MkRleImage 384 2 [] [] in
  let w := MkWorld (with_ready (SetSendCallback new_printer) true) [] 0 in
  let plan := print_plan decode row_data image in
  let rows := Z.to_nat (Z.min (img_h image) kPaperHeightDots) in
  let result := Print_from write_completes decode row_data image w in
  let fails k :=
    bool_decide (is_Some (write_semaphore_ (w_printer w)))
    && negb (write_completes (w_waits w + k)) in
  (send_callback_ (w_printer w) = false →
   result = (ESP_ERR_INVALID_STATE, w))
  ∧ (send_callback_ (w_printer w) = true →
     (∀ k, k < length plan → fails k = false) →
     result.1 = ESP_OK ∧ w_sent result.2 = w_sent w ++ plan)
  ∧ (send_callback_ (w_printer w) = true →
     ∀ k, k < length plan → (∀ j, j < k → fails j = false) → fails k = true →
          result.1 = ESP_ERR_TIMEOUT ∧ w_sent result.2 = w_sent w ++ take (S k) plan)
  ∧ length plan = 5 + rows + 2
  ∧ (∀ y, y < rows →
       ∃ row, length row = 48
         ∧ plan !! (5 + y)
           = Some (command PRINT_BITMAP_ROW (be16 (Z.of_nat y) ++ [0; 0; 0; 1]%Z ++ row))).
Proof.
  apply (print_sequence (λ _ : nat, true)
           (λ (_ : RleImage) (y : Z) (buf : list Z) (_ : nat), <[0 := y]> buf)
           (replicate 48 0xA5%Z)
           (MkRleImage 384 2 [] [])
           (MkWorld (with_ready (SetSendCallback new_printer) true) [] 0)).
  - intros img y buf n. apply length_insert.
  - reflexivity.
  - reflexivity.
Defined.

(** C7, as stated, fails for the length byte.  In the frame of type 1 with
    payload [1; 0xAA; 0xAA; 9], flipping bit 2 of the length byte, from 4
    to 0, changes the XOR of type, length and payload, yet [ParsePacket]
    accepts the flipped bytes: as a frame of type 1 with no payload, whose
    checksum is the former first payload byte and whose end markers are the
    two payload bytes behind it. *)
Lemma length_bit_flip_accepted :
  let '(pkt, pkt_len) :=
    BuildPacket (replicate 256 0%Z) 256 1 [1; 0xAA; 0xAA; 9]%Z 4 in
  let flipped := <[3 := Z.lxor pkt.[3] (2 ^ 2)]> pkt in
  let r := ParsePacket flipped pkt_len 0 (replicate 256 0%Z) 0 in
  take pkt_len pkt = [0x55; 0x55; 1; 4; 1; 0xAA; 0xAA; 9; 0x0D; 0xAA; 0xAA]%Z
  ∧ take pkt_len flipped = [0x55; 0x55; 1; 0; 1; 0xAA; 0xAA; 9; 0x0D; 0xAA; 0xAA]%Z
  ∧ xor_fold flipped.[2] flipped.[3] [1; 0xAA; 0xAA; 9]%Z
    ≠ xor_fold pkt.[2] pkt.[3] [1; 0xAA; 0xAA; 9]%Z
  ∧ p_exit r = ExitOk ∧ returned (p_exit r) = true
  ∧ p_type r = 1%Z ∧ p_data_len r = 0
  ∧ p_exit r ≠ ExitChecksumMismatch.
Proof. vm_compute. repeat split; discriminate. Qed.

(** A flip that raises the declared length: in the frame of type 0 with no
    payload, flipping bit 0 of the length byte changes the XOR of type,
    length and payload, and [ParsePacket] leaves through the
    incomplete-packet exit and not through the checksum-mismatch one. *)
Lemma length_bit_flip_reads_incomplete :
  let '(pkt, pkt_len) := BuildPacket (replicate 256 0%Z) 256 0 [] 0 in
  let flipped := <[3 := Z.lxor pkt.[3] (2 ^ 0)]> pkt in
  xor_fold flipped.[2] flipped.[3] [] ≠ xor_fold pkt.[2] pkt.[3] []
  ∧ p_exit (ParsePacket flipped pkt_len 0 (replicate 256 0%Z) 0) = ExitIncomplete
  ∧ p_exit (ParsePacket flipped pkt_len 0 (replicate 256 0%Z) 0) ≠ ExitChecksumMismatch.
Proof. vm_compute. repeat split; discriminate. Qed.

(** [bit_flip_detected] for type 1, payload [7; 8] and bit 1: the length
    byte goes from 2 to 0, and the end markers are looked for in the
    payload. *)
Lemma bit_flip_detected_witness :
  let '(pkt, pkt_len) := BuildPacket (replicate 16 0%Z) 16 1 [7; 8]%Z (length [7; 8]%Z) in
  let n := Z.to_nat (Z.lxor pkt.[3] (2 ^ 1)) in
  let r := ParsePacket (<[3 := Z.lxor pkt.[3] (2 ^ 1)]> pkt) pkt_len 0 (replicate 4 0%Z) 0 in
  (∀ i, i < length [7; 8]%Z →
        p_exit (ParsePacket (<[4 + i := Z.lxor pkt.[4 + i] (2 ^ 1)]> pkt)
                  pkt_len 0 (replicate 4 0%Z) 0)
        = ExitChecksumMismatch)
  ∧ n ≠ length [7; 8]%Z
  ∧ xor_fold 1 (Z.lxor pkt.[3] (2 ^ 1)) [7; 8]%Z ≠ xor_fold 1 pkt.[3] [7; 8]%Z
  ∧ p_exit r
    = (if decide (length [7; 8]%Z < n) then ExitIncomplete
       else if decide (pkt.[5 + n] = 0xAA%Z ∧ pkt.[6 + n] = 0xAA%Z) then
         if decide (xor_fold 1 (Z.of_nat n) (take n [7; 8]%Z) = pkt.[4 + n])
         then ExitOk else ExitChecksumMismatch
       else ExitBadEnd)
  ∧ (p_exit r = ExitOk → p_type r = 1%Z ∧ p_data_len r = n ∧ n < length [7; 8]%Z).
Proof.
  apply (bit_flip_detected (replicate 16 0%Z) 16 1 [7; 8]%Z 1 0 (replicate 4 0%Z) 0).
  - simpl. lia.
  - simpl. lia.
  - simpl. lia.
  - lia.
Defined.

(** [split_frame_delivery] for the frame of type 1 with payload [7; 8],
    split after its third byte. *)
Lemma split_frame_delivery_witness :
  ∃ p1 junk,
    ProcessReceivedData 1 new_printer (take 3 (wire_frame 1 [7; 8]%Z)) 3 = Returns (p1, [])
    ∧ ProcessReceivedData 1 p1 (drop 3 (wire_frame 1 [7; 8]%Z))
        (length (wire_frame 1 [7; 8]%Z) - 3)
      = Returns (with_packet_buf (HandleResponse new_printer 1 [7; 8]%Z (length [7; 8]%Z)).1 junk 0,
                 (HandleResponse new_printer 1 [7; 8]%Z (length [7; 8]%Z)).2)
    ∧ handled (HandleResponse new_printer 1 [7; 8]%Z (length [7; 8]%Z)).2 = [(1%Z, [7; 8]%Z)].
Proof.
  apply (split_frame_delivery 1 1 new_printer 1 [7; 8]%Z 3).
  - repeat split.
  - simpl. lia.
  - simpl. lia.
  - lia.
  - lia.
Defined.

(** C9, as stated, fails.  Into the 256-byte buffer that [SendPacket] uses,
    [BuildPacket] builds a frame for a payload of 249 bytes: 256 bytes in
    all, beyond the 248 and 255 of the claim. *)
Lemma BuildPacket_accepts_249_bytes :
  let '(pkt, pkt_len) := BuildPacket (replicate 256 0%Z) 256 0 (replicate 249 0%Z) 249 in
  pkt_len = 256 ∧ pkt.[3] = 249%Z ∧ 248 < 249 ∧ 255 < pkt_len.
Proof. vm_compute. repeat split; repeat constructor. Qed.

(** [BuildPacket_length_byte] for the 256-byte buffer and payload [7; 8]. *)
Lemma BuildPacket_length_byte_witness :
  let '(pkt, pkt_len) := BuildPacket (replicate 256 0%Z) 256 1 [7; 8]%Z 2 in
  (pkt_len = 0 ∧ pkt = replicate 256 0%Z ∧ 256 < 2 + 7)
  ∨ (pkt_len = 2 + 7 ∧ 2 + 7 ≤ 256
     ∧ pkt.[3] = Z.of_nat 2
     ∧ take pkt_len pkt = wire_frame 1 (take 2 [7; 8]%Z)).
Proof.
  apply (BuildPacket_length_byte (replicate 256 0%Z) 256 1 [7; 8]%Z 2).
  - rewrite length_replicate. lia.
  - lia.
  - simpl. lia.
Defined.

(** [print_requires_ready] for a fresh printer, which is not ready. *)
Lemma print_requires_ready_witness :
  Print (λ _ : nat, true) (λ (_ : RleImage) (_ : Z) (buf : list Z) (_ : nat), buf)
    (MkRleImage 384 2 [] []) (MkWorld new_printer [] 0)
  = (ESP_ERR_INVALID_STATE, MkWorld new_printer [] 0).
Proof.
  apply (print_requires_ready (λ _ : nat, true)
           (λ (_ : RleImage) (_ : Z) (buf : list Z) (_ : nat), buf)
           (MkRleImage 384 2 [] []) (MkWorld new_printer [] 0)).
  reflexivity.
Defined.

(* ================================================================== *)
(** * Part IV: further properties of the code *)
(* ================================================================== *)

(** ** The frame codec *)

Lemma rd_lookup (l : list Z) (i : nat) : i < length l → l !! i = Some l.[i].
Proof.
  intros H. unfold rd. destruct (lookup_lt_is_Some_2 l i H) as [x Hx]. by rewrite Hx.
Qed.

Lemma rd_eq_of_take (buf buf' : list Z) (len i : nat) :
  take len buf = take len buf' → i < len → buf.[i] = buf'.[i].
Proof.
  intros H Hi. rewrite <- (rd_take buf len i Hi), <- (rd_take buf' len i Hi).
  by rewrite H.
Qed.

(** Two arrays that agree on their first [len] bytes parse alike. *)
Lemma ParsePacket_local (buf buf' : list Z) (len : nat) (t0 : Z)
    (d0 : list Z) (l0 : nat) :
  take len buf = take len buf' →
  ParsePacket buf len t0 d0 l0 = ParsePacket buf' len t0 d0 l0.
Proof.
  intros H. unfold ParsePacket.
  destruct (Nat.ltb_spec len 7) as [|H7]; [done|].
  rewrite (rd_eq_of_take buf buf' len 0 H), (rd_eq_of_take buf buf' len 1 H),
    (rd_eq_of_take buf buf' len 2 H), (rd_eq_of_take buf buf' len 3 H) by lia.
  destruct (negb _ || negb _); [done|].
  destruct (Nat.ltb_spec len (Z.to_nat buf'.[3] + 7)) as [|Hn]; [done|].
  rewrite (rd_eq_of_take buf buf' len (5 + Z.to_nat buf'.[3]) H),
    (rd_eq_of_take buf buf' len (6 + Z.to_nat buf'.[3]) H),
    (rd_eq_of_take buf buf' len (4 + Z.to_nat buf'.[3]) H) by lia.
  destruct (negb _ || negb _); [done|].
  rewrite !(copy_loop (λ i, _.[4 + i]) 0).
  assert (Hseen : map (λ i, buf.[4 + i]) (seq 0 (Z.to_nat buf'.[3]))
                  = map (λ i, buf'.[4 + i]) (seq 0 (Z.to_nat buf'.[3]))).
  { apply map_ext_in. intros i Hi. apply in_seq in Hi.
    apply (rd_eq_of_take buf buf' len); [done|lia]. }
  by rewrite Hseen.
Qed.

(** X1.  [ParsePacket] reads [buf[0 .. len - 1]] and nothing else: an array
    that agrees with [buf] on the first [len] bytes gives the same result,
    and so does [buf] after a store at any index from [len] on. *)
Theorem ParsePacket_reads_within_len (buf : list Z) (len : nat) (t0 : Z)
    (d0 : list Z) (l0 : nat) :
  (∀ buf', take len buf' = take len buf →
           ParsePacket buf' len t0 d0 l0 = ParsePacket buf len t0 d0 l0)
  ∧ (∀ i x, len ≤ i →
            ParsePacket (<[i := x]> buf) len t0 d0 l0 = ParsePacket buf len t0 d0 l0).
Proof.
  split.
  - intros buf' H. by apply ParsePacket_local.
  - intros i x Hi. apply ParsePacket_local.
    destruct (decide (i < length buf)) as [Hlt|Hge].
    + rewrite take_insert_ge by lia. done.
    + rewrite list_insert_ge by lia. done.
Qed.

Lemma take_S_rd (l : list Z) (n : nat) :
  n < length l → take (S n) l = take n l ++ [l.[n]].
Proof. intros H. apply take_S_r. by apply rd_lookup. Qed.

(** An accepted packet is a wire frame. *)
Lemma ParsePacket_sound (buf : list Z) (len : nat) (t0 : Z)
    (d0 : list Z) (l0 : nat) :
  len ≤ length buf → is_byte buf.[3] → 255 ≤ length d0 →
  let r := ParsePacket buf len t0 d0 l0 in
  returned (p_exit r) = true →
  p_data_len r ≤ 255
  ∧ p_data_len r + 7 ≤ len
  ∧ take (p_data_len r + 7) buf = wire_frame (p_type r) (take (p_data_len r) (p_data r)).
Proof.
  intros Hlen Hb3 Hd0.
  destruct buf as [|s1 [|s2 [|t [|l body]]]];
    try (intros r; unfold r, ParsePacket; cbn [length] in Hlen;
         destruct (Nat.ltb_spec len 7); [done|lia]).
  change ((s1 :: s2 :: t :: l :: body).[3]) with l in Hb3.
  cbv zeta. rewrite ParsePacket_header. cbv zeta.
  set (n := Z.to_nat l).
  assert (Hn : n ≤ 255) by (unfold n, is_byte in *; lia).
  destruct (Nat.ltb_spec len 7) as [|H7]; [done|].
  destruct (Z.eqb_spec s1 85) as [->|]; [|done].
  destruct (Z.eqb_spec s2 85) as [->|]; [|done]. cbn [negb orb].
  destruct (Nat.ltb_spec len (n + 7)) as [|Hfull]; [done|].
  destruct (Z.eqb_spec body.[S n] 170) as [He1|]; [|done].
  destruct (Z.eqb_spec body.[S (S n)] 170) as [He2|]; [|done]. cbn [negb orb].
  cbn [length] in Hlen.
  rewrite map_rd_seq0 by lia.
  destruct (Z.eqb_spec (fold_left Z.lxor (take n body) (Z.lxor t (u8 (Z.of_nat n))))
              body.[n]) as [Hck|]; [|done].
  cbn [negb p_exit p_type p_data p_data_len returned]. intros _.
  split; [done|]. split; [lia|].
  assert (Hpl : length (take n body) = n) by (rewrite length_take; lia).
  rewrite list_inserts_0_prefix by lia.
  rewrite <- Hpl at 2. rewrite take_app_length.
  unfold wire_frame, xor_fold. rewrite Hpl.
  replace (n + 7) with (4 + (n + 3)) by lia. cbn [take Nat.add app].
  rewrite u8_small in Hck by done.
  assert (Hl : Z.of_nat n = l) by (unfold n, is_byte in *; lia).
  rewrite Hl in *. do 4 f_equal.
  replace (n + 3) with (S (S (S n))) by lia.
  rewrite (take_S_rd body (S (S n))), (take_S_rd body (S n)), (take_S_rd body n) by lia.
  rewrite He1, He2, <- Hck, <- !app_assoc. reflexivity.
Qed.

(** X2.  [ParsePacket] accepts exactly the wire frames: on an array of bytes
    it returns true if and only if the array begins with the frame
    [[0x55][0x55][type][len][payload][xor][0xAA][0xAA]] of some type and
    some payload of at most 255 bytes that lies within the first [len]
    bytes; and then it hands back that type and payload. *)
Theorem ParsePacket_accepts_only_frames (buf : list Z) (len : nat) (t0 : Z)
    (d0 : list Z) (l0 : nat) :
  len ≤ length buf → is_byte buf.[3] → 255 ≤ length d0 →
  let r := ParsePacket buf len t0 d0 l0 in
  (returned (p_exit r) = true ↔
   ∃ t pl, length pl ≤ 255 ∧ length pl + 7 ≤ len
           ∧ take (length pl + 7) buf = wire_frame t pl)
  ∧ (returned (p_exit r) = true →
     p_data_len r ≤ 255 ∧ p_data_len r + 7 ≤ len
     ∧ take (p_data_len r + 7) buf
       = wire_frame (p_type r) (take (p_data_len r) (p_data r))).
Proof.
  intros Hlen Hb3 Hd0. cbv zeta.
  pose proof (ParsePacket_sound buf len t0 d0 l0 Hlen Hb3 Hd0) as Hsound.
  cbv zeta in Hsound. split; [split|exact Hsound].
  - intros Hret. destruct (Hsound Hret) as (H255 & Hfit & Hframe).
    exists (p_type (ParsePacket buf len t0 d0 l0)),
      (take (p_data_len (ParsePacket buf len t0 d0 l0))
         (p_data (ParsePacket buf len t0 d0 l0))).
    assert (Hl : length (take (p_data_len (ParsePacket buf len t0 d0 l0))
                           (p_data (ParsePacket buf len t0 d0 l0)))
                 = p_data_len (ParsePacket buf len t0 d0 l0)).
    { apply (f_equal length) in Hframe.
      rewrite wire_frame_length, length_take in Hframe. lia. }
    rewrite Hl. done.
  - intros (t & pl & H255 & Hfit & Hframe).
    rewrite <- (take_drop (length pl + 7) buf), Hframe.
    rewrite ParsePacket_frame by lia. done.
Qed.

Lemma rd_insert_ne (l : list Z) (i j : nat) (x : Z) :
  i ≠ j → (<[i := x]> l).[j] = l.[j].
Proof. intros H. unfold rd. by rewrite list_lookup_insert_ne. Qed.

Lemma rd_insert_eq (l : list Z) (i : nat) (x : Z) :
  i < length l → (<[i := x]> l).[i] = x.
Proof. intros H. unfold rd. by rewrite list_lookup_insert_eq. Qed.

Lemma rd_inserts_lt (l k : list Z) (i j : nat) :
  j < i → (list_inserts i k l).[j] = l.[j].
Proof. intros H. unfold rd. by rewrite list_lookup_inserts_lt. Qed.

(** X3.  Beyond 255 payload bytes -- which a caller's buffer of more than 262
    bytes admits -- [BuildPacket] still builds a frame, but the length byte
    only keeps [data_len mod 256]; a [ParsePacket] that accepts such a frame
    reports that shorter length, never the original one. *)
Theorem BuildPacket_long_payload_truncates (buf : list Z) (buf_size : nat) (type : Z)
    (data : list Z) (data_len : nat) (len : nat) (t0 : Z) (d0 : list Z) (l0 : nat) :
  256 ≤ data_len → data_len + 7 ≤ buf_size → buf_size ≤ length buf →
  let '(pkt, pkt_len) := BuildPacket buf buf_size type data data_len in
  let r := ParsePacket pkt len t0 d0 l0 in
  pkt_len = data_len + 7
  ∧ pkt.[3] = Z.of_nat (data_len mod 256)
  ∧ (returned (p_exit r) = true →
     p_data_len r = data_len mod 256 ∧ p_data_len r < data_len).
Proof.
  intros H256 Hsize Hbuf. unfold BuildPacket.
  destruct (Nat.ltb_spec buf_size (data_len + 7)) as [?|_]; [lia|].
  pose proof (copy_loop (λ i, data.[i]) 4 data_len) as Hloop. simpl in Hloop.
  rewrite Hloop. clear Hloop.
  set (pkt := <[6 + data_len := _]> _).
  assert (H3 : pkt.[3] = Z.of_nat (data_len mod 256)).
  { unfold pkt. rewrite !rd_insert_ne by lia. rewrite rd_inserts_lt by lia.
    rewrite rd_insert_eq by (rewrite !length_insert; lia).
    unfold u8. rewrite Nat2Z.inj_mod. reflexivity. }
  clearbody pkt. cbv zeta. split; [done|]. split; [done|].
  pose proof (Nat.mod_upper_bound data_len 256 ltac:(lia)) as Hmod.
  unfold ParsePacket.
  destruct (len <? 7); [done|].
  destruct (negb _ || negb _); [done|].
  rewrite H3, Nat2Z.id.
  destruct (len <? data_len mod 256 + 7); [done|].
  destruct (negb _ || negb _); [done|].
  destruct (for_range _ _ _) as [d c].
  destruct (negb _); [done|]. cbn [p_exit p_data_len returned]. intros _. lia.
Qed.

(** ** Reassembly of frame streams *)

Lemma run_app (p : NiimbotPrinter) (a b : list input) :
  run p (a ++ b)
  = ((run (run p a).1 b).1, (run p a).2 ++ (run (run p a).1 b).2).
Proof.
  revert p. induction a as [|i a IH]; intros p.
  - cbn [app run fst snd]. by destruct (run p b).
  - cbn [app run]. destruct (step p i) as [q e]. rewrite IH.
    destruct (run q a) as [r e']. cbn [fst snd].
    destruct (run r b) as [s e'']. cbn [fst snd]. by rewrite app_assoc.
Qed.

(** With only the beginning of a frame accumulated, the loop waits. *)
Lemma parse_loop_partial (fuel : nat) (p : NiimbotPrinter) (part : list Z) :
  accumulated p part → partial_frame part → 1 ≤ fuel →
  parse_loop fuel p = Returns (p, []).
Proof.
  intros Hacc (t & pl & k & H255 & Hk & ->) Hfuel.
  pose proof (wire_frame_length t pl) as Hlen.
  destruct (decide (k < 7)) as [Hk7|Hk7].
  - apply parse_loop_short. destruct Hacc as (_ & -> & _).
    rewrite length_take. lia.
  - destruct fuel as [|fuel]; [lia|]. cbn [parse_loop].
    pose proof Hacc as (_ & Hl & _). rewrite length_take, Hlen in Hl.
    destruct (Nat.ltb_spec (packet_buf_len_ p) 7) as [?|_]; [lia|].
    replace k with (4 + (k - 4)) in Hacc by lia.
    unfold wire_frame in Hacc. cbn [app take Nat.add] in Hacc.
    rewrite (parse_pass_incomplete p _ _ _ Hacc);
      [done| |]; rewrite length_take, length_app; simpl; rewrite ?Nat2Z.id; lia.
Qed.

Lemma same_device_sym (p q : NiimbotPrinter) : same_device p q → same_device q p.
Proof. intros (A1 & A2 & A3 & A4 & A5). by repeat split. Qed.

Lemma same_device_HandleResponse (p q : NiimbotPrinter) (t : Z) (d : list Z) (n : nat) :
  same_device p q →
  same_device (HandleResponse p t d n).1 (HandleResponse q t d n).1.
Proof.
  intros H. rewrite (HandleResponse_same_device p q t d n H). by repeat split.
Qed.

(** Whole frames followed by the beginning of a further one: the loop
    handles the frames in order, one per pass, and stops with the beginning
    left in the accumulator. *)
Lemma parse_loop_stream (fs : list (Z * list Z)) (fuel : nat) (p p0 : NiimbotPrinter)
    (part : list Z) :
  accumulated p (stream fs ++ part) → same_device p p0 →
  Forall (λ f, length f.2 ≤ 255) fs → partial_frame part →
  length fs < fuel →
  ∃ junk,
    parse_loop fuel p
    = Returns (with_packet_buf (run p0 (as_inputs fs)).1 junk (length part),
               (run p0 (as_inputs fs)).2)
    ∧ accumulated (with_packet_buf (run p0 (as_inputs fs)).1 junk (length part)) part.
Proof.
  revert fuel p p0. induction fs as [|[t pl] fs IH]; intros fuel p p0 Hacc Hsame Hfs Hpart Hfuel.
  - cbn [stream map concat app as_inputs run fst snd] in *.
    rewrite (parse_loop_partial fuel p part Hacc Hpart) by lia.
    exists (packet_buf_ p).
    assert (Hp : p = with_packet_buf p0 (packet_buf_ p) (length part)).
    { rewrite (same_device_eq p p0 Hsame) at 1. by destruct Hacc as (_ & -> & _). }
    rewrite <- Hp. done.
  - apply Forall_cons in Hfs as [H255 Hfs]. cbn [fst snd] in H255.
    cbn [stream map concat as_inputs run step fst snd] in *.
    fold (stream fs) in *. fold (as_inputs fs) in *.
    rewrite <- app_assoc in Hacc.
    destruct fuel as [|fuel]; [lia|]. cbn [parse_loop].
    pose proof Hacc as (_ & Hl & _). rewrite length_app, wire_frame_length in Hl.
    destruct (Nat.ltb_spec (packet_buf_len_ p) 7) as [?|_]; [lia|].
    rewrite (parse_pass_frame p t pl _ Hacc H255).
    set (p2 := drop_front _ _).
    assert (Hacc2 : accumulated p2 (stream fs ++ part)).
    { rewrite <- (drop_app_length (wire_frame t pl) (stream fs ++ part)).
      rewrite wire_frame_length. apply drop_front_accumulated.
      - destruct Hacc as (Hb & Hl' & Ht).
        pose proof (HandleResponse_frame_fields p t pl (length pl)) as (_ & _ & _ & Hbuf & Hlen).
        cbv zeta in Hbuf, Hlen. unfold accumulated. by rewrite Hbuf, Hlen.
      - rewrite length_app, wire_frame_length. lia. }
    assert (Hsame2 : same_device p2 (HandleResponse p0 t pl (length pl)).1).
    { eapply same_device_trans; [apply same_device_drop_front|].
      by apply same_device_HandleResponse. }
    destruct (IH fuel p2 _ Hacc2 Hsame2 Hfs Hpart ltac:(simpl in Hfuel; lia))
      as (junk & Hloop & Hacc3).
    rewrite Hloop.
    rewrite (HandleResponse_same_device p p0 t pl (length pl) Hsame). cbn [snd].
    destruct (HandleResponse p0 t pl (length pl)) as [q0 e0]. cbn [fst snd] in *.
    destruct (run q0 (as_inputs fs)) as [r0 e1]. cbn [fst snd] in *.
    exists junk. done.
Qed.

Lemma handled_app (e1 e2 : list event) : handled (e1 ++ e2) = handled e1 ++ handled e2.
Proof. unfold handled. apply omap_app. Qed.

Lemma handled_HandleResponse (p : NiimbotPrinter) (t : Z) (d : list Z) (n : nat) :
  handled (HandleResponse p t d n).2 = [(t, take n d)].
Proof.
  unfold HandleResponse, handled.
  destruct (t =? 219)%Z; [done|].
  destruct ((t =? 221)%Z && (9 <=? n)); [|done].
  cbn zeta. destruct (negb _); [|done].
  by destruct (ready_callback_ _).
Qed.

(** The frames handled by the calls [as_inputs fs] are the frames [fs]. *)
Lemma handled_run (p : NiimbotPrinter) (fs : list (Z * list Z)) :
  handled (run p (as_inputs fs)).2 = fs.
Proof.
  revert p. induction fs as [|[t pl] fs IH]; intros p; [done|].
  cbn [as_inputs map run step fst snd]. fold (as_inputs fs).
  pose proof (handled_HandleResponse p t pl (length pl)) as Hh.
  destruct (HandleResponse p t pl (length pl)) as [q e]. specialize (IH q).
  destruct (run q (as_inputs fs)) as [r e']. cbn [fst snd] in *.
  rewrite handled_app, Hh, IH, firstn_all. done.
Qed.

(** X4.  A delivery of whole frames, possibly followed by the beginning of a
    further frame, to an empty accumulator: every frame is handled, in
    order, as by the corresponding [HandleResponse] calls, and exactly the
    unfinished beginning stays accumulated. *)
Theorem frames_in_one_delivery (fuel : nat) (p : NiimbotPrinter)
    (fs : list (Z * list Z)) (part : list Z) :
  accumulated p [] →
  Forall (λ f, length f.2 ≤ 255) fs → partial_frame part →
  length (stream fs ++ part) ≤ sizeof_packet_buf →
  length fs < fuel →
  ∃ q evs,
    ProcessReceivedData fuel p (stream fs ++ part) (length (stream fs ++ part))
    = Returns (q, evs)
    ∧ evs = (run p (as_inputs fs)).2
    ∧ handled evs = fs
    ∧ same_device q (run p (as_inputs fs)).1
    ∧ accumulated q part.
Proof.
  intros Hacc Hfs Hpart Hlen Hfuel.
  destruct (ProcessReceivedData_fits fuel p [] (stream fs ++ part)
              (length (stream fs ++ part)) Hacc)
    as (p1 & Hacc1 & Hsame1 & Hcall); [exact Hlen|done|].
  rewrite firstn_all in Hacc1. cbn [app] in Hacc1.
  destruct (parse_loop_stream fs fuel p1 p part Hacc1 Hsame1 Hfs Hpart Hfuel)
    as (junk & Hloop & Hacc2).
  eexists _, _. split; [by rewrite Hcall, Hloop|].
  split; [done|]. split; [apply handled_run|]. split; [by repeat split|done].
Qed.

(** Garbage in front of a start marker does not delay the loop: the pass
    that drops it goes on with what follows. *)
Lemma parse_loop_garbage (fuel : nat) (p : NiimbotPrinter) (g rest : list Z) :
  accumulated p (g ++ 0x55 :: 0x55 :: rest)%Z →
  g ≠ [] → has_start_pair (g ++ [0x55%Z]) = false → 5 ≤ length rest →
  parse_loop fuel p = parse_loop fuel (drop_front p (length g)).
Proof.
  intros Hacc Hg Hpair Hrest.
  pose proof (parse_pass_garbage p g rest Hacc Hg Hpair) as Hpass.
  assert (Hk : length g ≤ length (g ++ 0x55 :: 0x55 :: rest)%Z)
    by (rewrite length_app; lia).
  pose proof (drop_front_accumulated _ _ _ Hacc Hk) as Hacc'.
  rewrite drop_app_length in Hacc'.
  destruct Hacc as (_ & Hl & _). rewrite length_app in Hl. cbn [length] in Hl.
  destruct Hacc' as (_ & Hl' & _). cbn [length] in Hl'.
  destruct fuel as [|fuel]; cbn [parse_loop];
    destruct (Nat.ltb_spec (packet_buf_len_ p) 7) as [?|_]; try lia;
    destruct (Nat.ltb_spec (packet_buf_len_ (drop_front p (length g))) 7) as [?|_];
    try lia; [done|].
  by rewrite Hpass.
Qed.

(** X5.  Garbage that holds no start marker, followed by frames (and possibly the
    beginning of a further frame), delivered to an empty accumulator: the
    garbage is dropped and the frames are handled as if it had not been
    there. *)
Theorem garbage_before_frames (fuel : nat) (p : NiimbotPrinter) (g : list Z)
    (f : Z * list Z) (fs : list (Z * list Z)) (part : list Z) :
  accumulated p [] →
  has_start_pair (g ++ [0x55%Z]) = false →
  Forall (λ f, length f.2 ≤ 255) (f :: fs) → partial_frame part →
  length (g ++ stream (f :: fs) ++ part) ≤ sizeof_packet_buf →
  length (f :: fs) < fuel →
  ∃ q evs,
    ProcessReceivedData fuel p (g ++ stream (f :: fs) ++ part)
      (length (g ++ stream (f :: fs) ++ part))
    = Returns (q, evs)
    ∧ evs = (run p (as_inputs (f :: fs))).2
    ∧ handled evs = f :: fs
    ∧ same_device q (run p (as_inputs (f :: fs))).1
    ∧ accumulated q part.
Proof.
  intros Hacc Hpair Hfs Hpart Hlen Hfuel.
  destruct (ProcessReceivedData_fits fuel p [] (g ++ stream (f :: fs) ++ part)
              (length (g ++ stream (f :: fs) ++ part)) Hacc)
    as (p1 & Hacc1 & Hsame1 & Hcall); [exact Hlen|done|].
  rewrite firstn_all in Hacc1. cbn [app] in Hacc1.
  assert (Hloop : ∃ p2, parse_loop fuel p1 = parse_loop fuel p2
                        ∧ accumulated p2 (stream (f :: fs) ++ part)
                        ∧ same_device p2 p).
  { destruct (decide (g = [])) as [->|Hg]; [by exists p1|].
    exists (drop_front p1 (length g)).
    assert (Hshape : ∃ rest, stream (f :: fs) ++ part = (0x55 :: 0x55 :: rest)%Z
                             ∧ 5 ≤ length rest).
    { destruct f as [t pl]. cbn [stream map concat fst snd]. unfold wire_frame.
      cbn [app]. eexists. split; [reflexivity|].
      cbn [length]. rewrite !length_app. simpl. lia. }
    destruct Hshape as (rest & Hshape & Hrest).
    split; [|split].
    - rewrite Hshape in Hacc1. by apply (parse_loop_garbage fuel p1 g rest).
    - rewrite <- (drop_app_length g (stream (f :: fs) ++ part)).
      apply drop_front_accumulated; [done|]. rewrite length_app. lia.
    - eapply same_device_trans; [apply same_device_drop_front|done]. }
  destruct Hloop as (p2 & Hloop & Hacc2 & Hsame2).
  destruct (parse_loop_stream (f :: fs) fuel p2 p part Hacc2 Hsame2 Hfs Hpart Hfuel)
    as (junk & Hloop2 & Hacc3).
  eexists _, _. split; [by rewrite Hcall, Hloop, Hloop2|].
  split; [done|]. split; [apply handled_run|]. split; [by repeat split|done].
Qed.

(** *** Arbitrary chunking *)

Lemma stream_cons (t : Z) (pl : list Z) (fs : list (Z * list Z)) :
  stream ((t, pl) :: fs) = wire_frame t pl ++ stream fs.
Proof. reflexivity. Qed.

Lemma stream_app (fs1 fs2 : list (Z * list Z)) :
  stream (fs1 ++ fs2) = stream fs1 ++ stream fs2.
Proof. unfold stream. by rewrite map_app, concat_app. Qed.

(** How far a prefix of a frame stream got: through some whole frames and
    into the beginning of the next one. *)
Lemma stream_prefix_split (fs : list (Z * list Z)) (pre post : list Z) :
  pre ++ post = stream fs →
  ∃ fs1 fs2 part,
    fs = fs1 ++ fs2 ∧ pre = stream fs1 ++ part ∧ part ++ post = stream fs2
    ∧ (part = [] ∨ ∃ f fs2', fs2 = f :: fs2' ∧ length part < length f.2 + 7).
Proof.
  revert pre. induction fs as [|[t pl] fs IH]; intros pre Heq.
  - apply app_eq_nil in Heq as [-> ->]. exists [], [], []. repeat split; try done. by left.
  - rewrite stream_cons in Heq.
    destruct (decide (length pre < length pl + 7)) as [Hshort|Hlong].
    + exists [], ((t, pl) :: fs), pre. repeat split; [done|].
      right. by exists (t, pl), fs.
    + pose proof (wire_frame_length t pl) as Hw.
      assert (Htake : take (length pl + 7) pre = wire_frame t pl).
      { apply (f_equal (take (length pl + 7))) in Heq.
        rewrite take_app_le in Heq by lia.
        rewrite <- Hw in Heq at 2. by rewrite take_app_length in Heq. }
      assert (Hdrop : drop (length pl + 7) pre ++ post = stream fs).
      { apply (f_equal (drop (length pl + 7))) in Heq.
        rewrite drop_app_le in Heq by lia.
        rewrite <- Hw in Heq at 2. by rewrite drop_app_length in Heq. }
      destruct (IH _ Hdrop) as (fs1 & fs2 & part & -> & Hpre & Hpost & Hpart).
      exists ((t, pl) :: fs1), fs2, part. repeat split; [|done|done].
      rewrite stream_cons, <- app_assoc, <- Hpre, <- Htake. by rewrite take_drop.
Qed.

Lemma stream_head_partial (fs : list (Z * list Z)) (part post : list Z) :
  Forall (λ f, length f.2 ≤ 255) fs →
  part ++ post = stream fs →
  (part = [] ∨ ∃ f fs', fs = f :: fs' ∧ length part < length f.2 + 7) →
  partial_frame part ∧ length part ≤ 261.
Proof.
  intros Hfs Heq [->|([t pl] & fs' & -> & Hlen)].
  - split; [|simpl; lia]. exists 0%Z, [], 0. repeat split; simpl; first [lia | reflexivity].
  - apply Forall_cons in Hfs as [H255 _]. cbn [fst snd] in *.
    split; [|lia]. exists t, pl, (length part). repeat split; [done..|].
    rewrite stream_cons in Heq.
    apply (f_equal (take (length part))) in Heq.
    rewrite take_app_length in Heq.
    etrans; [exact Heq|]. apply take_app_le. rewrite wire_frame_length. lia.
Qed.

(** Deliveries of chunks of a frame stream, starting inside a frame. *)
Lemma deliver_stream (chunks : list (list Z)) (fuel : nat) (p p0 : NiimbotPrinter)
    (part : list Z) (fs : list (Z * list Z)) :
  accumulated p part → same_device p p0 →
  part ++ concat chunks = stream fs →
  (part = [] ∨ ∃ f fs', fs = f :: fs' ∧ length part < length f.2 + 7) →
  Forall (λ f, length f.2 ≤ 255) fs →
  Forall (λ c, length c ≤ 251) chunks →
  length fs < fuel →
  ∃ q,
    deliver fuel p chunks = Returns (q, (run p0 (as_inputs fs)).2)
    ∧ same_device q (run p0 (as_inputs fs)).1
    ∧ accumulated q [].
Proof.
  revert p p0 part fs.
  induction chunks as [|c chunks IH]; intros p p0 part fs Hacc Hsame Heq Hpart Hfs Hch Hfuel.
  - cbn [concat deliver] in *. rewrite app_nil_r in Heq.
    assert (Hfs0 : fs = [] ∧ part = []).
    { destruct fs as [|[t pl] fs].
      - by split.
      - exfalso. destruct Hpart as [->|(f & fs' & Hf & Hlen)].
        + pose proof (wire_frame_length t pl) as Hw.
          rewrite stream_cons in Heq. apply (f_equal length) in Heq.
          rewrite length_app, Hw in Heq. simpl in Heq. lia.
        + injection Hf as <- <-. cbn [snd] in Hlen.
          rewrite Heq, stream_cons, length_app, wire_frame_length in Hlen. lia. }
    destruct Hfs0 as [-> ->]. exists p.
    split; [done|]. split; [exact Hsame|exact Hacc].
  - cbn [concat deliver] in *. apply Forall_cons in Hch as [Hc Hch].
    destruct (stream_head_partial fs part _ Hfs Heq Hpart) as [_ Hplen].
    rewrite app_assoc in Heq.
    destruct (stream_prefix_split fs (part ++ c) (concat chunks) Heq)
      as (fs1 & fs2 & part' & -> & Hpre & Hpost & Hpart').
    apply Forall_app in Hfs as [Hfs1 Hfs2].
    destruct (stream_head_partial fs2 part' _ Hfs2 Hpost Hpart') as [Hpf' _].
    destruct (ProcessReceivedData_fits fuel p part c (length c) Hacc)
      as (p1 & Hacc1 & Hsame1 & Hcall); [unfold sizeof_packet_buf; lia|done|].
    rewrite firstn_all, Hpre in Hacc1.
    rewrite length_app in Hfuel.
    destruct (parse_loop_stream fs1 fuel p1 p0 part' Hacc1)
      as (junk & Hloop & Hacc2);
      [by eapply same_device_trans|done|done|lia|].
    rewrite Hcall, Hloop.
    set (q1 := with_packet_buf _ junk _) in *.
    destruct (IH q1 (run p0 (as_inputs fs1)).1 part' fs2 Hacc2)
      as (q & Hdel & Hsameq & Haccq); [by repeat split|done|done|done|done|lia|].
    rewrite Hdel. exists q.
    unfold as_inputs. rewrite map_app. fold (as_inputs fs1) (as_inputs fs2).
    rewrite run_app. cbn [fst snd]. done.
Qed.

(** X6.  A stream of frames cut into chunks of at most 251 bytes at arbitrary
    places and delivered chunk by chunk to an empty accumulator: the frames
    are handled exactly once each and in order, with the effects of the
    corresponding [HandleResponse] calls, and the accumulator is empty at
    the end. *)
Theorem chunked_stream_delivery (fuel : nat) (p : NiimbotPrinter)
    (fs : list (Z * list Z)) (chunks : list (list Z)) :
  accumulated p [] →
  concat chunks = stream fs →
  Forall (λ f, length f.2 ≤ 255) fs →
  Forall (λ c, length c ≤ 251) chunks →
  length fs < fuel →
  ∃ q evs,
    deliver fuel p chunks = Returns (q, evs)
    ∧ evs = (run p (as_inputs fs)).2
    ∧ handled evs = fs
    ∧ same_device q (run p (as_inputs fs)).1
    ∧ packet_buf_len_ q = 0.
Proof.
  intros Hacc Heq Hfs Hch Hfuel.
  destruct (deliver_stream chunks fuel p p [] fs Hacc) as (q & Hdel & Hsame & Haccq);
    [by repeat split|done|by left|done|done|done|].
  exists q, (run p (as_inputs fs)).2. split; [done|]. split; [done|].
  split; [apply handled_run|]. split; [done|]. by destruct Haccq as (_ & -> & _).
Qed.

(** ** Bounds of the receive accumulator *)

Lemma rd_byte (l : list Z) (i : nat) : Forall is_byte l → is_byte l.[i].
Proof.
  intros H. unfold rd. destruct (l !! i) as [x|] eqn:E; simpl.
  - by eapply Forall_lookup_1.
  - unfold is_byte. lia.
Qed.

Lemma Forall_byte_inserts (k l : list Z) (i : nat) :
  Forall is_byte k → Forall is_byte l → Forall is_byte (list_inserts i k l).
Proof.
  intros Hk. revert i. induction Hk as [|x k Hx Hk IH]; intros i Hl; [done|].
  cbn [list_inserts]. apply Forall_insert; [by apply IH|done].
Qed.

Lemma memcpy_bytes (dst src : list Z) (d s n : nat) :
  Forall is_byte dst → Forall is_byte src → Forall is_byte (memcpy dst d src s n).
Proof.
  intros Hd Hs. unfold memcpy. apply Forall_byte_inserts; [|done].
  by apply Forall_take, Forall_drop.
Qed.

Lemma parse_pass_bytes (p : NiimbotPrinter) :
  Forall is_byte (packet_buf_ p) → Forall is_byte (packet_buf_ (parse_pass p).1.1).
Proof.
  intros Hp. unfold parse_pass. cbv zeta.
  set (p1 := if 0 <? _ then _ else p).
  assert (H1 : Forall is_byte (packet_buf_ p1)).
  { unfold p1. destruct (0 <? _); [|done]. by apply memcpy_bytes. }
  clearbody p1.
  destruct (packet_buf_len_ p1 <? 7); [done|].
  destruct (returned _).
  - set (r := ParsePacket _ _ _ _ _) in *.
    pose proof (HandleResponse_frame_fields p1 (p_type r) (p_data r) (p_data_len r))
      as (_ & _ & _ & Hq & _).
    destruct (HandleResponse _ _ _ _) as [q e]. cbn [fst snd] in *.
    unfold drop_front. cbn [packet_buf_ with_packet_buf].
    rewrite Hq. by apply memcpy_bytes.
  - destruct (4 <=? _); [|done].
    destruct (_ <? _); [done|]. by apply memcpy_bytes.
Qed.

(** When the loop stops it has fewer than 7 bytes, or an incomplete packet
    whose declared length is the fourth byte. *)
Lemma parse_pass_break (p : NiimbotPrinter) :
  (parse_pass p).2 = Break →
  let q := (parse_pass p).1.1 in
  packet_buf_len_ q < 7 ∨ packet_buf_len_ q < Z.to_nat (packet_buf_ q).[3] + 7.
Proof.
  unfold parse_pass. cbv zeta.
  set (p1 := if 0 <? _ then _ else p). clearbody p1.
  destruct (Nat.ltb_spec (packet_buf_len_ p1) 7) as [?|H7]; [by left|].
  destruct (returned _).
  - by destruct (HandleResponse _ _ _ _) as [q e].
  - destruct (Nat.leb_spec 4 (packet_buf_len_ p1)); [|lia].
    destruct (Nat.ltb_spec (packet_buf_len_ p1) (Z.to_nat (packet_buf_ p1).[3] + 7));
      [by right|done].
Qed.

Lemma parse_loop_stops (fuel : nat) (p q : NiimbotPrinter) (evs : list event) :
  parse_loop fuel p = Returns (q, evs) →
  (Forall is_byte (packet_buf_ p) → Forall is_byte (packet_buf_ q))
  ∧ (packet_buf_len_ q < 7 ∨ packet_buf_len_ q < Z.to_nat (packet_buf_ q).[3] + 7).
Proof.
  revert p q evs. induction fuel as [|fuel IH]; intros p q evs Hr.
  - simpl in Hr. destruct (Nat.ltb_spec (packet_buf_len_ p) 7); [|done].
    injection Hr as <- _. split; [done|by left].
  - cbn [parse_loop] in Hr.
    destruct (Nat.ltb_spec (packet_buf_len_ p) 7);
      [injection Hr as <- _; split; [done|by left]|].
    pose proof (parse_pass_bytes p) as Hb.
    pose proof (parse_pass_break p) as Hbr.
    destruct (parse_pass p) as [[p' e] fl]. cbn [fst snd] in *.
    destruct fl.
    + destruct (parse_loop fuel p') as [[q' e']| |] eqn:Hq; [|done|done].
      injection Hr as <- _. destruct (IH p' q' e' Hq) as [IHb IHs].
      split; [|done]. intros Hp. by apply IHb, Hb.
    + injection Hr as <- _. split; [done|by apply Hbr].
Qed.

(** X7.  After every call on an array of bytes fewer than 262 bytes stay
    accumulated; and a delivery of at most 251 bytes to such an accumulator
    never triggers the overflow reset: it is appended to what is there. *)
Theorem accumulator_stays_below_262 (fuel : nat) (p : NiimbotPrinter) (data : list Z)
    (len : nat) :
  byte_array p → Forall is_byte data →
  len ≤ length data → len ≤ sizeof_packet_buf →
  sizeof_packet_buf < fuel + 7 →
  (∃ q evs, ProcessReceivedData fuel p data len = Returns (q, evs)
            ∧ byte_array q ∧ packet_buf_len_ q ≤ 261)
  ∧ (∀ bs, accumulated p bs → length bs ≤ 261 → len ≤ 251 →
       ∃ p', accumulated p' (bs ++ take len data)
             ∧ ProcessReceivedData fuel p data len = parse_loop fuel p').
Proof.
  intros [Hb Hbytes] Hdata Hlen H512 Hfuel. split.
  - destruct (ProcessReceivedData_terminates fuel p data len Hb H512 Hfuel)
      as (q & evs & Hq & _ & Hbq).
    exists q, evs. split; [done|].
    unfold ProcessReceivedData in Hq.
    set (p0 := if _ <? _ then _ else p) in Hq.
    assert (Hp0 : Forall is_byte (packet_buf_ p0))
      by (unfold p0; by destruct (_ <? _)).
    clearbody p0. destruct (_ <? _); [done|].
    apply parse_loop_stops in Hq as [Hqb Hstop].
    cbn [packet_buf_ with_packet_buf] in Hqb.
    assert (Hqbytes : Forall is_byte (packet_buf_ q)) by (by apply Hqb, memcpy_bytes).
    split; [by split|].
    pose proof (rd_byte (packet_buf_ q) 3 Hqbytes) as H3. unfold is_byte in H3. lia.
  - intros bs Hacc Hbs H251.
    destruct (ProcessReceivedData_fits fuel p bs data len Hacc)
      as (p' & Hacc' & _ & Hcall); [unfold sizeof_packet_buf; lia|done|].
    by exists p'.
Qed.

(** ** Termination and the size of a delivery *)

(** X8.  On a 512-byte receive array, a call with a delivery of at most 512
    bytes returns, and with the same result for every loop budget from 506
    on; a longer delivery makes the copy run past the end of the array. *)
Theorem ProcessReceivedData_total (p : NiimbotPrinter) (data : list Z) (len : nat) :
  length (packet_buf_ p) = sizeof_packet_buf →
  (len ≤ sizeof_packet_buf →
   ∃ q evs, ∀ fuel, 506 ≤ fuel → ProcessReceivedData fuel p data len = Returns (q, evs))
  ∧ (sizeof_packet_buf < len →
     ∀ fuel, ProcessReceivedData fuel p data len = Undefined).
Proof.
  intros Hb. split.
  - intros Hlen.
    destruct (ProcessReceivedData_terminates 506 p data len Hb Hlen)
      as (q & evs & Hq & _); [unfold sizeof_packet_buf; lia|].
    exists q, evs. intros fuel Hfuel.
    unfold ProcessReceivedData in *.
    destruct (_ <? _); [done|]. by apply (parse_loop_fuel 506).
  - intros Hlen fuel. by apply ProcessReceivedData_oversized.
Qed.

(** ** Stale bytes in the receive array *)

Lemma find_start_local (buf buf' : list Z) (r s : nat) :
  (∀ i, i ≤ s + r → buf.[i] = buf'.[i]) →
  find_start buf r s = find_start buf' r s.
Proof.
  revert s. induction r as [|r IH]; intros s H; [done|].
  cbn [find_start]. rewrite (H s), (H (s + 1)) by lia.
  destruct (_ && _); [done|]. apply IH. intros i Hi. apply H. lia.
Qed.

Lemma find_start_le (buf : list Z) (r s : nat) : find_start buf r s ≤ s + r.
Proof.
  revert s. induction r as [|r IH]; intros s; cbn [find_start]; [lia|].
  destruct (_ && _); [lia|]. specialize (IH (s + 1)). lia.
Qed.

Lemma accumulated_rd (p : NiimbotPrinter) (bs : list Z) (i : nat) :
  accumulated p bs → i < length bs → (packet_buf_ p).[i] = bs.[i].
Proof.
  intros (_ & _ & H) Hi. rewrite <- H. by rewrite rd_take.
Qed.

(** One pass on two printers that hold the same accumulated bytes in
    arrays that may differ behind them. *)
Lemma parse_pass_stale (p q : NiimbotPrinter) (bs : list Z) :
  accumulated p bs → accumulated q bs → same_device p q →
  (parse_pass p).1.2 = (parse_pass q).1.2
  ∧ (parse_pass p).2 = (parse_pass q).2
  ∧ same_device (parse_pass p).1.1 (parse_pass q).1.1
  ∧ ∃ bs', accumulated (parse_pass p).1.1 bs' ∧ accumulated (parse_pass q).1.1 bs'.
Proof.
  intros Hp Hq Hsame.
  pose proof Hp as (_ & Hlp & _). pose proof Hq as (_ & Hlq & _).
  assert (Hfs : find_start (packet_buf_ q) (packet_buf_len_ q - 1) 0
                = find_start (packet_buf_ p) (packet_buf_len_ p - 1) 0).
  { rewrite Hlp, Hlq. destruct (length bs) as [|n] eqn:En; [done|].
    apply find_start_local. intros i Hi.
    by rewrite (accumulated_rd q bs i Hq), (accumulated_rd p bs i Hp) by lia. }
  set (k := find_start (packet_buf_ p) (packet_buf_len_ p - 1) 0) in *.
  assert (Hk : k ≤ length bs).
  { unfold k. pose proof (find_start_le (packet_buf_ p) (packet_buf_len_ p - 1) 0). lia. }
  unfold parse_pass. cbv zeta. rewrite Hfs. fold k.
  set (p1 := if 0 <? k then drop_front p k else p).
  set (q1 := if 0 <? k then drop_front q k else q).
  assert (H1 : ∃ bs1, accumulated p1 bs1 ∧ accumulated q1 bs1 ∧ same_device p1 q1).
  { unfold p1, q1. destruct (0 <? k).
    - exists (drop k bs). split; [by apply drop_front_accumulated|].
      split; [by apply drop_front_accumulated|]. by repeat split; apply Hsame.
    - by exists bs. }
  clearbody p1 q1. clear dependent p. clear dependent q.
  destruct H1 as (bs1 & Hp & Hq & Hsame).
  pose proof Hp as (_ & Hlp & Htp). pose proof Hq as (_ & Hlq & Htq).
  rewrite Hlp, Hlq.
  destruct (Nat.ltb_spec (length bs1) 7) as [|H7]; [cbn; eauto 10|].
  assert (Hparse : ParsePacket (packet_buf_ q1) (length bs1) 0 (replicate 256 0%Z) 0
                   = ParsePacket (packet_buf_ p1) (length bs1) 0 (replicate 256 0%Z) 0).
  { apply ParsePacket_local. by rewrite Htp, Htq. }
  rewrite Hparse.
  set (r := ParsePacket (packet_buf_ p1) _ _ _ _).
  pose proof (ParsePacket_ok_len (packet_buf_ p1) (length bs1) 0 (replicate 256 0%Z) 0)
    as Hoklen. fold r in Hoklen.
  destruct (returned (p_exit r)).
  - specialize (Hoklen eq_refl).
    rewrite (HandleResponse_same_device p1 q1 _ _ _ Hsame).
    pose proof (HandleResponse_frame_fields q1 (p_type r) (p_data r) (p_data_len r))
      as (F1 & F2 & F3 & F4 & F5).
    destruct (HandleResponse q1 (p_type r) (p_data r) (p_data_len r)) as [q2 e].
    cbn [fst snd] in *.
    split; [done|]. split; [done|]. split; [by repeat split|].
    exists (drop (p_data_len r + 7) bs1). split.
    + apply drop_front_accumulated; [|lia]. exact Hp.
    + apply drop_front_accumulated; [|lia].
      unfold accumulated. by rewrite F4, F5.
  - change (4 <=? length bs1) with (4 <=? length bs1).
    destruct (Nat.leb_spec 4 (length bs1)); [|lia].
    rewrite (accumulated_rd p1 bs1 3 Hp), (accumulated_rd q1 bs1 3 Hq) by lia.
    destruct (_ <? _); cbn [fst snd]; [eauto 10|].
    split; [done|]. split; [done|]. split; [by repeat split; apply Hsame|].
    exists (drop 1 bs1). split; apply drop_front_accumulated; (done || lia).
Qed.

Lemma parse_loop_stale (fuel : nat) (p q : NiimbotPrinter) (bs : list Z) :
  accumulated p bs → accumulated q bs → same_device p q →
  match parse_loop fuel p, parse_loop fuel q with
  | Returns (p', e), Returns (q', e') =>
      e = e' ∧ same_device p' q'
      ∧ ∃ bs', accumulated p' bs' ∧ accumulated q' bs'
  | Undefined, Undefined => True
  | OutOfFuel, OutOfFuel => True
  | _, _ => False
  end.
Proof.
  revert p q bs. induction fuel as [|fuel IH]; intros p q bs Hp Hq Hsame;
    cbn [parse_loop];
    pose proof Hp as (_ & Hlp & _); pose proof Hq as (_ & Hlq & _);
    rewrite Hlp, Hlq; destruct (length bs <? 7); eauto 10.
  destruct (parse_pass_stale p q bs Hp Hq Hsame) as (He & Hfl & Hs & bs' & Hp' & Hq').
  destruct (parse_pass p) as [[p1 e1] f1], (parse_pass q) as [[q1 e2] f2].
  cbn [fst snd] in *. subst e2 f2.
  destruct f1; [|eauto 10].
  specialize (IH p1 q1 bs' Hp' Hq' Hs).
  destruct (parse_loop fuel p1) as [[p2 e3]| |], (parse_loop fuel q1) as [[q2 e4]| |];
    try done.
  destruct IH as (-> & Hs2 & Hex). eauto 10.
Qed.

(** X9.  What [packet_buf_] holds behind the first [packet_buf_len_] bytes --
    left over from removed frames, from garbage, or from before a [Reset] --
    has no influence: two printers that agree on everything but those bytes
    handle a delivery alike, and agree in the same way afterwards. *)
Theorem stale_bytes_do_not_matter (fuel : nat) (p q : NiimbotPrinter) (bs data : list Z)
    (len : nat) :
  accumulated p bs → accumulated q bs → same_device p q → len ≤ length data →
  match ProcessReceivedData fuel p data len, ProcessReceivedData fuel q data len with
  | Returns (p', e), Returns (q', e') =>
      e = e' ∧ same_device p' q'
      ∧ ∃ bs', accumulated p' bs' ∧ accumulated q' bs'
  | Undefined, Undefined => True
  | OutOfFuel, OutOfFuel => True
  | _, _ => False
  end.
Proof.
  intros Hp Hq Hsame Hdata.
  pose proof Hp as (Hbp & Hlp & _). pose proof Hq as (Hbq & Hlq & _).
  destruct (decide (length bs + len ≤ sizeof_packet_buf)) as [Hfit|Hover].
  - destruct (ProcessReceivedData_fits fuel p bs data len Hp Hfit Hdata)
      as (p1 & Hp1 & Hs1 & ->).
    destruct (ProcessReceivedData_fits fuel q bs data len Hq Hfit Hdata)
      as (q1 & Hq1 & Hs2 & ->).
    apply (parse_loop_stale fuel p1 q1 _ Hp1 Hq1).
    eapply same_device_trans; [exact Hs1|].
    eapply same_device_trans; [exact Hsame|]. by apply same_device_sym.
  - destruct (decide (len ≤ sizeof_packet_buf)) as [Hlen|Hlen].
    + rewrite (ProcessReceivedData_overflow fuel p data len),
        (ProcessReceivedData_overflow fuel q data len) by lia.
      set (p0 := with_packet_buf p (packet_buf_ p) 0).
      set (q0 := with_packet_buf q (packet_buf_ q) 0).
      assert (Hp0 : accumulated p0 []) by (by apply accumulated_nil).
      assert (Hq0 : accumulated q0 []) by (by apply accumulated_nil).
      destruct (ProcessReceivedData_fits fuel p0 [] data len Hp0)
        as (p1 & Hp1 & Hs1 & ->); [simpl; lia|done|].
      destruct (ProcessReceivedData_fits fuel q0 [] data len Hq0)
        as (q1 & Hq1 & Hs2 & ->); [simpl; lia|done|].
      apply (parse_loop_stale fuel p1 q1 _ Hp1 Hq1).
      eapply same_device_trans; [exact Hs1|].
      eapply same_device_trans; [|apply same_device_sym; exact Hs2].
      by repeat split; apply Hsame.
    + rewrite !ProcessReceivedData_oversized by (done || lia). done.
Qed.

(** ** The send side *)

Lemma for_range_inv {S : Type} (P : S → Prop) (n : nat) (body : nat → S → S) (s : S) :
  P s → (∀ i s, P s → P (body i s)) → P (for_range n body s).
Proof.
  intros Hs Hbody. unfold for_range. revert s Hs.
  induction (seq 0 n) as [|i l IH]; intros s Hs; [done|]. cbn. apply IH, Hbody, Hs.
Qed.

(** [BuildPacket] stores into the caller's array, which keeps its size. *)
Lemma BuildPacket_length (buf : list Z) (buf_size : nat) (type : Z) (data : list Z)
    (data_len : nat) :
  length (BuildPacket buf buf_size type data data_len).1 = length buf.
Proof.
  unfold BuildPacket. destruct (_ <? _); [done|].
  match goal with |- context [for_range ?n ?b ?s0] =>
    pose proof (for_range_inv (λ x, length x.1 = length buf) n b s0) as H end.
  destruct (for_range _ _ _) as [b c]. cbn [fst] in *.
  rewrite !length_insert. apply H.
  - cbn [fst]. by rewrite !length_insert.
  - intros i [b' c'] Hb. cbn [fst] in *. by rewrite length_insert.
Qed.

Lemma BuildPacket_returns (buf : list Z) (buf_size : nat) (type : Z) (data : list Z)
    (data_len : nat) :
  (BuildPacket buf buf_size type data data_len).2
  = if buf_size <? data_len + 7 then 0 else data_len + 7.
Proof.
  unfold BuildPacket. destruct (_ <? _); [done|].
  by destruct (for_range _ _ _) as [b c].
Qed.

Section SendProperties.

Variable write_completes : nat → bool.
Variable decode_rle_row_1bpp : RleImage → Z → list Z → nat → list Z.

Lemma SendPacket_cases (code : RequestCode) (data : list Z) (data_len : nat)
    (wait : bool) (w : World) :
  SendPacket write_completes code data data_len wait w
  = let p := w_printer w in
    let waits := wait && bool_decide (is_Some (write_semaphore_ p)) in
    if negb (send_callback_ p) then (ESP_ERR_INVALID_STATE, w)
    else if 250 <=? data_len then (ESP_ERR_INVALID_SIZE, w)
    else (if waits && negb (write_completes (w_waits w)) then ESP_ERR_TIMEOUT else ESP_OK,
          MkWorld (if waits then with_semaphore p (Some false) else p)
                  (w_sent w ++ [EvSend (take (data_len + 7)
                     (BuildPacket (replicate 256 0%Z) 256 (code_value code) data data_len).1)
                     wait])
                  (if waits then S (w_waits w) else w_waits w)).
Proof.
  cbv zeta. unfold SendPacket. destruct (negb _); [done|].
  pose proof (BuildPacket_returns (replicate 256 0%Z) 256 (code_value code) data data_len)
    as Hret.
  destruct (BuildPacket _ _ _ _ _) as [pkt pkt_len]. cbn [fst snd] in *. subst pkt_len.
  destruct (Nat.ltb_spec 256 (data_len + 7)), (Nat.leb_spec 250 data_len); try lia;
    [done|].
  destruct (Nat.eqb_spec (data_len + 7) 0) as [?|_]; [lia|].
  destruct (wait && _); [|done]. by destruct (write_completes _).
Qed.

(** X10.  [SendPacket] fails without a trace in exactly two situations: no send
    callback is installed ([ESP_ERR_INVALID_STATE]), or the payload has 250
    bytes or more and does not fit the 256-byte packet
    ([ESP_ERR_INVALID_SIZE]).  In every other case the send callback is
    called exactly once, with a packet of [data_len + 7] bytes, and only the
    write semaphore of the printer object changes;
    [ESP_ERR_TIMEOUT] is reported after the packet has gone out, and only
    when the call waited for a write-complete signal that did not arrive. *)
Theorem SendPacket_outcomes (code : RequestCode) (data : list Z) (data_len : nat)
    (wait : bool) (w : World) :
  let p := w_printer w in
  let r := SendPacket write_completes code data data_len wait w in
  (r.1 = ESP_ERR_INVALID_STATE ↔ send_callback_ p = false)
  ∧ (r.1 = ESP_ERR_INVALID_SIZE ↔ send_callback_ p = true ∧ 250 ≤ data_len)
  ∧ (r.1 = ESP_ERR_TIMEOUT ↔
       send_callback_ p = true ∧ data_len ≤ 249 ∧ wait = true
       ∧ is_Some (write_semaphore_ p) ∧ write_completes (w_waits w) = false)
  ∧ (r.1 = ESP_ERR_INVALID_STATE ∨ r.1 = ESP_ERR_INVALID_SIZE → r.2 = w)
  ∧ (r.1 = ESP_OK ∨ r.1 = ESP_ERR_TIMEOUT →
       ∃ pkt, length pkt = data_len + 7
              ∧ w_sent r.2 = w_sent w ++ [EvSend pkt wait]
              ∧ up_to_semaphore p (w_printer r.2)).
Proof.
  cbv zeta. rewrite SendPacket_cases. cbv zeta.
  destruct (send_callback_ (w_printer w)) eqn:Hcb; cbn [negb fst snd];
    [|intuition (try discriminate; try lia; try done)].
  destruct (Nat.leb_spec 250 data_len) as [Hbig|Hfit]; cbn [fst snd];
    [intuition (try discriminate; try lia; try done)|].
  set (waits := wait && bool_decide (is_Some (write_semaphore_ (w_printer w)))).
  assert (Hwaits : waits = true ↔ wait = true ∧ is_Some (write_semaphore_ (w_printer w))).
  { unfold waits. rewrite andb_true_iff, bool_decide_eq_true. done. }
  assert (Hsent : ∃ pkt, length pkt = data_len + 7
            ∧ w_sent w ++ [EvSend (take (data_len + 7)
                 (BuildPacket (replicate 256 0%Z) 256 (code_value code) data data_len).1)
                 wait]
              = w_sent w ++ [EvSend pkt wait]
            ∧ up_to_semaphore (w_printer w)
                (if waits then with_semaphore (w_printer w) (Some false) else w_printer w)).
  { eexists. split; [|split; [done|]].
    - rewrite length_take, BuildPacket_length, length_replicate. lia.
    - unfold up_to_semaphore. destruct waits; by destruct (w_printer w). }
  destruct waits; cbn [andb].
  - destruct (write_completes (w_waits w)) eqn:Hwc; cbn [negb];
      intuition (try discriminate; try lia; try done).
  - cbn [negb]. intuition (try discriminate; try lia; try done).
Qed.

(** X11.  Whatever [SendPacket] hands to the send callback is a frame that
    [ParsePacket] accepts, giving back the request code and the payload:
    the two directions of the protocol agree up to the largest payload that
    [SendPacket] lets through, 249 bytes. *)
Theorem sent_packets_parse_back (code : RequestCode) (data : list Z) (data_len : nat)
    (wait : bool) (w : World) (t0 : Z) (d0 : list Z) (l0 : nat) :
  send_callback_ (w_printer w) = true →
  data_len ≤ 249 → data_len ≤ length data → data_len ≤ length d0 →
  ∃ pkt,
    w_sent (SendPacket write_completes code data data_len wait w).2
    = w_sent w ++ [EvSend pkt wait]
    ∧ length pkt = data_len + 7
    ∧ ParsePacket pkt (length pkt) t0 d0 l0
      = Parsed ExitOk (code_value code) (take data_len data ++ drop data_len d0) data_len.
Proof.
  intros Hcb H249 Hdata Hd0. rewrite SendPacket_cases. cbv zeta. rewrite Hcb. cbn [negb].
  destruct (Nat.leb_spec 250 data_len); [lia|]. cbn [snd w_sent].
  rewrite BuildPacket_layout by (rewrite ?length_replicate; lia). cbn [fst].
  rewrite take_app_length' by (rewrite wire_frame_length, length_take; lia).
  eexists. split; [done|].
  assert (Hl : length (take data_len data) = data_len) by (rewrite length_take; lia).
  split; [by rewrite wire_frame_length, Hl|].
  rewrite <- (app_nil_r (wire_frame _ _)) at 1.
  rewrite ParsePacket_frame by (rewrite ?wire_frame_length, Hl; lia).
  by rewrite Hl.
Qed.

(** X12.  The wire format of the single commands: with a send callback
    installed, each of them goes out as one frame that carries its request
    code and its payload, and the write acknowledgement is awaited. *)
Theorem single_commands_on_the_wire (w : World) :
  send_callback_ (w_printer w) = true →
  let sends (m : M esp_err_t) (code : RequestCode) (payload : list Z) :=
    m w = transmit write_completes (command code payload) w in
  sends (SendHeartbeat write_completes) HEARTBEAT [1%Z]
  ∧ (∀ key, sends (GetDeviceInfo write_completes key) GET_INFO [key_value key])
  ∧ (∀ density, sends (SetLabelDensity write_completes density) SET_LABEL_DENSITY [density])
  ∧ (∀ type, sends (SetLabelType write_completes type) SET_LABEL_TYPE [type])
  ∧ (∀ pages color, sends (StartPrint write_completes pages color) START_PRINT
                      (be16 pages ++ [0; 0; 0; 0; color]%Z))
  ∧ sends (StartPagePrint write_completes) START_PAGE_PRINT [1%Z]
  ∧ (∀ rows cols copies, sends (SetPageSize write_completes rows cols copies) SET_DIMENSION
                           (be16 rows ++ be16 cols ++ be16 copies))
  ∧ (∀ row count, sends (SendEmptyRow write_completes row count) PRINT_EMPTY_ROW
                    (be16 row ++ [count]))
  ∧ sends (EndPagePrint write_completes) END_PAGE_PRINT [1%Z]
  ∧ sends (EndPrint write_completes) END_PRINT [1%Z]
  ∧ sends (GetPrintStatus write_completes) GET_PRINT_STATUS [1%Z].
Proof.
  intros Hcb sends. unfold sends.
  repeat split; intros;
    (etrans; [apply SendPacket_transmits; [exact Hcb|lia|simpl; lia]|done]).
Qed.

(** X13.  [SendBitmapRow] and the size of a row: up to 243 bytes go out as one
    frame -- row number, three zero bit counts, repeat count 1, the row --
    while 244 to 250 bytes still fit the local 256-byte array but no longer
    a packet, so the call fails with [ESP_ERR_INVALID_SIZE] and sends
    nothing. *)
Theorem SendBitmapRow_row_sizes (row_num : Z) (row_data : list Z) (row_len : nat)
    (w : World) :
  send_callback_ (w_printer w) = true → row_len ≤ length row_data →
  (row_len ≤ 243 →
   SendBitmapRow write_completes row_num row_data row_len w
   = transmit write_completes
       (command PRINT_BITMAP_ROW (be16 row_num ++ [0; 0; 0; 1]%Z ++ take row_len row_data)) w)
  ∧ (244 ≤ row_len ≤ 250 →
     SendBitmapRow write_completes row_num row_data row_len w = (ESP_ERR_INVALID_SIZE, w)).
Proof.
  intros Hcb Hrow. split; intros Hlen; unfold SendBitmapRow.
  - change (replicate 256 0%Z) with (0 :: 0 :: 0 :: 0 :: 0 :: 0 :: replicate 250 0)%Z.
    set (zs := replicate 250 0%Z).
    assert (Hzs : length zs = 250) by apply length_replicate. clearbody zs.
    cbn [insert list_insert]. unfold memcpy.
    rewrite !list_inserts_cons. change (drop 0 row_data) with row_data.
    pose proof (length_take_le row_data row_len Hrow) as Hl.
    rewrite list_inserts_0_prefix by lia.
    rewrite SendPacket_transmits; [|done|lia|simpl; rewrite length_app; lia].
    do 2 f_equal. unfold be16. cbn [app].
    change (6 + row_len) with (S (S (S (S (S (S row_len)))))).
    cbn [take]. do 6 f_equal.
    rewrite <- Hl at 1. apply take_app_length.
  - rewrite SendPacket_cases. cbv zeta. rewrite Hcb. cbn [negb].
    destruct (Nat.leb_spec 250 (6 + row_len)); [done|lia].
Qed.

Lemma up_to_semaphore_refl (p : NiimbotPrinter) : up_to_semaphore p p.
Proof. unfold up_to_semaphore. by destruct p. Qed.

Lemma up_to_semaphore_trans (p q r : NiimbotPrinter) :
  up_to_semaphore p q → up_to_semaphore q r → up_to_semaphore p r.
Proof. unfold up_to_semaphore. intros -> ->. by destruct p. Qed.

Lemma up_to_semaphore_callback (p q : NiimbotPrinter) :
  up_to_semaphore p q → send_callback_ q = send_callback_ p.
Proof. unfold up_to_semaphore. by intros ->. Qed.

Lemma send_only_SendPacket (code : RequestCode) (data : list Z) (data_len : nat) :
  data_len ≤ 249 → send_only (SendPacket write_completes code data data_len true).
Proof.
  intros H249 w Hcb. rewrite SendPacket_cases. cbv zeta. rewrite Hcb. cbn [negb].
  destruct (Nat.leb_spec 250 data_len); [lia|]. cbn [fst snd w_printer w_sent].
  split; [by destruct (_ && _)|]. split; [by destruct (_ && _)|]. split.
  - unfold up_to_semaphore. destruct (true && _); by destruct (w_printer w).
  - eexists. split; [done|]. by apply Forall_singleton.
Qed.

Lemma send_only_ret : send_only (ret ESP_OK).
Proof.
  intros w _. unfold ret. cbn [fst snd]. repeat split; try done.
  - apply up_to_semaphore_refl.
  - exists []. by rewrite app_nil_r.
Qed.

Lemma send_only_on_ok (m k : M esp_err_t) :
  send_only m → send_only k → send_only (m >>! k).
Proof.
  intros Hm Hk w Hcb. unfold on_ok.
  destruct (Hm w Hcb) as (H1 & H2 & H3 & evs & H4 & H5).
  destruct (m w) as [e w1]. cbn [fst snd] in *.
  destruct e; try done; try (by eauto 10).
  destruct (Hk w1) as (K1 & K2 & K3 & evs' & K4 & K5).
  { by rewrite (up_to_semaphore_callback _ _ H3). }
  split; [done|]. split; [done|]. split; [by eapply up_to_semaphore_trans|].
  exists (evs ++ evs'). split; [by rewrite K4, H4, app_assoc|by apply Forall_app].
Qed.

Lemma send_only_send_rows (image : RleImage) (remaining : nat) (y : Z) (row_data : list Z) :
  send_only (send_rows write_completes decode_rle_row_1bpp image 48 remaining y row_data).
Proof.
  revert y row_data. induction remaining as [|n IH]; intros y row_data;
    cbn [send_rows]; [apply send_only_ret|].
  apply send_only_on_ok; [|apply IH].
  unfold SendBitmapRow. apply send_only_SendPacket. lia.
Qed.

(** A ready printer with a send callback: [Print] only sends. *)
Lemma Print_send_only (image : RleImage) (w : World) :
  ready_ (w_printer w) = true → send_callback_ (w_printer w) = true →
  let r := Print write_completes decode_rle_row_1bpp image w in
  r.1 ≠ ESP_ERR_INVALID_STATE ∧ r.1 ≠ ESP_ERR_INVALID_SIZE
  ∧ up_to_semaphore (w_printer w) (w_printer r.2)
  ∧ ∃ evs, w_sent r.2 = w_sent w ++ evs ∧ Forall awaited evs.
Proof.
  intros Hready Hcb. cbv zeta. unfold Print, Print_from. rewrite Hready. cbn [negb].
  change (Z.to_nat (kPaperWidthDots / 8)) with 48.
  match goal with |- context [?m w] => assert (Hm : send_only m) end.
  { unfold SetLabelDensity, SetLabelType, StartPrint, StartPagePrint, SetPageSize,
      EndPagePrint, EndPrint.
    repeat (apply send_only_on_ok);
      try (apply send_only_SendPacket; lia);
      [apply send_only_send_rows|apply send_only_ret]. }
  exact (Hm w Hcb).
Qed.

(** Without readiness or without a send callback [Print] does nothing. *)
Lemma Print_refused (image : RleImage) (w : World) :
  ready_ (w_printer w) = false ∨ send_callback_ (w_printer w) = false →
  Print write_completes decode_rle_row_1bpp image w = (ESP_ERR_INVALID_STATE, w).
Proof.
  intros H. unfold Print, Print_from.
  destruct (ready_ (w_printer w)) eqn:Hready; [|done].
  destruct H as [?|Hcb]; [done|]. cbn [negb].
  unfold on_ok at 1. unfold SetLabelDensity at 1. rewrite SendPacket_cases.
  cbv zeta. by rewrite Hcb.
Qed.

(** X14.  What [Print] can do, whatever the image and the decoder: it fails with
    [ESP_ERR_INVALID_STATE] exactly when the printer is not ready or no send
    callback is installed, and then nothing has happened; it never fails
    with [ESP_ERR_INVALID_SIZE]; it changes nothing of the printer object
    but the write semaphore; and every call of the send callback that it
    adds asks for the write acknowledgement. *)
Theorem Print_outcomes (image : RleImage) (w : World) :
  let p := w_printer w in
  let r := Print write_completes decode_rle_row_1bpp image w in
  (r.1 = ESP_ERR_INVALID_STATE ↔ ready_ p = false ∨ send_callback_ p = false)
  ∧ (r.1 = ESP_ERR_INVALID_STATE → r.2 = w)
  ∧ r.1 ≠ ESP_ERR_INVALID_SIZE
  ∧ up_to_semaphore p (w_printer r.2)
  ∧ ∃ evs, w_sent r.2 = w_sent w ++ evs ∧ Forall awaited evs.
Proof.
  cbv zeta.
  destruct (ready_ (w_printer w)) eqn:Hready;
    [destruct (send_callback_ (w_printer w)) eqn:Hcb|].
  - destruct (Print_send_only image w Hready Hcb) as (H1 & H2 & H3 & H4).
    split; [|done]. split; [done|]. by intros [?|?].
  - rewrite Print_refused by (by right). cbn [fst snd].
    split; [by intuition|]. split; [done|]. split; [done|].
    split; [apply up_to_semaphore_refl|]. exists []. by rewrite app_nil_r.
  - rewrite Print_refused by (by left). cbn [fst snd].
    split; [by intuition|]. split; [done|]. split; [done|].
    split; [apply up_to_semaphore_refl|]. exists []. by rewrite app_nil_r.
Qed.

(** X15.  [Reset], a heartbeat and [Print] in a row: after [Reset] the printer
    refuses to print and sends nothing; once a heartbeat response of at
    least 9 bytes has arrived, [Print] is no longer refused. *)
Theorem print_gate_reopens (fuel : nat) (p : NiimbotPrinter) (image : RleImage)
    (pl : list Z) (sent : list event) (waits : nat) :
  length (packet_buf_ p) = sizeof_packet_buf → send_callback_ p = true →
  9 ≤ length pl ≤ 255 → 1 ≤ fuel →
  Print write_completes decode_rle_row_1bpp image (MkWorld (Reset p) sent waits)
  = (ESP_ERR_INVALID_STATE, MkWorld (Reset p) sent waits)
  ∧ ∃ q evs,
      ProcessReceivedData fuel (Reset p) (wire_frame 0xDD pl) (length pl + 7)
      = Returns (q, evs)
      ∧ (Print write_completes decode_rle_row_1bpp image (MkWorld q sent waits)).1
        ≠ ESP_ERR_INVALID_STATE.
Proof.
  intros Hbuf Hcb Hlen Hfuel. split; [done|].
  assert (Hacc : accumulated (Reset p) []) by (by apply accumulated_nil).
  destruct (ProcessReceivedData_fits fuel (Reset p) [] (wire_frame 0xDD pl) (length pl + 7)
              Hacc)
    as (p1 & Hacc1 & Hsame1 & Hcall);
    [cbn [length]; unfold sizeof_packet_buf; lia|by rewrite wire_frame_length|].
  rewrite <- wire_frame_length with (t := 0xDD%Z), firstn_all in Hacc1.
  cbn [app] in Hacc1. rewrite <- (app_nil_r (wire_frame _ _)) in Hacc1.
  destruct (parse_loop_frame fuel p1 (Reset p) 0xDD pl [] Hacc1 Hsame1)
    as (junk & Hloop & _); [lia|cbn; lia|lia|].
  eexists _, _. split; [by rewrite Hcall, Hloop|].
  apply Print_send_only; cbn [w_printer ready_ send_callback_ with_packet_buf].
  - rewrite HandleResponse_ready. cbn [is_heartbeat9].
    destruct (Nat.leb_spec 9 (length pl)); [|lia]. by rewrite orb_true_r.
  - pose proof (HandleResponse_frame_fields (Reset p) 0xDD pl (length pl)) as (-> & _).
    done.
Qed.

End SendProperties.

(** ** Responses and the printer state *)

(** Only heartbeat responses of at least 9 bytes have an effect. *)
Lemma HandleResponse_other (p : NiimbotPrinter) (t : Z) (d : list Z) (n : nat) :
  is_heartbeat9 (Frame t d n) = false →
  HandleResponse p t d n = (p, [EvResponse t (take n d)]).
Proof.
  unfold is_heartbeat9, HandleResponse. intros ->. by destruct (t =? 219)%Z.
Qed.

Lemma run_other (p : NiimbotPrinter) (fs : list (Z * list Z)) :
  Forall (λ i, is_heartbeat9 i = false) (as_inputs fs) →
  run p (as_inputs fs) = (p, map (λ f, EvResponse f.1 f.2) fs).
Proof.
  induction fs as [|[t pl] fs IH]; intros H; [done|].
  cbn [as_inputs map] in *. fold (as_inputs fs) in *.
  apply Forall_cons in H as [H1 H2]. cbn [run step fst snd] in *.
  rewrite (HandleResponse_other _ _ _ _ H1), (IH H2), firstn_all. done.
Qed.

(** X16.  Nothing that arrives changes the printer object unless it is a
    heartbeat response of at least 9 bytes: error responses (0xDB), info
    and print-status responses, acknowledgements, unknown types and short
    heartbeats are handed to [HandleResponse] and leave status, ready flag,
    callbacks and semaphore as they were; the ready callback is not
    invoked. *)
Theorem other_responses_change_nothing (fuel : nat) (p : NiimbotPrinter)
    (fs : list (Z * list Z)) :
  accumulated p [] →
  Forall (λ f, length f.2 ≤ 255) fs →
  Forall (λ f, f.1 ≠ 0xDD%Z ∨ length f.2 < 9) fs →
  length (stream fs) ≤ sizeof_packet_buf →
  length fs < fuel →
  ∃ junk,
    ProcessReceivedData fuel p (stream fs) (length (stream fs))
    = Returns (with_packet_buf p junk 0, map (λ f, EvResponse f.1 f.2) fs).
Proof.
  intros Hacc Hfs Hother Hlen Hfuel.
  destruct (ProcessReceivedData_fits fuel p [] (stream fs) (length (stream fs)) Hacc)
    as (p1 & Hacc1 & Hsame1 & Hcall); [exact Hlen|done|].
  rewrite firstn_all in Hacc1. cbn [app] in Hacc1.
  rewrite <- (app_nil_r (stream fs)) in Hacc1.
  destruct (parse_loop_stream fs fuel p1 p [] Hacc1 Hsame1 Hfs) as (junk & Hloop & _);
    [exists 0%Z, [], 0; split; [cbn; lia|split; [cbn; lia|done]]|done|].
  rewrite run_other in Hloop.
  - exists junk. by rewrite Hcall, Hloop.
  - unfold as_inputs. apply Forall_map. eapply Forall_impl; [exact Hother|].
    intros [t pl] [Ht|Hn]; cbn [fst snd is_heartbeat9] in *.
    + apply andb_false_iff. left. by apply Z.eqb_neq.
    + apply andb_false_iff. right. apply Nat.leb_gt. lia.
Qed.

(** The [switch (data_len)] of the heartbeat branch as a chain of tests. *)
Lemma heartbeat_switch {A : Type} (n : nat) (a b c d e z : A) :
  match n with 20 => a | 13 => b | 19 => c | 10 => d | 9 => e | _ => z end
  = if decide (n = 20) then a else if decide (n = 13) then b
    else if decide (n = 19) then c else if decide (n = 10) then d
    else if decide (n = 9) then e else z.
Proof. do 21 (destruct n as [|n]; [done|]). done. Qed.

(** X17.  A heartbeat response on the wire, for the payload lengths other than
    9 and 13: 20 bytes give the paper and RFID state from payload
    bytes 18 and 19 and keep closing state and power level; 19 bytes give
    all four fields from bytes 15 to 18; 10 bytes give closing state and
    power level from bytes 8 and 9 and keep the other two; every other
    length from 11 on keeps the status as it is.  In each case the printer
    is ready afterwards and the accumulator is empty. *)
Theorem heartbeat_status_on_the_wire (fuel : nat) (p : NiimbotPrinter) (pl : list Z) :
  accumulated p [] → 10 ≤ length pl ≤ 255 → length pl ≠ 13 → 1 ≤ fuel →
  ∃ q evs,
    ProcessReceivedData fuel p (wire_frame 0xDD pl) (length pl + 7) = Returns (q, evs)
    ∧ ready_ q = true ∧ packet_buf_len_ q = 0
    ∧ handled evs = [(0xDD%Z, pl)]
    ∧ status_ q =
        let s := status_ p in
        if decide (length pl = 20)
        then MkStatus (closing_state s) (power_level s) pl.[18] pl.[19]
        else if decide (length pl = 19)
        then MkStatus pl.[15] pl.[16] pl.[17] pl.[18]
        else if decide (length pl = 10)
        then MkStatus pl.[8] pl.[9] (paper_state s) (rfid_read_state s)
        else s.
Proof.
  intros Hacc Hlen H13 Hfuel.
  destruct (ProcessReceivedData_fits fuel p [] (wire_frame 0xDD pl) (length pl + 7) Hacc)
    as (p1 & Hacc1 & Hsame1 & Hcall);
    [cbn [length]; unfold sizeof_packet_buf; lia|by rewrite wire_frame_length|].
  rewrite <- wire_frame_length with (t := 0xDD%Z), firstn_all in Hacc1.
  cbn [app] in Hacc1. rewrite <- (app_nil_r (wire_frame _ _)) in Hacc1.
  destruct (parse_loop_frame fuel p1 p 0xDD pl [] Hacc1 Hsame1) as (junk & Hloop & _);
    [lia|cbn; lia|lia|].
  eexists _, _. split; [by rewrite Hcall, Hloop|].
  pose proof (HandleResponse_ready p 0xDD pl (length pl)) as Hr.
  pose proof (handled_HandleResponse p 0xDD pl (length pl)) as Hh.
  rewrite firstn_all in Hh.
  destruct (HandleResponse p 221 pl (length pl)) as [q e] eqn:HR. cbn [fst snd] in *.
  split.
  { cbn [ready_ with_packet_buf]. rewrite Hr. cbn [is_heartbeat9].
    destruct (Nat.leb_spec 9 (length pl)); [|lia]. by rewrite orb_true_r. }
  split; [done|]. split; [done|]. cbn [status_ with_packet_buf].
  revert HR. unfold HandleResponse.
  change (221 =? 219)%Z with false. change (221 =? 221)%Z with true. cbv iota.
  destruct (Nat.leb_spec 9 (length pl)) as [_|?]; [|lia]. cbn [andb]. cbv zeta.
  rewrite heartbeat_switch.
  set (s' := if decide (length pl = 20) then _ else _).
  intros HR.
  assert (Hq : status_ q = s').
  { destruct (negb _) in HR; injection HR as <- _; done. }
  rewrite Hq. unfold s'. repeat case_decide; done || lia.
Qed.

(** ** Stores of the packet routines *)

Lemma rd_inserts_ge (l k : list Z) (i j : nat) :
  i + length k ≤ j → (list_inserts i k l).[j] = l.[j].
Proof. intros H. unfold rd. by rewrite list_lookup_inserts_ge. Qed.

(** X18.  [BuildPacket] stores into [buf[0 .. data_len + 6]] and nowhere else,
    whatever the payload length: it refuses, with 0 and [buf] untouched,
    exactly when [data_len + 7] exceeds [buf_size]; otherwise it returns
    [data_len + 7 ≤ buf_size] and every byte from there on is as before. *)
Theorem BuildPacket_stores_within_buf_size (buf : list Z) (buf_size : nat) (type : Z)
    (data : list Z) (data_len : nat) :
  let r := BuildPacket buf buf_size type data data_len in
  length r.1 = length buf
  ∧ (if buf_size <? data_len + 7 then r = (buf, 0)
     else r.2 = data_len + 7 ∧ r.2 ≤ buf_size)
  ∧ ∀ i, r.2 ≤ i → r.1.[i] = buf.[i].
Proof.
  cbv zeta. split; [apply BuildPacket_length|].
  unfold BuildPacket.
  destruct (Nat.ltb_spec buf_size (data_len + 7)) as [?|Hfit]; [done|].
  pose proof (copy_loop (λ i, data.[i]) 4 data_len) as Hloop. cbv beta in Hloop.
  rewrite Hloop. clear Hloop. cbn [fst snd].
  split; [lia|]. intros i Hi.
  rewrite !rd_insert_ne by lia.
  rewrite rd_inserts_ge by (rewrite length_map, length_seq; lia).
  by rewrite !rd_insert_ne by lia.
Qed.

(** X19.  The out-parameters of [ParsePacket], for an array of bytes: [data]
    keeps its size and everything from index 255 on, so that the 256-byte
    array of the caller is never overrun; [*data_len] is stored only when
    the call returns true; and when the packet is too short or does not
    begin with the start markers nothing is stored at all. *)
Theorem ParsePacket_out_parameters (buf : list Z) (len : nat) (t0 : Z) (d0 : list Z)
    (l0 : nat) :
  is_byte buf.[3] →
  let r := ParsePacket buf len t0 d0 l0 in
  length (p_data r) = length d0
  ∧ (∀ i, 255 ≤ i → (p_data r).[i] = d0.[i])
  ∧ (returned (p_exit r) = false → p_data_len r = l0)
  ∧ (p_exit r = ExitTooShort ∨ p_exit r = ExitBadStart → r = Parsed (p_exit r) t0 d0 l0).
Proof.
  intros Hb. cbv zeta. unfold ParsePacket.
  destruct (len <? 7); [by intuition|].
  destruct (negb _ || negb _); [by intuition|].
  destruct (len <? _); [by intuition (try discriminate)|].
  destruct (negb _ || negb _); [by intuition (try discriminate)|].
  rewrite (copy_loop (λ i, buf.[4 + i]) 0).
  assert (Hn : Z.to_nat buf.[3] ≤ 255) by (unfold is_byte in Hb; lia).
  assert (Hlen : length (list_inserts 0 (map (λ i, buf.[4 + i]) (seq 0 (Z.to_nat buf.[3]))) d0)
                 = length d0) by apply length_inserts.
  assert (Hrd : ∀ i, 255 ≤ i →
            (list_inserts 0 (map (λ i, buf.[4 + i]) (seq 0 (Z.to_nat buf.[3]))) d0).[i]
            = d0.[i]).
  { intros i Hi. apply rd_inserts_ge. rewrite length_map, length_seq. lia. }
  destruct (negb _); cbn [p_data p_exit p_data_len returned];
    intuition (try discriminate).
Qed.

(** ** Noise *)

Lemma has_start_pair_rd (l : list Z) (i : nat) :
  has_start_pair l = false → i + 1 < length l →
  (l.[i] =? kPacketStart1)%Z && (l.[i + 1] =? kPacketStart2)%Z = false.
Proof.
  revert i. induction l as [|x l IH]; intros i H Hi; [cbn in Hi; lia|].
  destruct l as [|y l]; [cbn in Hi; lia|].
  cbn [has_start_pair] in H. apply orb_false_iff in H as [H1 H2].
  destruct i as [|i]; [exact H1|].
  change ((x :: y :: l).[S i]) with ((y :: l).[i]).
  change ((x :: y :: l).[S i + 1]) with ((y :: l).[i + 1]).
  apply IH; [done|]. cbn [length] in *. lia.
Qed.

Lemma find_start_none (buf : list Z) (r s : nat) :
  (∀ i, s ≤ i < s + r →
        (buf.[i] =? kPacketStart1)%Z && (buf.[i + 1] =? kPacketStart2)%Z = false) →
  find_start buf r s = s + r.
Proof.
  revert s. induction r as [|r IH]; intros s H; cbn [find_start]; [lia|].
  rewrite (H s) by lia. rewrite IH; [lia|]. intros i Hi. apply H. lia.
Qed.

(** X20.  Bytes in which no two adjacent 0x55 occur are never kept: once seven
    of them have come together, the call drops all but the last one (which
    may be the first half of a start marker), hands nothing to
    [HandleResponse] and returns after a single pass. *)
Theorem noise_is_discarded (fuel : nat) (p : NiimbotPrinter) (bs data : list Z)
    (len : nat) :
  accumulated p bs → len ≤ length data →
  7 ≤ length bs + len ≤ sizeof_packet_buf →
  has_start_pair (bs ++ take len data) = false → 1 ≤ fuel →
  ∃ q, ProcessReceivedData fuel p data len = Returns (q, [])
       ∧ same_device q p
       ∧ accumulated q (drop (length bs + len - 1) (bs ++ take len data))
       ∧ packet_buf_len_ q = 1.
Proof.
  intros Hacc Hdata [H7 H512] Hnoise Hfuel.
  destruct (ProcessReceivedData_fits fuel p bs data len Hacc H512 Hdata)
    as (p1 & Hacc1 & Hsame1 & ->).
  set (noise := bs ++ take len data) in *.
  assert (Hn : length noise = length bs + len).
  { unfold noise. rewrite length_app, length_take. lia. }
  pose proof Hacc1 as (Hb1 & Hl1 & _).
  assert (Hfs : find_start (packet_buf_ p1) (packet_buf_len_ p1 - 1) 0 = length noise - 1).
  { rewrite find_start_none; [lia|]. intros i Hi.
    rewrite !(accumulated_rd p1 noise) by (done || lia).
    apply has_start_pair_rd; [done|lia]. }
  destruct fuel as [|fuel]; [lia|]. cbn [parse_loop].
  destruct (Nat.ltb_spec (packet_buf_len_ p1) 7) as [?|_]; [lia|].
  unfold parse_pass. cbv zeta. rewrite Hfs.
  destruct (Nat.ltb_spec 0 (length noise - 1)) as [_|?]; [|lia].
  pose proof (drop_front_accumulated p1 noise (length noise - 1) Hacc1 ltac:(lia)) as Hacc2.
  pose proof Hacc2 as (_ & Hl2 & _). rewrite length_drop in Hl2.
  destruct (Nat.ltb_spec (packet_buf_len_ (drop_front p1 (length noise - 1))) 7) as [_|?];
    [|lia].
  eexists. split; [done|]. split.
  { eapply same_device_trans; [apply same_device_drop_front|done]. }
  split; [by rewrite <- Hn|lia].
Qed.

(** ** Every handled frame was received *)

Lemma scanned_trans (a b c : list Z) (fs1 fs2 : list (Z * list Z)) :
  scanned a fs1 b → scanned b fs2 c → scanned a (fs1 ++ fs2) c.
Proof.
  induction 1 as [bs|g bs fs rest _ IH|t pl bs fs rest Hpl _ IH]; intros H2.
  - done.
  - apply scanned_drop, IH, H2.
  - cbn [app]. apply scanned_frame; [done|]. apply IH, H2.
Qed.

Lemma scanned_drop_front (bs : list Z) (k : nat) (fs : list (Z * list Z)) (rest : list Z) :
  scanned (drop k bs) fs rest → scanned bs fs rest.
Proof. intros H. rewrite <- (take_drop k bs). by apply scanned_drop. Qed.

(** One pass of the loop takes at most one frame out of the accumulated
    bytes, and that frame is there. *)
Lemma parse_pass_scanned (p : NiimbotPrinter) (bs : list Z) :
  accumulated p bs → Forall is_byte bs →
  ∃ bs', accumulated (parse_pass p).1.1 bs' ∧ Forall is_byte bs'
         ∧ scanned bs (handled (parse_pass p).1.2) bs'.
Proof.
  intros Hacc Hbytes. unfold parse_pass. cbv zeta.
  set (k := find_start (packet_buf_ p) (packet_buf_len_ p - 1) 0).
  assert (Hk : k ≤ length bs).
  { unfold k. pose proof (find_start_le (packet_buf_ p) (packet_buf_len_ p - 1) 0).
    destruct Hacc as (_ & Hl & _). lia. }
  set (p1 := if 0 <? k then drop_front p k else p).
  assert (Hacc1 : accumulated p1 (drop k bs)).
  { unfold p1. destruct (Nat.ltb_spec 0 k); [by apply drop_front_accumulated|].
    by replace k with 0 by lia. }
  assert (Hbytes1 : Forall is_byte (drop k bs)) by (by apply Forall_drop).
  match goal with |- ∃ bs', accumulated ?X bs' ∧ _ ∧ scanned _ ?Y _ =>
    cut (∃ bs', accumulated X bs' ∧ Forall is_byte bs' ∧ scanned (drop k bs) Y bs')
  end.
  { intros (bs' & H1 & H2 & H3). exists bs'. split; [done|]. split; [done|].
    by apply (scanned_drop_front bs k). }
  clearbody p1. generalize dependent (drop k bs). clear. intros bs1 Hacc Hbytes.
  pose proof Hacc as (Hbuf & Hl & Ht).
  destruct (Nat.ltb_spec (packet_buf_len_ p1) 7) as [?|H7].
  { exists bs1. cbn [fst snd]. split; [done|]. split; [done|]. apply scanned_stop. }
  set (r := ParsePacket (packet_buf_ p1) (packet_buf_len_ p1) 0 (replicate 256 0%Z) 0).
  assert (Hle : length bs1 ≤ length (packet_buf_ p1)).
  { rewrite <- Ht at 1. rewrite length_take. lia. }
  destruct (returned (p_exit r)) eqn:Hret.
  - destruct (ParsePacket_sound (packet_buf_ p1) (packet_buf_len_ p1) 0
                (replicate 256 0%Z) 0) as (H255 & Hfit & Hframe);
      [lia| |rewrite length_replicate; lia|exact Hret|].
    { rewrite (accumulated_rd p1 bs1 3 Hacc) by lia. by apply rd_byte. }
    fold r in H255, Hfit, Hframe.
    pose proof (HandleResponse_frame_fields p1 (p_type r) (p_data r) (p_data_len r))
      as (_ & _ & _ & F4 & F5).
    pose proof (handled_HandleResponse p1 (p_type r) (p_data r) (p_data_len r)) as Hh.
    destruct (HandleResponse p1 (p_type r) (p_data r) (p_data_len r)) as [q e].
    cbn [fst snd] in *.
    exists (drop (p_data_len r + 7) bs1). split.
    { apply drop_front_accumulated; [|lia]. unfold accumulated. by rewrite F4, F5. }
    split; [by apply Forall_drop|].
    rewrite Hh. rewrite <- (take_drop (p_data_len r + 7) bs1) at 1.
    assert (Hfr : take (p_data_len r + 7) bs1
                  = wire_frame (p_type r) (take (p_data_len r) (p_data r))).
    { rewrite <- Hframe, <- Ht, take_take. f_equal. lia. }
    rewrite Hfr. apply scanned_frame; [rewrite length_take; lia|apply scanned_stop].
  - destruct (Nat.leb_spec 4 (packet_buf_len_ p1)); [|lia].
    destruct (_ <? _); cbn [fst snd].
    + exists bs1. split; [done|]. split; [done|]. apply scanned_stop.
    + exists (drop 1 bs1). split; [apply drop_front_accumulated; [done|lia]|].
      split; [by apply Forall_drop|].
      apply (scanned_drop_front bs1 1), scanned_stop.
Qed.

Lemma parse_loop_scanned (fuel : nat) (p : NiimbotPrinter) (bs : list Z) :
  accumulated p bs → Forall is_byte bs → length bs < fuel + 7 →
  ∃ q evs rest,
    parse_loop fuel p = Returns (q, evs)
    ∧ accumulated q rest ∧ Forall is_byte rest
    ∧ scanned bs (handled evs) rest.
Proof.
  revert p bs. induction fuel as [|fuel IH]; intros p bs Hacc Hbytes Hlen;
    pose proof Hacc as (_ & Hl & _); cbn [parse_loop].
  - destruct (Nat.ltb_spec (packet_buf_len_ p) 7); [|lia].
    exists p, [], bs. split; [done|]. split; [done|]. split; [done|]. apply scanned_stop.
  - destruct (Nat.ltb_spec (packet_buf_len_ p) 7) as [?|H7].
    { exists p, [], bs. split; [done|]. split; [done|]. split; [done|]. apply scanned_stop. }
    destruct (parse_pass_scanned p bs Hacc Hbytes) as (bs1 & Hacc1 & Hbytes1 & Hsc1).
    pose proof (parse_pass_len p) as [_ Hlt].
    destruct (parse_pass p) as [[p1 e1] fl]. cbn [fst snd] in *.
    destruct fl; [|by exists p1, e1, bs1].
    destruct (IH p1 bs1 Hacc1 Hbytes1) as (q & e2 & rest & Hq & Haccq & Hbq & Hsc2).
    { destruct Hacc1 as (_ & Hl1 & _). specialize (Hlt H7 eq_refl). lia. }
    rewrite Hq. exists q, (e1 ++ e2), rest. split; [done|]. split; [done|].
    split; [done|]. rewrite handled_app. by eapply scanned_trans.
Qed.

(** X21.  [HandleResponse] is only ever called with frames that were received:
    for every delivery of bytes, the frames handled by the call are wire
    frames that occur, in that order and without overlap, in the bytes
    accumulated before followed by the bytes delivered, and what stays
    accumulated is what follows the last of them (or a later part of
    it). *)
Theorem handled_frames_were_received (fuel : nat) (p : NiimbotPrinter)
    (bs data : list Z) (len : nat) :
  accumulated p bs → Forall is_byte bs → Forall is_byte data →
  len ≤ length data → len ≤ sizeof_packet_buf → sizeof_packet_buf < fuel + 7 →
  ∃ q evs rest,
    ProcessReceivedData fuel p data len = Returns (q, evs)
    ∧ accumulated q rest
    ∧ scanned (bs ++ take len data) (handled evs) rest.
Proof.
  intros Hacc Hbytes Hdata Hlen H512 Hfuel.
  pose proof Hacc as (Hbuf & Hl & _).
  assert (Htake : Forall is_byte (take len data)) by (by apply Forall_take).
  destruct (decide (length bs + len ≤ sizeof_packet_buf)) as [Hfit|Hover].
  - destruct (ProcessReceivedData_fits fuel p bs data len Hacc Hfit Hlen)
      as (p1 & Hacc1 & _ & ->).
    destruct (parse_loop_scanned fuel p1 _ Hacc1) as (q & evs & rest & Hq & Haq & _ & Hsc).
    { by apply Forall_app. }
    { rewrite length_app, length_take. lia. }
    by exists q, evs, rest.
  - rewrite ProcessReceivedData_overflow by lia.
    assert (Hacc0 : accumulated (with_packet_buf p (packet_buf_ p) 0) [])
      by (by apply accumulated_nil).
    destruct (ProcessReceivedData_fits fuel _ [] data len Hacc0) as (p1 & Hacc1 & _ & ->);
      [cbn [length]; lia|done|].
    cbn [app] in Hacc1.
    destruct (parse_loop_scanned fuel p1 _ Hacc1 Htake)
      as (q & evs & rest & Hq & Haq & _ & Hsc).
    { rewrite length_take. lia. }
    exists q, evs, rest. split; [done|]. split; [done|]. by apply scanned_drop.
Qed.

(** ** The application *)

Lemma up_to_semaphore_fields (p q : NiimbotPrinter) :
  up_to_semaphore p q →
  send_callback_ q = send_callback_ p ∧ ready_callback_ q = ready_callback_ p
  ∧ ready_ q = ready_ p ∧ packet_buf_ q = packet_buf_ p.
Proof. unfold up_to_semaphore. by intros ->. Qed.

(** What a pass of the receive loop keeps. *)
Lemma parse_pass_fields (p : NiimbotPrinter) :
  let q := (parse_pass p).1.1 in
  send_callback_ q = send_callback_ p ∧ ready_callback_ q = ready_callback_ p
  ∧ (ready_ p = true → ready_ q = true).
Proof.
  unfold parse_pass. cbv zeta.
  set (p1 := if 0 <? _ then _ else p).
  assert (H1 : send_callback_ p1 = send_callback_ p ∧ ready_callback_ p1 = ready_callback_ p
               ∧ ready_ p1 = ready_ p) by (unfold p1; by destruct (0 <? _)).
  destruct H1 as (<- & <- & <-). clearbody p1.
  destruct (packet_buf_len_ p1 <? 7); [done|].
  destruct (returned _).
  - set (r := ParsePacket _ _ _ _ _).
    pose proof (HandleResponse_frame_fields p1 (p_type r) (p_data r) (p_data_len r))
      as (F1 & F2 & _).
    pose proof (HandleResponse_ready p1 (p_type r) (p_data r) (p_data_len r)) as Hr.
    destruct (HandleResponse _ _ _ _) as [q e]. cbn [fst snd] in *.
    unfold drop_front. cbn [send_callback_ ready_callback_ ready_ with_packet_buf].
    split; [done|]. split; [done|]. intros Hp. by rewrite Hr, Hp.
  - destruct (4 <=? _); [|done]. by destruct (_ <? _).
Qed.

Lemma parse_loop_fields (fuel : nat) (p q : NiimbotPrinter) (evs : list event) :
  parse_loop fuel p = Returns (q, evs) →
  send_callback_ q = send_callback_ p ∧ ready_callback_ q = ready_callback_ p
  ∧ (ready_ p = true → ready_ q = true).
Proof.
  revert p q evs. induction fuel as [|fuel IH]; intros p q evs; cbn [parse_loop];
    (destruct (packet_buf_len_ p <? 7); [by intros [= <- _]|]); [done|].
  pose proof (parse_pass_fields p) as (F1 & F2 & F3).
  destruct (parse_pass p) as [[p1 e1] fl]. cbn [fst snd] in *.
  destruct fl; [|by intros [= <- _]].
  destruct (parse_loop fuel p1) as [[q1 e2]| |] eqn:Hq; [|done|done].
  intros [= <- _]. destruct (IH p1 q1 e2 Hq) as (G1 & G2 & G3).
  split; [congruence|]. split; [congruence|]. auto.
Qed.

Lemma ProcessReceivedData_fields (fuel : nat) (p q : NiimbotPrinter) (data : list Z)
    (len : nat) (evs : list event) :
  ProcessReceivedData fuel p data len = Returns (q, evs) →
  send_callback_ q = send_callback_ p ∧ ready_callback_ q = ready_callback_ p
  ∧ (ready_ p = true → ready_ q = true).
Proof.
  unfold ProcessReceivedData.
  set (p0 := if _ <? _ then _ else p).
  assert (H0 : send_callback_ p0 = send_callback_ p ∧ ready_callback_ p0 = ready_callback_ p
               ∧ ready_ p0 = ready_ p) by (unfold p0; by destruct (_ <? _)).
  destruct H0 as (<- & <- & <-). clearbody p0.
  destruct (_ <? _); [done|]. intros H. by apply parse_loop_fields in H.
Qed.

Section ApplicationProperties.

Variable write_completes : nat → bool.
Variable decode_rle_row_1bpp : RleImage → Z → list Z → nat → list Z.

Lemma SendPacket_up_to_semaphore (code : RequestCode) (data : list Z) (data_len : nat)
    (wait : bool) (w : World) :
  up_to_semaphore (w_printer w)
    (w_printer (SendPacket write_completes code data data_len wait w).2).
Proof.
  rewrite SendPacket_cases. cbv zeta.
  destruct (negb _); [apply up_to_semaphore_refl|].
  destruct (250 <=? _); [apply up_to_semaphore_refl|]. cbn [snd w_printer].
  unfold up_to_semaphore. destruct (wait && _); by destruct (w_printer w).
Qed.

Lemma Print_up_to_semaphore (image : RleImage) (w : World) :
  up_to_semaphore (w_printer w)
    (w_printer (Print write_completes decode_rle_row_1bpp image w).2).
Proof.
  destruct (ready_ (w_printer w)) eqn:Hready;
    [destruct (send_callback_ (w_printer w)) eqn:Hcb|].
  - by destruct (Print_send_only write_completes decode_rle_row_1bpp image w Hready Hcb)
      as (_ & _ & H & _).
  - rewrite Print_refused by (by right). apply up_to_semaphore_refl.
  - rewrite Print_refused by (by left). apply up_to_semaphore_refl.
Qed.

(** The printer object through one pass of the main loop. *)
Lemma loop_pass_printer (touched : bool) (random : Z) (sign : RleImage) (a : App) :
  up_to_semaphore (w_printer (app_world a))
    (w_printer (app_world (loop_pass write_completes decode_rle_row_1bpp
                             touched random sign a))).
Proof.
  unfold loop_pass. cbv zeta. destruct touched; cbn [negb].
  - destruct (negb _); [apply up_to_semaphore_refl|].
    pose proof (Print_up_to_semaphore sign (app_world a)) as H.
    destruct (Print _ _ _ _) as [err w']. cbn [snd] in H.
    by destruct (bool_decide _).
  - destruct (IsReady _); [|apply up_to_semaphore_refl].
    apply SendPacket_up_to_semaphore.
Qed.

(** What one event keeps of the printer object. *)
Lemma app_step_printer (a a' : App) (e : app_event) :
  app_step write_completes decode_rle_row_1bpp a e = Returns a' →
  let p := w_printer (app_world a) in
  let p' := w_printer (app_world a') in
  send_callback_ p' = send_callback_ p ∧ ready_callback_ p' = ready_callback_ p
  ∧ (ready_ p = true → ready_ p' = true).
Proof.
  cbv zeta. destruct e as [data len| | |touched random sign]; cbn [app_step].
  - destruct (ProcessReceivedData _ _ _ _) as [[q evs]| |] eqn:Hq; [|done|done].
    intros [= <-]. cbn [app_world w_printer].
    by apply ProcessReceivedData_fields in Hq.
  - intros [= <-]. cbn [app_world w_printer]. unfold OnWriteComplete.
    by destruct (write_semaphore_ _).
  - intros [= <-]. cbn [app_world]. unfold SendHeartbeat.
    destruct (up_to_semaphore_fields _ _
                (SendPacket_up_to_semaphore HEARTBEAT [1%Z] 1 true (app_world a)))
      as (-> & -> & -> & _). done.
  - intros [= <-].
    destruct (up_to_semaphore_fields _ _ (loop_pass_printer touched random sign a))
      as (-> & -> & -> & _). done.
Qed.

Lemma app_run_printer (es : list app_event) (a a' : App) :
  app_run write_completes decode_rle_row_1bpp a es = Returns a' →
  let p := w_printer (app_world a) in
  let p' := w_printer (app_world a') in
  send_callback_ p' = send_callback_ p ∧ ready_callback_ p' = ready_callback_ p
  ∧ (ready_ p = true → ready_ p' = true).
Proof.
  cbv zeta. revert a. induction es as [|e es IH]; intros a; cbn [app_run].
  - by intros [= <-].
  - destruct (app_step _ _ a e) as [a1| |] eqn:H1; [|done|done].
    intros H. apply app_step_printer in H1 as (F1 & F2 & F3).
    apply IH in H as (G1 & G2 & G3).
    split; [congruence|]. split; [congruence|]. auto.
Qed.

(** The receive array keeps its 512 bytes, so that deliveries that fit
    are always processed. *)
Lemma app_step_returns (a : App) (e : app_event) :
  length (packet_buf_ (w_printer (app_world a))) = sizeof_packet_buf →
  fits_array e →
  ∃ a', app_step write_completes decode_rle_row_1bpp a e = Returns a'
        ∧ length (packet_buf_ (w_printer (app_world a'))) = sizeof_packet_buf.
Proof.
  intros Hbuf Hfit. destruct e as [data len| | |touched random sign]; cbn [app_step].
  - destruct (ProcessReceivedData_terminates 506 (w_printer (app_world a)) data len)
      as (q & evs & -> & _ & Hq); [done|exact Hfit|unfold sizeof_packet_buf; lia|].
    by eexists.
  - eexists. split; [done|]. cbn [app_world w_printer]. unfold OnWriteComplete.
    by destruct (write_semaphore_ _).
  - eexists. split; [done|]. cbn [app_world].
    destruct (up_to_semaphore_fields _ _
                (SendPacket_up_to_semaphore HEARTBEAT [1%Z] 1 true (app_world a)))
      as (_ & _ & _ & Hb).
    unfold SendHeartbeat. by rewrite Hb.
  - eexists. split; [done|].
    destruct (up_to_semaphore_fields _ _ (loop_pass_printer touched random sign a))
      as (_ & _ & _ & Hb).
    by rewrite Hb.
Qed.

Lemma app_run_returns (es : list app_event) (a : App) :
  length (packet_buf_ (w_printer (app_world a))) = sizeof_packet_buf →
  Forall fits_array es →
  ∃ a', app_run write_completes decode_rle_row_1bpp a es = Returns a'
        ∧ length (packet_buf_ (w_printer (app_world a'))) = sizeof_packet_buf.
Proof.
  revert a. induction es as [|e es IH]; intros a Hbuf Hfit; cbn [app_run]; [by eexists|].
  apply Forall_cons in Hfit as [He Hes].
  destruct (app_step_returns a e Hbuf He) as (a1 & -> & Hbuf1).
  by apply IH.
Qed.

(** X22.  In the application the printer, once ready, stays ready: whatever
    arrives and whatever the main loop does -- with deliveries of at most
    512 bytes every event is processed -- the send callback stays installed,
    no ready callback is ever there to be called, and nothing takes the
    ready flag back (nothing calls [Reset], not even a disconnect); so from
    the first heartbeat response on, no [Print] is refused with
    [ESP_ERR_INVALID_STATE]. *)
Theorem app_stays_ready (es1 es2 : list app_event) :
  Forall fits_array (es1 ++ es2) →
  ∃ a a',
    app_run write_completes decode_rle_row_1bpp app_start es1 = Returns a
    ∧ app_run write_completes decode_rle_row_1bpp a es2 = Returns a'
    ∧ send_callback_ (w_printer (app_world a')) = true
    ∧ ready_callback_ (w_printer (app_world a')) = false
    ∧ (ready_ (w_printer (app_world a)) = true →
       ready_ (w_printer (app_world a')) = true
       ∧ ∀ sign, (Print write_completes decode_rle_row_1bpp sign (app_world a')).1
                 ≠ ESP_ERR_INVALID_STATE).
Proof.
  intros Hfit. apply Forall_app in Hfit as [Hfit1 Hfit2].
  destruct (app_run_returns es1 app_start eq_refl Hfit1) as (a & Ha & Hbuf).
  destruct (app_run_returns es2 a Hbuf Hfit2) as (a' & Ha' & _).
  exists a, a'. split; [done|]. split; [done|].
  apply app_run_printer in Ha as (F1 & F2 & _).
  apply app_run_printer in Ha' as (G1 & G2 & G3).
  assert (Hcb : send_callback_ (w_printer (app_world a')) = true) by (by rewrite G1, F1).
  split; [done|]. split; [by rewrite G2, F2|].
  intros Hready. split; [auto|]. intros sign.
  by destruct (Print_send_only write_completes decode_rle_row_1bpp sign (app_world a')
                 (G3 Hready) Hcb).
Qed.

Lemma loop_pass_leds (touched : bool) (random : Z) (sign : RleImage) (a : App) :
  ∃ calls,
    app_leds (loop_pass write_completes decode_rle_row_1bpp touched random sign a)
    = app_leds a ++ calls
    ∧ (calls = [] ∨ last calls = Some LedsStop)
    ∧ Forall regular_animation calls.
Proof.
  unfold loop_pass, showError. cbv zeta. destruct touched; cbn [negb].
  - destruct (negb _); cbn [app_leds app_world].
    + exists [LedsStartAnimation BlinkAll; LedsStop].
      split; [done|]. split; [by right|]. by repeat apply Forall_cons_2.
    + destruct (Print _ _ _ _) as [err w'].
      assert (Hid : regular_animation
                      (LedsStartAnimationId (u8 (1 + random mod kNumRandomAnimations)))).
      { unfold regular_animation, u8, kNumRandomAnimations, animation_value.
        pose proof (Z.mod_pos_bound random 3 ltac:(lia)).
        rewrite Z.mod_small by lia. lia. }
      destruct (bool_decide _); cbn [app_leds app_world]; rewrite <- app_assoc.
      * exists ([LedsStartAnimationId (u8 (1 + random mod kNumRandomAnimations))]
                ++ [LedsStartAnimation BlinkAll; LedsStop]).
        split; [done|]. split; [by right|].
        apply Forall_cons_2; [exact Hid|]. by repeat apply Forall_cons_2.
      * exists ([LedsStartAnimationId (u8 (1 + random mod kNumRandomAnimations))]
                ++ [LedsStop]).
        split; [done|]. split; [by right|].
        apply Forall_cons_2; [exact Hid|]. by repeat apply Forall_cons_2.
  - exists []. rewrite app_nil_r. split; [by destruct (IsReady _)|].
    split; [by left|constructor].
Qed.

Lemma last_app_stop (l1 l2 : list leds_call) :
  l1 = [] ∨ last l1 = Some LedsStop → l2 = [] ∨ last l2 = Some LedsStop →
  l1 ++ l2 = [] ∨ last (l1 ++ l2) = Some LedsStop.
Proof.
  intros H1 [->|H2]; [by rewrite app_nil_r|].
  right. destruct l2 as [|x l2] using rev_ind; [done|].
  rewrite app_assoc, !last_snoc in *. done.
Qed.

(** X23.  The LEDs through any run of the application: every call that starts
    an animation is followed by [Stop] before the pass of the main loop is
    over, so between passes no animation is left running; the animation
    started by id is always Chase, Twinkle or Wave -- never id 0, which
    would stop, never the error animation, never an id that
    [StartAnimation] rejects; and the only animation started by name is
    the error animation. *)
Theorem leds_stopped_after_every_pass (es : list app_event) :
  Forall fits_array es →
  ∃ a, app_run write_completes decode_rle_row_1bpp app_start es = Returns a
       ∧ (app_leds a = [] ∨ last (app_leds a) = Some LedsStop)
       ∧ Forall regular_animation (app_leds a).
Proof.
  intros Hfit.
  cut (∀ a0, length (packet_buf_ (w_printer (app_world a0))) = sizeof_packet_buf →
             ∃ a calls,
               app_run write_completes decode_rle_row_1bpp a0 es = Returns a
               ∧ app_leds a = app_leds a0 ++ calls
               ∧ (calls = [] ∨ last calls = Some LedsStop)
               ∧ Forall regular_animation calls).
  { intros H. destruct (H app_start eq_refl) as (a & calls & Ha & Hl & Hlast & Hreg).
    exists a. by rewrite Hl. }
  induction es as [|e es IH]; intros a0 Hbuf; cbn [app_run].
  { exists a0, []. rewrite app_nil_r. split; [done|]. split; [done|].
    split; [by left|constructor]. }
  apply Forall_cons in Hfit as [He Hes].
  destruct (app_step_returns a0 e Hbuf He) as (a1 & H1 & Hbuf1). rewrite H1.
  destruct (IH Hes a1 Hbuf1) as (a & calls & Ha & Hl & Hlast & Hreg).
  assert (Hstep : ∃ calls1, app_leds a1 = app_leds a0 ++ calls1
                            ∧ (calls1 = [] ∨ last calls1 = Some LedsStop)
                            ∧ Forall regular_animation calls1).
  { destruct e as [data len| | |touched random sign]; cbn [app_step] in H1.
    - destruct (ProcessReceivedData _ _ _ _) as [[q evs]| |]; [|done|done].
      injection H1 as <-. exists []. rewrite app_nil_r.
      split; [done|]. split; [by left|constructor].
    - injection H1 as <-. exists []. rewrite app_nil_r.
      split; [done|]. split; [by left|constructor].
    - injection H1 as <-. exists []. rewrite app_nil_r.
      split; [done|]. split; [by left|constructor].
    - injection H1 as <-. apply loop_pass_leds. }
  destruct Hstep as (calls1 & Hl1 & Hlast1 & Hreg1).
  exists a, (calls1 ++ calls). split; [done|].
  split; [by rewrite Hl, Hl1, app_assoc|].
  split; [by apply last_app_stop|by apply Forall_app].
Qed.

End ApplicationProperties.

(** ** The touch sensor *)

Section TouchProperties.

Variable gpio_get_level : nat → Z.

(** A polling loop with enough evaluations for its [max]: it ends, after
    [n] polls whose reads all kept it going; either by [return false] when
    the budget is used up, or by a read that ends it. *)
Lemma poll_loop_spec (while_low : bool) (fuel : nat) (max : Z) (s : touch_state) :
  Z.to_nat max < fuel →
  ∃ e s' n,
    poll_loop gpio_get_level while_low fuel max s = Returns (e, s')
    ∧ t_polls s' = t_polls s + n
    ∧ (∀ j, t_reads s ≤ j < t_reads s + n →
            Bool.eqb (gpio_get_level j =? 0)%Z while_low = true)
    ∧ match e with
      | TimedOut => t_reads s' = t_reads s + n ∧ n = Z.to_nat (Z.max 1 max)
      | LoopLeft m =>
          t_reads s' = t_reads s + n + 1
          ∧ Bool.eqb (gpio_get_level (t_reads s + n) =? 0)%Z while_low = false
          ∧ m = (max - Z.of_nat n)%Z
          ∧ (n = 0 ∨ (1 ≤ m)%Z)
          ∧ n < Z.to_nat (Z.max 1 max)
      end.
Proof.
  revert max s. induction fuel as [|fuel IH]; intros max s Hfuel; [lia|].
  cbn [poll_loop]. cbv zeta. cbn [t_reads t_polls].
  destruct (Bool.eqb (gpio_get_level (t_reads s) =? 0)%Z while_low) eqn:Hc.
  - destruct (Z.leb_spec (max - 1) 0) as [Hle|Hgt].
    + exists TimedOut, (MkTouch (S (t_reads s)) (S (t_polls s))), 1.
      cbn [t_reads t_polls]. split; [done|]. split; [lia|]. split.
      * intros j Hj. by replace j with (t_reads s) by lia.
      * lia.
    + destruct (IH (max - 1)%Z (MkTouch (S (t_reads s)) (S (t_polls s))) ltac:(lia))
        as (e & s' & n & Hr & Hp & Hall & He).
      cbn [t_reads t_polls] in *.
      exists e, s', (S n). split; [done|]. split; [lia|]. split.
      * intros j Hj. destruct (decide (j = t_reads s)) as [->|]; [done|].
        apply Hall. lia.
      * destruct e as [|m].
        -- lia.
        -- destruct He as (H1 & H2 & H3 & H4 & H5).
           replace (t_reads s + S n) with (S (t_reads s) + n) by lia.
           split; [lia|]. split; [done|]. split; [lia|]. split; [right; lia|lia].
  - exists (LoopLeft max), (MkTouch (S (t_reads s)) (t_polls s)), 0.
    cbn [t_reads t_polls]. split; [done|]. split; [lia|]. split; [intros j Hj; lia|].
    rewrite Nat.add_0_r. split; [lia|]. split; [done|]. split; [lia|]. split; [by left|lia].
Qed.

Lemma max_of_timeout (timeout_ms : Z) :
  (0 ≤ timeout_ms < 2 ^ 31)%Z →
  to_int (to_size_t timeout_ms / kPollingTimeout) = (timeout_ms / 10)%Z.
Proof.
  intros H. unfold to_int, to_size_t, kPollingTimeout.
  rewrite (Z.mod_small timeout_ms) by lia.
  assert (0 ≤ timeout_ms / 10 < 2 ^ 31)%Z.
  { split; [apply Z.div_pos; lia|]. apply Z.div_lt_upper_bound; lia. }
  rewrite Z.mod_small by lia. lia.
Qed.

(** X24.  [Touch::Wait] returns true only on a touch seen after a release and
    held through the debounce delay: the last three levels that it read
    are non-zero, zero, zero. *)
Theorem Wait_true_on_held_touch (calls : nat) (timeout_ms : Z) (s s' : touch_state) :
  Wait gpio_get_level calls true timeout_ms s = Returns (true, s') →
  t_reads s + 3 ≤ t_reads s'
  ∧ gpio_get_level (t_reads s' - 3) ≠ 0%Z
  ∧ gpio_get_level (t_reads s' - 2) = 0%Z
  ∧ gpio_get_level (t_reads s' - 1) = 0%Z.
Proof.
  revert s. induction calls as [|calls IH]; intros s; cbn [Wait negb]; [done|].
  cbv zeta. set (max := to_int _).
  destruct (poll_loop_spec true (S (Z.to_nat max)) max s ltac:(lia))
    as (e1 & s1 & n1 & -> & _ & _ & He1).
  destruct e1 as [|m1]; [done|]. destruct He1 as (Hr1 & Hc1 & _).
  destruct (poll_loop_spec false (S (Z.to_nat m1)) m1 s1 ltac:(lia))
    as (e2 & s2 & n2 & -> & _ & Hall2 & He2).
  destruct e2 as [|m2]; [done|]. destruct He2 as (Hr2 & Hc2 & _).
  cbn [t_reads].
  destruct (Z.eqb_spec (gpio_get_level (t_reads s2)) 0) as [H0|Hn0]; cbn [negb].
  - intros [= <-]. cbn [t_reads].
    replace (S (t_reads s2) - 1) with (t_reads s2) by lia.
    replace (S (t_reads s2) - 2) with (t_reads s1 + n2) by lia.
    replace (S (t_reads s2) - 3) with (t_reads s1 + n2 - 1) by lia.
    split; [lia|]. split; [|split; [|done]].
    + destruct n2 as [|n2].
      * replace (t_reads s1 + 0 - 1) with (t_reads s + n1) by lia.
        destruct (Z.eqb_spec (gpio_get_level (t_reads s + n1)) 0); [done|done].
      * specialize (Hall2 (t_reads s1 + S n2 - 1) ltac:(lia)).
        destruct (Z.eqb_spec (gpio_get_level (t_reads s1 + S n2 - 1)) 0); [done|done].
    + by destruct (Z.eqb_spec (gpio_get_level (t_reads s1 + n2)) 0).
  - intros H. apply IH in H. cbn [t_reads] in H. split; [lia|]. apply H.
Qed.

(** X25.  Without a touch [Touch::Wait(timeout_ms)] gives up after
    [timeout_ms / 10] polling delays of 10 ms, and after one if that is 0:
    both when the line stays low, where the first loop uses the budget up,
    and when it stays high, where the second loop does. *)
Theorem Wait_gives_up_without_touch (calls : nat) (timeout_ms : Z) (s : touch_state) :
  (0 ≤ timeout_ms < 2 ^ 31)%Z →
  let n := poll_budget timeout_ms in
  ((∀ j, t_reads s ≤ j < t_reads s + n → gpio_get_level j = 0%Z) →
   Wait gpio_get_level (S calls) true timeout_ms s
   = Returns (false, MkTouch (t_reads s + n) (t_polls s + n)))
  ∧ ((∀ j, t_reads s ≤ j < t_reads s + n + 1 → gpio_get_level j ≠ 0%Z) →
     Wait gpio_get_level (S calls) true timeout_ms s
     = Returns (false, MkTouch (t_reads s + n + 1) (t_polls s + n))).
Proof.
  intros Ht. cbv zeta. unfold poll_budget. cbn [Wait negb]. cbv zeta.
  rewrite (max_of_timeout timeout_ms Ht).
  set (max := (timeout_ms / 10)%Z).
  destruct (poll_loop_spec true (S (Z.to_nat max)) max s ltac:(lia))
    as (e1 & s1 & n1 & -> & Hp1 & Hall1 & He1).
  split; intros Hlevel.
  - destruct e1 as [|m1].
    + destruct He1 as (Hr1 & ->). f_equal. f_equal. destruct s1. cbn in *. by subst.
    + destruct He1 as (_ & Hc1 & _ & _ & Hlt).
      rewrite (Hlevel (t_reads s + n1)) in Hc1 by lia. done.
  - destruct e1 as [|m1].
    + destruct He1 as (_ & ->).
      specialize (Hall1 (t_reads s) ltac:(lia)).
      destruct (Z.eqb_spec (gpio_get_level (t_reads s)) 0) as [H0|]; [|done].
      by apply Hlevel in H0; [|lia].
    + destruct He1 as (Hr1 & _ & Hm1 & _ & Hlt1).
      assert (n1 = 0) as ->.
      { destruct n1 as [|n1]; [done|].
        specialize (Hall1 (t_reads s) ltac:(lia)).
        destruct (Z.eqb_spec (gpio_get_level (t_reads s)) 0) as [H0|]; [|done].
        by apply Hlevel in H0; [|lia]. }
      replace m1 with max by lia.
      destruct (poll_loop_spec false (S (Z.to_nat max)) max s1 ltac:(lia))
        as (e2 & s2 & n2 & -> & Hp2 & Hall2 & He2).
      destruct e2 as [|m2].
      * destruct He2 as (Hr2 & ->). f_equal. f_equal. destruct s2. cbn in *. subst.
        f_equal; lia.
      * destruct He2 as (_ & Hc2 & _ & _ & Hlt2).
        destruct (Z.eqb_spec (gpio_get_level (t_reads s1 + n2)) 0) as [H0|]; [|done].
        by apply Hlevel in H0; [|lia].
Qed.

(** X26.  The timeout of [Touch::Wait] holds for one attempt only.  A call that
    returns has made at most [timeout_ms / 10] polling delays (one at
    least) for itself and for each call of itself that a bounce led to;
    but when the line bounces each time -- released, touched, released
    again after the debounce delay -- no number of nested calls is enough:
    the call never returns, whatever the timeout. *)
Theorem Wait_timeout_is_per_attempt (calls : nat) (timeout_ms : Z) :
  (0 ≤ timeout_ms < 2 ^ 31)%Z →
  (∀ s b s', Wait gpio_get_level calls true timeout_ms s = Returns (b, s') →
             t_polls s' ≤ t_polls s + calls * poll_budget timeout_ms)
  ∧ ∀ i polls, Wait bouncing calls true timeout_ms (MkTouch (3 * i) polls) = OutOfFuel.
Proof.
  intros Ht. split.
  - induction calls as [|calls IH]; intros s b s'; cbn [Wait negb]; [done|].
    cbv zeta. rewrite (max_of_timeout timeout_ms Ht). unfold poll_budget in *.
    set (max := (timeout_ms / 10)%Z) in *.
    destruct (poll_loop_spec true (S (Z.to_nat max)) max s ltac:(lia))
      as (e1 & s1 & n1 & -> & Hp1 & _ & He1).
    destruct e1 as [|m1]; [intros [= _ <-]; lia|].
    destruct He1 as (_ & _ & Hm1 & Hpos1 & Hlt1).
    destruct (poll_loop_spec false (S (Z.to_nat m1)) m1 s1 ltac:(lia))
      as (e2 & s2 & n2 & -> & Hp2 & _ & He2).
    assert (Hsum : n1 + n2 ≤ Z.to_nat (Z.max 1 max)).
    { destruct e2 as [|m2]; [destruct He2 as (_ & ->)|destruct He2 as (_ & _ & _ & _ & ?)];
        lia. }
    destruct e2 as [|m2]; [intros [= _ <-]; lia|].
    cbn [t_reads t_polls].
    destruct (negb _).
    + intros H. apply IH in H. cbn [t_polls] in H. lia.
    + intros [= _ <-]. cbn [t_polls]. lia.
  - induction calls as [|calls IH]; intros i polls; cbn [Wait negb]; [done|].
    cbv zeta. set (max := to_int _).
    assert (H0 : bouncing (3 * i) = 1%Z).
    { unfold bouncing. replace (3 * i) with (i * 3) by lia. by rewrite Nat.Div0.mod_mul. }
    assert (H1 : bouncing (S (3 * i)) = 0%Z).
    { unfold bouncing. replace (S (3 * i)) with (1 + i * 3) by lia.
      by rewrite Nat.Div0.mod_add. }
    assert (H2 : bouncing (S (S (3 * i))) = 1%Z).
    { unfold bouncing. replace (S (S (3 * i))) with (2 + i * 3) by lia.
      by rewrite Nat.Div0.mod_add. }
    cbn [poll_loop t_reads t_polls]. cbv zeta. rewrite H0. cbn [Z.eqb Bool.eqb].
    cbn [poll_loop t_reads t_polls]. cbv zeta. rewrite H1. cbn [Z.eqb Bool.eqb].
    cbn [t_reads t_polls]. rewrite H2. cbn [Z.eqb negb].
    replace (S (S (S (3 * i)))) with (3 * S i) by lia. apply IH.
Qed.

End TouchProperties.

(** ** The BLE client *)

(** A handler returns unless a registration names a profile that is not
    there. *)
Lemma ble_step_returns (c : BLEClient) (e : ble_event) :
  registers_in_range e → ∃ c' calls, ble_step c e = Returns (c', calls).
Proof.
  intros Hreg. destruct e as [event|event event_if]; cbn [ble_step].
  { destruct (HandleGapEvent c event) as [c' calls]. by eexists _, _. }
  unfold GattcCallback.
  assert (Hd : ∀ c0, ∃ c' calls,
            (if (event_if =? ESP_GATT_IF_NONE)%Z || (event_if =? gattc_if (profiles_ c0))%Z
             then if callback (profiles_ c0)
                  then Returns (HandleGattcEvent c0 event event_if)
                  else Returns (c0, [])
             else Returns (c0, [])) = Returns (c', calls)).
  { intros c0. destruct (HandleGattcEvent c0 event event_if) as [c' calls].
    destruct (_ || _); [destruct (callback _)|]; by eexists _, _. }
  destruct event; cbn [registers_in_range] in Hreg; try apply Hd.
  destruct ok; cbn [negb]; [|by eexists _, _].
  destruct (Z.leb_spec 0 reg_app_id), (Z.ltb_spec reg_app_id kProfileNum); try lia.
  cbn [andb]. apply Hd.
Qed.

Lemma ble_run_returns (es : list ble_event) (c : BLEClient) :
  Forall registers_in_range es → ∃ c' calls, ble_run c es = Returns (c', calls).
Proof.
  revert c. induction es as [|e es IH]; intros c Hreg; cbn [ble_run]; [by eexists _, _|].
  apply Forall_cons in Hreg as [He Hes].
  destruct (ble_step_returns c e He) as (c1 & calls & ->).
  destruct (IH c1 Hes) as (c2 & calls' & ->). by eexists _, _.
Qed.

(** What the handler of the GATT client events does to the connection
    flag and the target address, and which connections it opens. *)
Lemma HandleGattcEvent_opens (c : BLEClient) (event : gattc_event) (event_if : Z) :
  let r := HandleGattcEvent c event event_if in
  opens r.2 = 0
  ∧ target_bda_ r.1 = target_bda_ c
  ∧ (connected_ r.1 = connected_ c
     ∨ connected_ r.1 = false ∧ ends_connection (GattcEvent event event_if) = true).
Proof.
  cbv zeta. unfold HandleGattcEvent. cbv zeta.
  destruct event; cbn [ends_connection]; repeat case_match; cbn; auto.
Qed.

Lemma ble_step_opens (c c' : BLEClient) (e : ble_event) (calls : list ble_call) :
  ble_step c e = Returns (c', calls) →
  opens calls + (if connected_ c' then 0 else 1)
  ≤ (if connected_ c then 0 else 1) + (if ends_connection e then 1 else 0)
  ∧ target_bda_ c' = target_bda_ c
  ∧ Forall (opens_to (target_bda_ c)) calls.
Proof.
  destruct e as [event|event event_if]; cbn [ble_step].
  - intros [= H]. revert H. unfold HandleGapEvent.
    destruct (connected_ c) eqn:Hconn;
      destruct event; cbn [ends_connection]; repeat case_match; intros [= <- <-]; subst;
      cbn [opens List.filter is_open length fst snd connected_ with_connected target_bda_];
      rewrite ?Hconn; try congruence; try done;
      (split; [lia|split; [done|]]); repeat apply Forall_cons_2;
      try apply Forall_nil_2; try exact I.
    cbn [opens_to].
    match goal with H : negb (memcmp_eq _ _ _) = false |- _ =>
      apply negb_false_iff in H; unfold memcmp_eq in H;
      by apply bool_decide_eq_true in H end.
  - unfold GattcCallback.
    assert (Hd : ∀ c0, connected_ c0 = connected_ c → target_bda_ c0 = target_bda_ c →
              (if (event_if =? ESP_GATT_IF_NONE)%Z || (event_if =? gattc_if (profiles_ c0))%Z
               then if callback (profiles_ c0)
                    then Returns (HandleGattcEvent c0 event event_if)
                    else Returns (c0, [])
               else Returns (c0, [])) = Returns (c', calls) →
              opens calls + (if connected_ c' then 0 else 1)
              ≤ (if connected_ c then 0 else 1)
                + (if ends_connection (GattcEvent event event_if) then 1 else 0)
              ∧ target_bda_ c' = target_bda_ c
              ∧ Forall (opens_to (target_bda_ c)) calls).
    { intros c0 Hc Ht.
      pose proof (HandleGattcEvent_opens c0 event event_if) as (Ho & Htb & Hconn).
      destruct (HandleGattcEvent c0 event event_if) as [c1 calls1]. cbn [fst snd] in *.
      destruct (_ || _); [destruct (callback _)|]; intros [= <- <-].
      - split; [|split; [congruence|]].
        + rewrite Ho, <- Hc. destruct Hconn as [->|[-> ->]]; [lia|].
          destruct (connected_ c0); lia.
        + clear -Ho. unfold opens in Ho.
          induction calls1 as [|call calls IH]; [constructor|].
          cbn [List.filter] in Ho. destruct call; cbn [is_open length] in Ho; try done;
            (constructor; [exact I|by apply IH]).
      - rewrite Hc, Ht. cbn. split; [lia|]. split; [done|constructor].
      - rewrite Hc, Ht. cbn. split; [lia|]. split; [done|constructor]. }
    destruct event; try (by apply Hd).
    destruct ok; cbn [negb].
    + destruct (_ && _); [|done]. by apply Hd.
    + intros [= <- <-]. cbn. split; [lia|]. split; [done|constructor].
Qed.

Lemma opens_app (l1 l2 : list ble_call) : opens (l1 ++ l2) = opens l1 + opens l2.
Proof. unfold opens. by rewrite List.filter_app, length_app. Qed.

Lemma ble_run_opens (es : list ble_event) (c c' : BLEClient) (calls : list ble_call) :
  ble_run c es = Returns (c', calls) →
  opens calls + (if connected_ c' then 0 else 1) ≤ (if connected_ c then 0 else 1) + ended es
  ∧ target_bda_ c' = target_bda_ c
  ∧ Forall (opens_to (target_bda_ c)) calls.
Proof.
  revert c c' calls. induction es as [|e es IH]; intros c c' calls; cbn [ble_run].
  - intros [= <- <-]. cbn. split; [lia|]. split; [done|constructor].
  - destruct (ble_step c e) as [[c1 calls1]| |] eqn:H1; [|done|done].
    destruct (ble_run c1 es) as [[c2 calls2]| |] eqn:H2; [|done|done].
    intros [= <- <-].
    apply ble_step_opens in H1 as (Ho1 & Ht1 & Hf1).
    apply IH in H2 as (Ho2 & Ht2 & Hf2).
    rewrite opens_app. unfold ended in *. cbn [List.filter].
    split; [destruct (ends_connection e); cbn [length]; lia|].
    split; [congruence|]. apply Forall_app. split; [done|]. by rewrite <- Ht1.
Qed.

(** X27.  The client never has two connection attempts under way.  Over any
    sequence of GAP and GATT client events after [Initialize], it calls
    [esp_ble_gattc_enh_open] at most once more often than a failed open or
    a disconnect was reported, and no more often than that while no
    connection is under way; and every such call goes to the configured
    printer address. *)
Theorem one_connection_attempt_at_a_time (bda : list Z) (es : list ble_event) :
  Forall registers_in_range es →
  ∃ c calls,
    ble_run (ble_start bda) es = Returns (c, calls)
    ∧ opens calls + (if connected_ c then 0 else 1) ≤ 1 + ended es
    ∧ Forall (opens_to bda) calls.
Proof.
  intros Hreg. destruct (ble_run_returns es (ble_start bda) Hreg) as (c & calls & Hrun).
  exists c, calls. split; [done|].
  apply ble_run_opens in Hrun as (Ho & _ & Hf). done.
Qed.

Lemma ble_step_char_handle (c c' : BLEClient) (e : ble_event) (calls : list ble_call) :
  ble_step c e = Returns (c', calls) →
  char_handle (profiles_ c) = kInvalidHandle → is_search_complete e = false →
  char_handle (profiles_ c') = kInvalidHandle
  ∧ Forall (λ call, is_write_char call = false) calls.
Proof.
  intros H Hc He. destruct e as [event|event event_if]; cbn [ble_step] in H.
  - injection H as H. revert H. unfold HandleGapEvent.
    destruct event; repeat case_match; intros [= <- <-]; subst;
      cbn [fst snd profiles_ with_connected];
      (split; [done|]); by repeat constructor.
  - revert H. unfold GattcCallback.
    assert (Hd : ∀ c0, char_handle (profiles_ c0) = kInvalidHandle →
              (if (event_if =? ESP_GATT_IF_NONE)%Z || (event_if =? gattc_if (profiles_ c0))%Z
               then if callback (profiles_ c0)
                    then Returns (HandleGattcEvent c0 event event_if)
                    else Returns (c0, [])
               else Returns (c0, [])) = Returns (c', calls) →
              char_handle (profiles_ c') = kInvalidHandle
              ∧ Forall (λ call, is_write_char call = false) calls).
    { intros c0 Hc0.
      assert (Hh : char_handle (profiles_ (HandleGattcEvent c0 event event_if).1)
                   = kInvalidHandle
                   ∧ Forall (λ call, is_write_char call = false)
                       (HandleGattcEvent c0 event event_if).2).
      { unfold HandleGattcEvent. cbv zeta.
        destruct event; cbn [is_search_complete] in He; try done;
          repeat case_match; subst; cbn; (split; [done|]); by repeat constructor. }
      destruct (HandleGattcEvent c0 event event_if) as [c1 calls1]. cbn [fst snd] in Hh.
      destruct (_ || _); [destruct (callback _)|]; intros [= <- <-]; [done|..];
        by split; [|constructor]. }
    destruct event; try (by apply Hd).
    destruct ok; cbn [negb].
    + destruct (_ && _); [|done]. by apply Hd.
    + intros [= <- <-]. by split; [|constructor].
Qed.

(** X28.  From its start, and from every disconnect, until a service search
    completes, the client writes nothing: [SendData] drops what it is
    given, without a call into the stack and without a sign to its caller,
    and none of the handlers writes to the characteristic either. *)
Theorem SendData_waits_for_characteristic (c0 : BLEClient) (es : list ble_event) :
  disconnected c0 →
  Forall registers_in_range es → Forall (λ e, is_search_complete e = false) es →
  ∃ c calls,
    ble_run c0 es = Returns (c, calls)
    ∧ (∀ data len wait_for_response, SendData c data len wait_for_response = [])
    ∧ Forall (λ call, is_write_char call = false) calls.
Proof.
  intros Hdis Hreg Hsearch.
  assert (H0 : char_handle (profiles_ c0) = kInvalidHandle).
  { destruct Hdis as [[bda ->]|(c & event_if & ->)]; done. }
  clear Hdis.
  cut (∃ c calls, ble_run c0 es = Returns (c, calls)
                  ∧ char_handle (profiles_ c) = kInvalidHandle
                  ∧ Forall (λ call, is_write_char call = false) calls).
  { intros (c & calls & Hrun & Hc & Hw). exists c, calls. split; [done|].
    split; [|done]. intros data len w. unfold SendData. by rewrite Hc. }
  revert c0 H0. induction es as [|e es IH]; intros c0 H0; cbn [ble_run].
  { exists c0, []. split; [done|]. split; [done|constructor]. }
  apply Forall_cons in Hreg as [Hr Hreg]. apply Forall_cons in Hsearch as [Hs Hsearch].
  destruct (ble_step_returns c0 e Hr) as (c1 & calls1 & H1). rewrite H1.
  apply ble_step_char_handle in H1 as (Hc1 & Hw1); [|done|done].
  destruct (IH Hreg Hsearch c1 Hc1) as (c & calls & -> & Hc & Hw).
  exists c, (calls1 ++ calls). split; [done|]. split; [done|]. by apply Forall_app.
Qed.

(** ** Concrete inputs for Part IV *)

Lemma Forall_is_byte_check (l : list Z) :
  forallb (λ z, (0 <=? z)%Z && (z <? 256)%Z) l = true → Forall is_byte l.
Proof.
  induction l as [|z l IH]; intros H; [constructor|].
  cbn [forallb] in H. apply andb_true_iff in H as [H1 H2].
  constructor; [unfold is_byte; lia|by apply IH].
Qed.

Lemma new_printer_accumulated : accumulated new_printer [].
Proof. by repeat split. Qed.

(** [ParsePacket_accepts_only_frames] for a frame of type 0xDD with two
    payload bytes. *)
Lemma ParsePacket_accepts_only_frames_witness :
  let buf := [0x55; 0x55; 0xDD; 2; 1; 2; 0xDC; 0xAA; 0xAA]%Z in
  let r := ParsePacket buf 9 0 (replicate 256 0%Z) 0 in
  (returned (p_exit r) = true ↔
   ∃ t pl, length pl ≤ 255 ∧ length pl + 7 ≤ 9
           ∧ take (length pl + 7) buf = wire_frame t pl)
  ∧ (returned (p_exit r) = true →
     p_data_len r ≤ 255 ∧ p_data_len r + 7 ≤ 9
     ∧ take (p_data_len r + 7) buf
       = wire_frame (p_type r) (take (p_data_len r) (p_data r))).
Proof.
  apply (ParsePacket_accepts_only_frames
           [0x55; 0x55; 0xDD; 2; 1; 2; 0xDC; 0xAA; 0xAA]%Z 9 0 (replicate 256 0%Z) 0).
  - simpl. lia.
  - unfold is_byte, rd. simpl. lia.
  - rewrite length_replicate. lia.
Defined.

(** [BuildPacket_long_payload_truncates] for 256 payload bytes in a
    300-byte buffer. *)
Lemma BuildPacket_long_payload_truncates_witness :
  let '(pkt, pkt_len) := BuildPacket (replicate 300 0%Z) 300 1 (replicate 256 7%Z) 256 in
  let r := ParsePacket pkt 263 0 (replicate 256 0%Z) 0 in
  pkt_len = 256 + 7
  ∧ pkt.[3] = Z.of_nat (256 mod 256)
  ∧ (returned (p_exit r) = true →
     p_data_len r = 256 mod 256 ∧ p_data_len r < 256).
Proof.
  apply (BuildPacket_long_payload_truncates (replicate 300 0%Z) 300 1 (replicate 256 7%Z)
           256 263 0 (replicate 256 0%Z) 0).
  - lia.
  - lia.
  - rewrite length_replicate. lia.
Defined.

(** [frames_in_one_delivery] for a heartbeat response, a configuration
    response and the first three bytes of a further frame. *)
Lemma frames_in_one_delivery_witness :
  let fs := [(0xDD, replicate 9 1); (0x31, [1])]%Z in
  let part := [0x55; 0x55; 0x40]%Z in
  ∃ q evs,
    ProcessReceivedData 3 new_printer (stream fs ++ part) (length (stream fs ++ part))
    = Returns (q, evs)
    ∧ evs = (run new_printer (as_inputs fs)).2
    ∧ handled evs = fs
    ∧ same_device q (run new_printer (as_inputs fs)).1
    ∧ accumulated q part.
Proof.
  apply (frames_in_one_delivery 3 new_printer
           [(0xDD, replicate 9 1); (0x31, [1])]%Z [0x55; 0x55; 0x40]%Z).
  - exact new_printer_accumulated.
  - repeat constructor; simpl; lia.
  - exists 0x40%Z, [], 3. repeat split; simpl; lia.
  - unfold sizeof_packet_buf. simpl. lia.
  - simpl. lia.
Defined.

(** [garbage_before_frames] for three bytes of garbage before a heartbeat
    response. *)
Lemma garbage_before_frames_witness :
  let g := [1; 2; 3]%Z in
  let f := (0xDD, replicate 9 1)%Z in
  ∃ q evs,
    ProcessReceivedData 2 new_printer (g ++ stream [f] ++ [])
      (length (g ++ stream [f] ++ []))
    = Returns (q, evs)
    ∧ evs = (run new_printer (as_inputs [f])).2
    ∧ handled evs = [f]
    ∧ same_device q (run new_printer (as_inputs [f])).1
    ∧ accumulated q [].
Proof.
  apply (garbage_before_frames 2 new_printer [1; 2; 3]%Z (0xDD, replicate 9 1)%Z [] []).
  - exact new_printer_accumulated.
  - reflexivity.
  - repeat constructor; simpl; lia.
  - exists 0%Z, [], 0. repeat split; simpl; lia.
  - unfold sizeof_packet_buf. simpl. lia.
  - simpl. lia.
Defined.

(** [chunked_stream_delivery] for a heartbeat response cut after its fifth
    byte. *)
Lemma chunked_stream_delivery_witness :
  let fs := [(0xDD, replicate 9 1)]%Z in
  let chunks := [take 5 (stream fs); drop 5 (stream fs)] in
  ∃ q evs,
    deliver 2 new_printer chunks = Returns (q, evs)
    ∧ evs = (run new_printer (as_inputs fs)).2
    ∧ handled evs = fs
    ∧ same_device q (run new_printer (as_inputs fs)).1
    ∧ packet_buf_len_ q = 0.
Proof.
  apply (chunked_stream_delivery 2 new_printer [(0xDD, replicate 9 1)]%Z
           [take 5 (stream [(0xDD, replicate 9 1)]%Z);
            drop 5 (stream [(0xDD, replicate 9 1)]%Z)]).
  - exact new_printer_accumulated.
  - reflexivity.
  - repeat constructor; simpl; lia.
  - repeat constructor; simpl; lia.
  - simpl. lia.
Defined.

(** [accumulator_stays_below_262] for three bytes delivered to a new
    printer. *)
Lemma accumulator_stays_below_262_witness :
  (∃ q evs, ProcessReceivedData 506 new_printer [1; 2; 3]%Z 3 = Returns (q, evs)
            ∧ byte_array q ∧ packet_buf_len_ q ≤ 261)
  ∧ (∀ bs, accumulated new_printer bs → length bs ≤ 261 → 3 ≤ 251 →
       ∃ p', accumulated p' (bs ++ take 3 [1; 2; 3]%Z)
             ∧ ProcessReceivedData 506 new_printer [1; 2; 3]%Z 3 = parse_loop 506 p').
Proof.
  apply (accumulator_stays_below_262 506 new_printer [1; 2; 3]%Z 3).
  - split; [reflexivity|]. apply Forall_is_byte_check. reflexivity.
  - apply Forall_is_byte_check. reflexivity.
  - simpl. lia.
  - unfold sizeof_packet_buf. lia.
  - unfold sizeof_packet_buf. lia.
Defined.

(** [ProcessReceivedData_total] for a new printer. *)
Lemma ProcessReceivedData_total_witness :
  (1 ≤ sizeof_packet_buf →
   ∃ q evs, ∀ fuel, 506 ≤ fuel → ProcessReceivedData fuel new_printer [1%Z] 1 = Returns (q, evs))
  ∧ (sizeof_packet_buf < 1 →
     ∀ fuel, ProcessReceivedData fuel new_printer [1%Z] 1 = Undefined).
Proof. apply (ProcessReceivedData_total new_printer [1%Z] 1). reflexivity. Defined.

(** [stale_bytes_do_not_matter] for two empty accumulators over different
    arrays. *)
Lemma stale_bytes_do_not_matter_witness :
  let q := with_packet_buf new_printer (replicate 512 7%Z) 0 in
  match ProcessReceivedData 2 new_printer (wire_frame 1 [7%Z]) 8,
        ProcessReceivedData 2 q (wire_frame 1 [7%Z]) 8 with
  | Returns (p', e), Returns (q', e') =>
      e = e' ∧ same_device p' q'
      ∧ ∃ bs', accumulated p' bs' ∧ accumulated q' bs'
  | Undefined, Undefined => True
  | OutOfFuel, OutOfFuel => True
  | _, _ => False
  end.
Proof.
  apply (stale_bytes_do_not_matter 2 new_printer
           (with_packet_buf new_printer (replicate 512 7%Z) 0) [] (wire_frame 1 [7%Z]) 8).
  - exact new_printer_accumulated.
  - by repeat split.
  - by repeat split.
  - simpl. lia.
Defined.

(** [sent_packets_parse_back] for the heartbeat request. *)
Lemma sent_packets_parse_back_witness :
  let w := MkWorld (SetSendCallback new_printer) [] 0 in
  ∃ pkt,
    w_sent (SendPacket (λ _, true) HEARTBEAT [1%Z] 1 true w).2
    = w_sent w ++ [EvSend pkt true]
    ∧ length pkt = 1 + 7
    ∧ ParsePacket pkt (length pkt) 0 (replicate 256 0%Z) 0
      = Parsed ExitOk (code_value HEARTBEAT)
          (take 1 [1%Z] ++ drop 1 (replicate 256 0%Z)) 1.
Proof.
  apply (sent_packets_parse_back (λ _, true) HEARTBEAT [1%Z] 1 true
           (MkWorld (SetSendCallback new_printer) [] 0) 0 (replicate 256 0%Z) 0).
  - reflexivity.
  - lia.
  - simpl. lia.
  - rewrite length_replicate. lia.
Defined.

(** [single_commands_on_the_wire] for a new printer with a send callback
    and a transport that acknowledges every write. *)
Lemma single_commands_on_the_wire_witness :
  let wc := λ _ : nat, true in
  let w := MkWorld (SetSendCallback new_printer) [] 0 in
  let sends (m : M esp_err_t) (code : RequestCode) (payload : list Z) :=
    m w = transmit wc (command code payload) w in
  sends (SendHeartbeat wc) HEARTBEAT [1%Z]
  ∧ (∀ key, sends (GetDeviceInfo wc key) GET_INFO [key_value key])
  ∧ (∀ density, sends (SetLabelDensity wc density) SET_LABEL_DENSITY [density])
  ∧ (∀ type, sends (SetLabelType wc type) SET_LABEL_TYPE [type])
  ∧ (∀ pages color, sends (StartPrint wc pages color) START_PRINT
                      (be16 pages ++ [0; 0; 0; 0; color]%Z))
  ∧ sends (StartPagePrint wc) START_PAGE_PRINT [1%Z]
  ∧ (∀ rows cols copies, sends (SetPageSize wc rows cols copies) SET_DIMENSION
                           (be16 rows ++ be16 cols ++ be16 copies))
  ∧ (∀ row count, sends (SendEmptyRow wc row count) PRINT_EMPTY_ROW
                    (be16 row ++ [count]))
  ∧ sends (EndPagePrint wc) END_PAGE_PRINT [1%Z]
  ∧ sends (EndPrint wc) END_PRINT [1%Z]
  ∧ sends (GetPrintStatus wc) GET_PRINT_STATUS [1%Z].
Proof.
  apply (single_commands_on_the_wire (λ _, true)
           (MkWorld (SetSendCallback new_printer) [] 0)).
  reflexivity.
Defined.

(** [SendBitmapRow_row_sizes] for a row of 48 bytes. *)
Lemma SendBitmapRow_row_sizes_witness :
  let wc := λ _ : nat, true in
  let w := MkWorld (SetSendCallback new_printer) [] 0 in
  let row := replicate 48 0xFF%Z in
  (48 ≤ 243 →
   SendBitmapRow wc 5 row 48 w
   = transmit wc (command PRINT_BITMAP_ROW (be16 5 ++ [0; 0; 0; 1]%Z ++ take 48 row)) w)
  ∧ (244 ≤ 48 ≤ 250 → SendBitmapRow wc 5 row 48 w = (ESP_ERR_INVALID_SIZE, w)).
Proof.
  apply (SendBitmapRow_row_sizes (λ _, true) 5 (replicate 48 0xFF%Z) 48
           (MkWorld (SetSendCallback new_printer) [] 0)).
  - reflexivity.
  - rewrite length_replicate. lia.
Defined.

(** [print_gate_reopens] for a printer with a send callback and a 9-byte
    heartbeat response. *)
Lemma print_gate_reopens_witness :
  let wc := λ _ : nat, true in
  let decode := λ (_ : RleImage) (_ : Z) (buf : list Z) (_ : nat), buf in
  let image := MkRleImage 384 1 [] [] in
  let p := SetSendCallback new_printer in
  Print wc decode image (MkWorld (Reset p) [] 0)
  = (ESP_ERR_INVALID_STATE, MkWorld (Reset p) [] 0)
  ∧ ∃ q evs,
      ProcessReceivedData 1 (Reset p) (wire_frame 0xDD (replicate 9 0%Z))
        (length (replicate 9 0%Z) + 7)
      = Returns (q, evs)
      ∧ (Print wc decode image (MkWorld q [] 0)).1 ≠ ESP_ERR_INVALID_STATE.
Proof.
  apply (print_gate_reopens (λ _, true) (λ _ _ buf _, buf) 1 (SetSendCallback new_printer)
           (MkRleImage 384 1 [] []) (replicate 9 0%Z) [] 0).
  - reflexivity.
  - reflexivity.
  - simpl. lia.
  - lia.
Defined.

(** [other_responses_change_nothing] for an error response and a heartbeat
    response of two bytes. *)
Lemma other_responses_change_nothing_witness :
  let fs := [(0xDB, [1]); (0xDD, [1; 2])]%Z in
  ∃ junk,
    ProcessReceivedData 3 new_printer (stream fs) (length (stream fs))
    = Returns (with_packet_buf new_printer junk 0, map (λ f, EvResponse f.1 f.2) fs).
Proof.
  apply (other_responses_change_nothing 3 new_printer [(0xDB, [1]); (0xDD, [1; 2])]%Z).
  - exact new_printer_accumulated.
  - repeat constructor; simpl; lia.
  - constructor; [left; simpl; lia|]. constructor; [right; simpl; lia|]. constructor.
  - unfold sizeof_packet_buf. simpl. lia.
  - simpl. lia.
Defined.

(** [heartbeat_status_on_the_wire] for a heartbeat response of 20 bytes. *)
Lemma heartbeat_status_on_the_wire_witness :
  let pl := replicate 18 0%Z ++ [4; 5]%Z in
  ∃ q evs,
    ProcessReceivedData 1 new_printer (wire_frame 0xDD pl) (length pl + 7) = Returns (q, evs)
    ∧ ready_ q = true ∧ packet_buf_len_ q = 0
    ∧ handled evs = [(0xDD%Z, pl)]
    ∧ status_ q =
        let s := status_ new_printer in
        if decide (length pl = 20)
        then MkStatus (closing_state s) (power_level s) pl.[18] pl.[19]
        else if decide (length pl = 19)
        then MkStatus pl.[15] pl.[16] pl.[17] pl.[18]
        else if decide (length pl = 10)
        then MkStatus pl.[8] pl.[9] (paper_state s) (rfid_read_state s)
        else s.
Proof.
  apply (heartbeat_status_on_the_wire 1 new_printer (replicate 18 0%Z ++ [4; 5]%Z)).
  - exact new_printer_accumulated.
  - simpl. lia.
  - simpl. lia.
  - lia.
Defined.

(** [ParsePacket_out_parameters] for a frame with a wrong checksum. *)
Lemma ParsePacket_out_parameters_witness :
  let buf := [0x55; 0x55; 1; 1; 7; 0; 0xAA; 0xAA]%Z in
  let r := ParsePacket buf 8 9 (replicate 256 3%Z) 5 in
  length (p_data r) = length (replicate 256 3%Z)
  ∧ (∀ i, 255 ≤ i → (p_data r).[i] = (replicate 256 3%Z).[i])
  ∧ (returned (p_exit r) = false → p_data_len r = 5)
  ∧ (p_exit r = ExitTooShort ∨ p_exit r = ExitBadStart
     → r = Parsed (p_exit r) 9 (replicate 256 3%Z) 5).
Proof.
  apply (ParsePacket_out_parameters [0x55; 0x55; 1; 1; 7; 0; 0xAA; 0xAA]%Z 8 9
           (replicate 256 3%Z) 5).
  unfold is_byte, rd. simpl. lia.
Defined.

(** [noise_is_discarded] for eight bytes without a start marker. *)
Lemma noise_is_discarded_witness :
  let data := [1; 2; 3; 4; 5; 6; 7; 0x55]%Z in
  ∃ q, ProcessReceivedData 1 new_printer data 8 = Returns (q, [])
       ∧ same_device q new_printer
       ∧ accumulated q (drop (length (@nil Z) + 8 - 1) ([] ++ take 8 data))
       ∧ packet_buf_len_ q = 1.
Proof.
  apply (noise_is_discarded 1 new_printer [] [1; 2; 3; 4; 5; 6; 7; 0x55]%Z 8).
  - exact new_printer_accumulated.
  - simpl. lia.
  - unfold sizeof_packet_buf. simpl. lia.
  - reflexivity.
  - lia.
Defined.

(** [handled_frames_were_received] for a frame between two stray bytes. *)
Lemma handled_frames_were_received_witness :
  let data := ([9] ++ wire_frame 1 [2] ++ [3])%Z in
  ∃ q evs rest,
    ProcessReceivedData 506 new_printer data 10 = Returns (q, evs)
    ∧ accumulated q rest
    ∧ scanned ([] ++ take 10 data) (handled evs) rest.
Proof.
  apply (handled_frames_were_received 506 new_printer [] ([9] ++ wire_frame 1 [2] ++ [3])%Z 10).
  - exact new_printer_accumulated.
  - constructor.
  - apply Forall_is_byte_check. reflexivity.
  - simpl. lia.
  - unfold sizeof_packet_buf. lia.
  - unfold sizeof_packet_buf. lia.
Defined.

(** [app_stays_ready] for a connection, a heartbeat response, then a
    touch, a write completion and an idle pass. *)
Lemma app_stays_ready_witness :
  let wc := λ _ : nat, true in
  let decode := λ (_ : RleImage) (_ : Z) (buf : list Z) (_ : nat), buf in
  let image := MkRleImage 384 1 [] [] in
  let es1 := [BleConnected; DataReceived (wire_frame 0xDD (replicate 9 0%Z)) 16] in
  let es2 := [LoopPass true 7 image; WriteCompleted; LoopPass false 0 image] in
  ∃ a a',
    app_run wc decode app_start es1 = Returns a
    ∧ app_run wc decode a es2 = Returns a'
    ∧ send_callback_ (w_printer (app_world a')) = true
    ∧ ready_callback_ (w_printer (app_world a')) = false
    ∧ (ready_ (w_printer (app_world a)) = true →
       ready_ (w_printer (app_world a')) = true
       ∧ ∀ sign, (Print wc decode sign (app_world a')).1 ≠ ESP_ERR_INVALID_STATE).
Proof.
  apply (app_stays_ready (λ _, true) (λ _ _ buf _, buf)
           [BleConnected; DataReceived (wire_frame 0xDD (replicate 9 0%Z)) 16]
           [LoopPass true 7 (MkRleImage 384 1 [] []); WriteCompleted;
            LoopPass false 0 (MkRleImage 384 1 [] [])]).
  repeat apply Forall_cons_2; try apply Forall_nil_2; try exact I.
  all: unfold fits_array, sizeof_packet_buf; lia.
Defined.

(** [leds_stopped_after_every_pass] for a touch before and a touch after
    the first heartbeat response. *)
Lemma leds_stopped_after_every_pass_witness :
  let wc := λ _ : nat, true in
  let decode := λ (_ : RleImage) (_ : Z) (buf : list Z) (_ : nat), buf in
  let image := MkRleImage 384 1 [] [] in
  let es := [LoopPass true 7 image;
             DataReceived (wire_frame 0xDD (replicate 9 0%Z)) 16;
             LoopPass true 8 image] in
  ∃ a, app_run wc decode app_start es = Returns a
       ∧ (app_leds a = [] ∨ last (app_leds a) = Some LedsStop)
       ∧ Forall regular_animation (app_leds a).
Proof.
  apply (leds_stopped_after_every_pass (λ _, true) (λ _ _ buf _, buf)
           [LoopPass true 7 (MkRleImage 384 1 [] []);
            DataReceived (wire_frame 0xDD (replicate 9 0%Z)) 16;
            LoopPass true 8 (MkRleImage 384 1 [] [])]).
  repeat apply Forall_cons_2; try apply Forall_nil_2; try exact I.
  all: unfold fits_array, sizeof_packet_buf; lia.
Defined.

(** [Wait_true_on_held_touch] for a line that is high at the first read
    and low afterwards. *)
Lemma Wait_true_on_held_touch_witness :
  let level := λ k : nat, if k =? 0 then 1%Z else 0%Z in
  0 + 3 ≤ 3 ∧ level (3 - 3) ≠ 0%Z ∧ level (3 - 2) = 0%Z ∧ level (3 - 1) = 0%Z.
Proof.
  apply (Wait_true_on_held_touch (λ k, if k =? 0 then 1%Z else 0%Z) 1 100
           (MkTouch 0 0) (MkTouch 3 0)).
  reflexivity.
Defined.

(** [Wait_gives_up_without_touch] for a timeout of 100 ms. *)
Lemma Wait_gives_up_without_touch_witness :
  let level := λ _ : nat, 0%Z in
  let s := MkTouch 0 0 in
  let n := poll_budget 100 in
  ((∀ j, t_reads s ≤ j < t_reads s + n → level j = 0%Z) →
   Wait level 1 true 100 s = Returns (false, MkTouch (t_reads s + n) (t_polls s + n)))
  ∧ ((∀ j, t_reads s ≤ j < t_reads s + n + 1 → level j ≠ 0%Z) →
     Wait level 1 true 100 s
     = Returns (false, MkTouch (t_reads s + n + 1) (t_polls s + n))).
Proof.
  apply (Wait_gives_up_without_touch (λ _, 0%Z) 0 100 (MkTouch 0 0)). lia.
Defined.

(** [Wait_timeout_is_per_attempt] for a timeout of 100 ms and two nested
    calls. *)
Lemma Wait_timeout_is_per_attempt_witness :
  let level := λ _ : nat, 0%Z in
  (∀ s b s', Wait level 2 true 100 s = Returns (b, s') →
             t_polls s' ≤ t_polls s + 2 * poll_budget 100)
  ∧ ∀ i polls, Wait bouncing 2 true 100 (MkTouch (3 * i) polls) = OutOfFuel.
Proof. apply (Wait_timeout_is_per_attempt (λ _, 0%Z) 2 100). lia. Defined.

(** [one_connection_attempt_at_a_time] for a registration, the printer
    found by the scan, a disconnect, and the printer found again. *)
Lemma one_connection_attempt_at_a_time_witness :
  let bda := [1; 2; 3; 4; 5; 6]%Z in
  let es := [GattcEvent (ESP_GATTC_REG_EVT true 0) 3;
             GapEvent (ESP_GAP_BLE_SCAN_RESULT_EVT true bda 0);
             GattcEvent ESP_GATTC_DISCONNECT_EVT 3;
             GapEvent (ESP_GAP_BLE_SCAN_RESULT_EVT true bda 0)] in
  ∃ c calls,
    ble_run (ble_start bda) es = Returns (c, calls)
    ∧ opens calls + (if connected_ c then 0 else 1) ≤ 1 + ended es
    ∧ Forall (opens_to bda) calls.
Proof.
  apply (one_connection_attempt_at_a_time [1; 2; 3; 4; 5; 6]%Z
           [GattcEvent (ESP_GATTC_REG_EVT true 0) 3;
            GapEvent (ESP_GAP_BLE_SCAN_RESULT_EVT true [1; 2; 3; 4; 5; 6]%Z 0);
            GattcEvent ESP_GATTC_DISCONNECT_EVT 3;
            GapEvent (ESP_GAP_BLE_SCAN_RESULT_EVT true [1; 2; 3; 4; 5; 6]%Z 0)]).
  repeat apply Forall_cons_2; try apply Forall_nil_2; try exact I.
  unfold registers_in_range, kProfileNum. lia.
Defined.

(** [SendData_waits_for_characteristic] for the client at its start, an
    opened connection and a notification. *)
Lemma SendData_waits_for_characteristic_witness :
  let c0 := ble_start [1; 2; 3; 4; 5; 6]%Z in
  let es := [GattcEvent (ESP_GATTC_OPEN_EVT true 1 [1; 2; 3; 4; 5; 6]%Z) 0xff;
             GattcEvent (ESP_GATTC_NOTIFY_EVT [0x55%Z] 1) 0xff] in
  ∃ c calls,
    ble_run c0 es = Returns (c, calls)
    ∧ (∀ data len wait_for_response, SendData c data len wait_for_response = [])
    ∧ Forall (λ call, is_write_char call = false) calls.
Proof.
  apply (SendData_waits_for_characteristic (ble_start [1; 2; 3; 4; 5; 6]%Z)
           [GattcEvent (ESP_GATTC_OPEN_EVT true 1 [1; 2; 3; 4; 5; 6]%Z) 0xff;
            GattcEvent (ESP_GATTC_NOTIFY_EVT [0x55%Z] 1) 0xff]).
  - left. by exists [1; 2; 3; 4; 5; 6]%Z.
  - repeat apply Forall_cons_2; try apply Forall_nil_2; exact I.
  - repeat apply Forall_cons_2; try apply Forall_nil_2; reflexivity.
Defined.
